(** * dms_tools2: variant tables and neutralization curves

    A shallow embedding of [dms_tools2/codonvarianttable.py] and
    [dms_tools2/neutcurve.py], followed by the properties established
    about them.

    Conventions of the embedding:
    - Python exceptions are values of [exn]; a computation that may raise
      returns a [result].  The text carried by [ValueError] is the fixed
      part of the message of the [raise] statement it comes from.
    - [str] is [string] (8-bit characters); [str.upper] acts on the ASCII
      letters.
    - a pandas DataFrame is the list of its rows, each row a record with
      one field per column; a categorical column carries its ordered
      category list next to the rows.
    - dictionaries are [gmap]s, sets are [gset]s.
    - numbers: table counts are [Z]; floats are rationals, with the IEEE
      special values added where numpy can produce them. *)

From Stdlib Require Import ZArith QArith Ascii String Bool Lia Lqa.
From Stdlib Require DecimalString.
From stdpp Require Import base decidable option list gmap strings sorting.

Local Open Scope string_scope.
Local Open Scope list_scope.

(** ** Python exceptions and results *)

Inductive exn : Type :=
| ValueError (msg : string)
| KeyError
| IndexError
| AttributeError
| UnboundLocalError
| ZeroDivisionError
| MergeError
| RuntimeError
| TypeError
| NameError
| AssertionError.

Inductive result (A : Type) : Type :=
| Ok (a : A)
| Raise (e : exn).

Arguments Ok {A} a.
Arguments Raise {A} e.

#[global] Instance result_ret : MRet result := fun _ a => Ok a.

#[global] Instance result_bind : MBind result := fun _ _ k r =>
  match r with
  | Ok a => k a
  | Raise e => Raise e
  end.

Definition is_raise {A : Type} (r : result A) : Prop :=
  match r with Raise _ => True | Ok _ => False end.

Definition is_value_error {A : Type} (r : result A) : Prop :=
  match r with Raise (ValueError _) => True | _ => False end.

(** [seq[i]] for a non-negative index, and [seq[-1]]. *)
Definition index {A : Type} (l : list A) (i : nat) : result A :=
  match nth_error l i with
  | Some a => Ok a
  | None => Raise IndexError
  end.

Definition index_last {A : Type} (l : list A) : result A :=
  match l with
  | [] => Raise IndexError
  | a :: l' => Ok (List.last l' a)
  end.

(** [assert b] *)
Definition py_assert (b : bool) : result unit :=
  if b then Ok tt else Raise AssertionError.

(** A [for] loop that threads an accumulator and stops at the first
    exception. *)
Fixpoint foldM {A B : Type} (f : A -> B -> result A) (l : list B) (a : A)
    : result A :=
  match l with
  | [] => Ok a
  | x :: l' => a' ← f a x; foldM f l' a'
  end.

Fixpoint mapM_result {A B : Type} (f : A -> result B) (l : list A)
    : result (list B) :=
  match l with
  | [] => Ok []
  | x :: l' => y ← f x; ys ← mapM_result f l'; Ok (y :: ys)
  end.

(** ** Stable sorting

    pandas sorts frames on several columns with a stable sort, so the
    result is determined by the comparison alone; insertion from the
    right is one such sort. *)

Section StableSort.
Context {A : Type} (leb : A -> A -> bool).

Fixpoint sinsert (x : A) (l : list A) : list A :=
  match l with
  | [] => [x]
  | y :: l' => if leb x y then x :: y :: l' else y :: sinsert x l'
  end.

Fixpoint ssort (l : list A) : list A :=
  match l with
  | [] => []
  | x :: l' => sinsert x (ssort l')
  end.

End StableSort.

(** ** neutcurve.py: the four-parameter logistic *)

Module NeutCurve.

Local Open Scope Q_scope.

Definition Qltb (a b : Q) : bool := negb (Qle_bool b a).

(** A numpy [float64]: a rational or one of the IEEE special values.
    Rounding is not modelled and every zero is the positive zero (the
    only zero divisor the class can build, [0.5 - bottom], is [+0.0]). *)
Inductive fnum : Type :=
| Fin (q : Q)
| PInf
| NInf
| NaN.

Definition np_neg (x : fnum) : fnum :=
  match x with
  | Fin q => Fin (- q)
  | PInf => NInf
  | NInf => PInf
  | NaN => NaN
  end.

Definition np_add (x y : fnum) : fnum :=
  match x, y with
  | Fin a, Fin b => Fin (a + b)
  | NaN, _ | _, NaN => NaN
  | PInf, NInf | NInf, PInf => NaN
  | PInf, _ | _, PInf => PInf
  | NInf, _ | _, NInf => NInf
  end.

Definition np_sub (x y : fnum) : fnum := np_add x (np_neg y).

(** The infinity with the sign of [a], or [NaN] for [a = 0]. *)
Definition signed_inf (a : Q) (positive : bool) : fnum :=
  if Qeq_bool a 0 then NaN
  else if Bool.eqb (Qltb 0 a) positive then PInf else NInf.

Definition np_mul (x y : fnum) : fnum :=
  match x, y with
  | Fin a, Fin b => Fin (a * b)
  | NaN, _ | _, NaN => NaN
  | Fin a, PInf | PInf, Fin a => signed_inf a true
  | Fin a, NInf | NInf, Fin a => signed_inf a false
  | PInf, PInf | NInf, NInf => PInf
  | PInf, NInf | NInf, PInf => NInf
  end.

(** numpy division never raises: a zero divisor gives an infinity or
    [nan] (with a warning). *)
Definition np_div (x y : fnum) : fnum :=
  match x, y with
  | Fin a, Fin b => if Qeq_bool b 0 then signed_inf a true else Fin (a / b)
  | NaN, _ | _, NaN => NaN
  | Fin _, (PInf | NInf) => Fin 0
  | (PInf | NInf), (PInf | NInf) => NaN
  | PInf, Fin b => if Qltb b 0 then NInf else PInf
  | NInf, Fin b => if Qltb b 0 then PInf else NInf
  end.

Definition np_le (x y : fnum) : bool :=
  match x, y with
  | NaN, _ | _, NaN => false
  | NInf, _ | _, PInf => true
  | Fin a, Fin b => Qle_bool a b
  | _, _ => false
  end.

Definition np_lt (x y : fnum) : bool :=
  match x, y with
  | NaN, _ | _, NaN => false
  | PInf, _ | _, NInf => false
  | Fin a, Fin b => Qltb a b
  | _, _ => true
  end.

(** The value of an attribute that is either a Python number (a value
    the caller fixed) or a numpy scalar (a value unpacked from the
    optimizer's array, or taken from the data). *)
Inductive pyfloat : Type :=
| PyFloat (q : Q)
| NpFloat (q : Q).

Definition fval (x : pyfloat) : Q :=
  match x with PyFloat q | NpFloat q => q end.

Definition is_python (x : pyfloat) : bool :=
  match x with PyFloat _ => true | NpFloat _ => false end.

(** [a / b] on two such numbers whose values are [a] and [b]: Python's
    float division raises on a zero divisor, numpy's is used as soon as
    one operand is a numpy scalar. *)
Definition truediv (python : bool) (a b : Q) : result fnum :=
  if python then
    if Qeq_bool b 0 then Raise ZeroDivisionError else Ok (Fin (a / b))
  else Ok (np_div (Fin a) (Fin b)).

Record fourParamLogistic : Type := {
  cs : list Q;
  fs : list Q;
  midpoint : Q;
  slope : Q;
  bottom : pyfloat;
  top : pyfloat
}.

Definition Qmaximum (x : Q) (l : list Q) : Q :=
  fold_left (fun a b => if Qle_bool a b then b else a) l x.

Definition Qminimum (x : Q) (l : list Q) : Q :=
  fold_left (fun a b => if Qle_bool b a then b else a) l x.

(** [b[:-1] != b[1:]] on a boolean array, and [scipy.argmax] of a
    boolean array: the first [True], index 0 when there is none. *)
Fixpoint changes (b : list bool) : list bool :=
  match b with
  | x :: ((y :: _) as b') => xorb x y :: changes b'
  | _ => []
  end.

Fixpoint first_true (l : list bool) : nat :=
  match l with
  | [] => 0%nat
  | true :: _ => 0%nat
  | false :: l' => if existsb id l' then S (first_true l') else 0%nat
  end.

Definition argmax (l : list bool) : result nat :=
  match l with
  | [] => Raise (ValueError "attempt to get argmax of an empty sequence")
  | _ => Ok (first_true l)
  end.

Section Fit.

(** What the module takes from numpy, scipy and [dms_tools2.plot]:
    float exponentiation, the least-squares optimizer and the LaTeX
    formatter. *)
Variable np_power : fnum -> fnum -> fnum.
Variable curve_fit :
  (list Q -> Q -> result fnum) -> list Q -> list Q -> list Q -> result (list Q).
Variable latexSciNot : list fnum -> list string.

(** [evaluate(c, m, s, b, t)], on numpy scalars. *)
Definition evaluate (c m s b t : Q) : fnum :=
  np_add (Fin b)
    (np_div (np_sub (Fin t) (Fin b))
       (np_add (Fin 1) (np_power (np_div (Fin c) (Fin m)) (Fin s)))).

(** The function handed to the optimizer in each of the four cases; its
    arguments after [c] are the parameters being fitted, in the order of
    its signature. *)
Definition func (fixbottom fixtop : option Q) (self_bottom self_top : Q)
    (params : list Q) (c : Q) : result fnum :=
  match fixtop, fixbottom, params with
  | None, None, [m; s; b; t] => Ok (evaluate c m s b t)
  | None, Some _, [m; s; t] => Ok (evaluate c m s self_bottom t)
  | Some _, None, [m; s; b] => Ok (evaluate c m s b self_top)
  | Some _, Some _, [m; s] => Ok (evaluate c m s self_bottom self_top)
  | _, _, _ => Raise TypeError
  end.

(** The first statements of [__init__]: both arrays ordered by
    concentration (with a stable sort; [fs] is indexed by the positions
    of [cs], so it may not be the shorter). *)
Definition sort_by_concentration (cs0 fs0 : list Q) : result (list Q * list Q) :=
  if (length fs0 <? length cs0)%nat then Raise IndexError
  else
    let pairs := ssort (fun p q => Qle_bool (fst p) (fst q)) (combine cs0 fs0) in
    Ok (map fst pairs, map snd pairs).

(** The initial guesses [(midpoint, slope, bottom, top)]; [None] for a
    fixed value stands for [False]. *)
Definition initial_guess (cs fs : list Q) (fixbottom fixtop : option Q)
    : result (Q * Q * pyfloat * pyfloat) :=
  f_first ← index fs 0;
  f_last ← index_last fs;
  let slope0 : Q := if Qle_bool f_last f_first then 3 # 2 else - (3 # 2) in
  let top0 :=
    match fixtop with
    | None => NpFloat (if Qltb 0 slope0 then Qmaximum f_first fs
                       else Qminimum f_first fs)
    | Some v => PyFloat v
    end in
  let bottom0 :=
    match fixbottom with
    | None => NpFloat (if Qltb 0 slope0 then Qminimum f_first fs
                       else Qmaximum f_first fs)
    | Some v => PyFloat v
    end in
  let midval := (fval top0 - fval bottom0) / 2 in
  let above := map (fun f => Qltb midval f) fs in
  midpoint0 ←
    (if forallb id above then
       c_first ← index cs 0;
       c_last ← index_last cs;
       Ok (if Qltb 0 slope0 then c_last else c_first)
     else if forallb negb above then
       c_first ← index cs 0;
       c_last ← index_last cs;
       Ok (if Qltb 0 slope0 then c_first else c_last)
     else
       i ← argmax (changes above);
       a ← index above i;
       b ← index above (S i);
       _ ← py_assert (xorb a b);
       ci ← index cs i;
       cj ← index cs (S i);
       Ok ((ci + cj) / 2));
  Ok (midpoint0, slope0, bottom0, top0).

(** The tuple assignment from the optimizer's array that ends
    [__init__]. *)
Definition unpack (cs fs : list Q) (fixbottom fixtop : option Q)
    (bottom0 top0 : pyfloat) (popt : list Q) : result fourParamLogistic :=
  match fixtop, fixbottom, popt with
  | None, None, [p0; p1; p2; p3] =>
      Ok {| cs := cs; fs := fs; midpoint := p0; slope := p1;
            top := NpFloat p2; bottom := NpFloat p3 |}
  | None, Some _, [p0; p1; p2] =>
      Ok {| cs := cs; fs := fs; midpoint := p0; slope := p1;
            top := NpFloat p2; bottom := bottom0 |}
  | Some _, None, [p0; p1; p2] =>
      Ok {| cs := cs; fs := fs; midpoint := p0; slope := p1;
            top := top0; bottom := NpFloat p2 |}
  | Some _, Some _, [p0; p1] =>
      Ok {| cs := cs; fs := fs; midpoint := p0; slope := p1;
            top := top0; bottom := bottom0 |}
  | _, _, _ => Raise (ValueError "wrong number of values to unpack")
  end.

(** [fourParamLogistic.__init__] *)
Definition init (cs0 fs0 : list Q) (fixbottom fixtop : option Q)
    : result fourParamLogistic :=
  '(cs, fs) ← sort_by_concentration cs0 fs0;
  '(midpoint0, slope0, bottom0, top0) ← initial_guess cs fs fixbottom fixtop;
  let initguess :=
    match fixtop, fixbottom with
    | None, None => [midpoint0; slope0; fval bottom0; fval top0]
    | None, Some _ => [midpoint0; slope0; fval top0]
    | Some _, None => [midpoint0; slope0; fval bottom0]
    | Some _, Some _ => [midpoint0; slope0]
    end in
  popt ← curve_fit (func fixbottom fixtop (fval bottom0) (fval top0))
                   cs fs initguess;
  unpack cs fs fixbottom fixtop bottom0 top0 popt.

(** [fracsurvive(c)] *)
Definition fracsurvive (self : fourParamLogistic) (c : Q) : fnum :=
  evaluate c (midpoint self) (slope self) (fval (bottom self)) (fval (top self)).

(** [ic50(extrapolate)].  [midpoint] and [slope] are numpy scalars in
    every fitted object, so the exponent and the product are numpy
    operations; the quotient is a Python division exactly when [top] and
    [bottom] were both fixed by the caller. *)
Definition ic50 (self : fourParamLogistic) (extrapolate : bool)
    : result (option fnum) :=
  let t := fval (top self) in
  let b := fval (bottom self) in
  if Qeq_bool (slope self) 0 || Qeq_bool t b
     || Bool.eqb (Qltb (1 # 2) t) (Qltb (1 # 2) b)
  then Ok None
  else
    ratio ← truediv (is_python (top self) && is_python (bottom self))
                    (t - (1 # 2)) ((1 # 2) - b);
    let ic50 :=
      np_mul (Fin (midpoint self))
             (np_power ratio (np_div (Fin 1) (Fin (slope self)))) in
    c_first ← index (cs self) 0;
    inside ← (if np_le (Fin c_first) ic50
              then c_last ← index_last (cs self); Ok (np_le ic50 (Fin c_last))
              else Ok false);
    if inside || extrapolate then Ok (Some ic50) else Ok None.

Definition _sciNot (x : fnum) : result string :=
  index (latexSciNot [x]) 0.

(** [s[1:]] *)
Definition drop_first (s : string) : string :=
  match s with
  | EmptyString => EmptyString
  | String _ s' => s'
  end.

(** [ic50_str()] *)
Definition ic50_str (self : fourParamLogistic) : result string :=
  r ← ic50 self true;
  match r with
  | None => Ok "NA"
  | Some ic50 =>
      c_last ← index_last (cs self);
      if np_lt (Fin c_last) ic50 then
        s ← _sciNot (Fin c_last); Ok ("$>" +:+ drop_first s)
      else
        c_first ← index (cs self) 0;
        if np_lt ic50 (Fin c_first) then
          s ← _sciNot (Fin c_first); Ok ("$<" +:+ drop_first s)
        else _sciNot ic50
  end.

(** The outcome of [ic50_str] as a function of the extrapolated IC50
    [r] and of the lowest and highest concentrations [lo] and [hi]:
    ["NA"] when there is none, a bound at [hi] or at [lo] when it lies
    beyond, the value itself otherwise. *)
Definition ic50_str_of (lo hi : Q) (r : option fnum) : result string :=
  match r with
  | None => Ok "NA"
  | Some v =>
      if np_lt (Fin hi) v then s ← _sciNot (Fin hi); Ok ("$>" +:+ drop_first s)
      else if np_lt v (Fin lo) then s ← _sciNot (Fin lo); Ok ("$<" +:+ drop_first s)
      else _sciNot v
  end.

(** The closed form [midpoint * ((top - 0.5) / (0.5 - bottom)) ** (1 /
    slope)], in numpy arithmetic. *)
Definition ic50_value (self : fourParamLogistic) : fnum :=
  np_mul (Fin (midpoint self))
    (np_power (np_div (Fin (fval (top self) - (1 # 2)))
                      (Fin ((1 # 2) - fval (bottom self))))
              (np_div (Fin 1) (Fin (slope self)))).

End Fit.

(** The four parameters of the curve, and the value an object holds for
    each. *)
Inductive parameter : Type := Midpoint | Slope | Bottom | Top.

#[global] Instance parameter_eq_dec : EqDecision parameter.
Proof. solve_decision. Defined.

Definition attribute (self : fourParamLogistic) (p : parameter) : Q :=
  match p with
  | Midpoint => midpoint self
  | Slope => slope self
  | Bottom => fval (bottom self)
  | Top => fval (top self)
  end.

(** The parameters that [func] takes after [c], in the order of its
    signature: [evaluate(c, m, s, b, t)], [func(c, m, s, t)],
    [func(c, m, s, b)] and [func(c, m, s)]. *)
Definition func_parameters (fixbottom fixtop : option Q) : list parameter :=
  match fixtop, fixbottom with
  | None, None => [Midpoint; Slope; Bottom; Top]
  | None, Some _ => [Midpoint; Slope; Top]
  | Some _, None => [Midpoint; Slope; Bottom]
  | Some _, Some _ => [Midpoint; Slope]
  end.

(** The value the optimizer found for a parameter: the entry of its
    array at the position of the parameter in the signature of [func]. *)
Definition fitted (fixbottom fixtop : option Q) (popt : list Q) (p : parameter)
    : option Q :=
  i ← list_find (fun q => q = p) (func_parameters fixbottom fixtop);
  popt !! i.1.

(** The value of a parameter in a call of [func]: its argument when the
    parameter is fitted, the attribute of the object otherwise. *)
Definition func_argument (fixbottom fixtop : option Q) (self_bottom self_top : Q)
    (params : list Q) (p : parameter) : Q :=
  match fitted fixbottom fixtop params p, p with
  | Some v, _ => v
  | None, Bottom => self_bottom
  | None, Top => self_top
  | None, _ => 0
  end.

(** The cases in which [ic50] answers [None] before computing anything:
    a flat curve, or asymptotes on the same side of the test
    [x > 0.5]. *)
Definition never_reaches_half (self : fourParamLogistic) : bool :=
  Qeq_bool (slope self) 0
  || Qeq_bool (fval (top self)) (fval (bottom self))
  || Bool.eqb (Qltb (1 # 2) (fval (top self)))
              (Qltb (1 # 2) (fval (bottom self))).

(** [lo <= v <= hi] *)
Definition within (lo hi : Q) (v : fnum) : bool :=
  np_le (Fin lo) v && np_le v (Fin hi).

(** Data for the statements about the fit. *)
Definition example_cs : list Q := [1; 2; 4; 8].
Definition example_fs : list Q := [9 # 10; 7 # 10; 3 # 10; 1 # 10].

(** An optimizer that answers with a given array. *)
Definition answering (popt : list Q)
    : (list Q -> Q -> result fnum) -> list Q -> list Q -> list Q
      -> result (list Q) :=
  fun _ _ _ _ => Ok popt.

(** Stand-ins for exponentiation and for the formatter in examples:
    [power_of_one] is [x ** e] for the exponent 1, the only one the
    example below needs (its slope is 1). *)
Definition power_of_one (x e : fnum) : fnum := x.

Definition dollars (l : list fnum) : list string := map (fun _ => "$x$") l.

Definition example_fit : fourParamLogistic :=
  {| cs := example_cs; fs := example_fs; midpoint := 3; slope := 1;
     bottom := NpFloat (1 # 10); top := PyFloat 1 |}.

(** An object with the asymptotes of a full curve: top 1 and bottom 0. *)
Definition midpoint_fit : fourParamLogistic :=
  {| cs := example_cs; fs := example_fs; midpoint := 3; slope := 2;
     bottom := PyFloat 0; top := PyFloat 1 |}.

End NeutCurve.

(** ** Python strings *)

Module Str.

Definition code (c : ascii) : Z := Z.of_N (N_of_ascii c).

(** [str.upper], on the ASCII letters. *)
Definition upper_char (c : ascii) : ascii :=
  if (97 <=? code c)%Z && (code c <=? 122)%Z
  then ascii_of_N (N_of_ascii c - 32)
  else c.

Fixpoint upper (s : string) : string :=
  match s with
  | EmptyString => EmptyString
  | String c s' => String (upper_char c) (upper s')
  end.

(** The characters [str.split()] splits on. *)
Definition is_space (c : ascii) : bool :=
  ((9 <=? code c)%Z && (code c <=? 13)%Z)
  || ((28 <=? code c)%Z && (code c <=? 32)%Z).

Definition is_digit (c : ascii) : bool :=
  (48 <=? code c)%Z && (code c <=? 57)%Z.

Definition starts_with_space (s : string) : bool :=
  match s with
  | EmptyString => true
  | String c _ => is_space c
  end.

(** [s.split()]: the maximal runs of non-space characters. *)
Fixpoint split (s : string) : list string :=
  match s with
  | EmptyString => []
  | String c s' =>
      if is_space c then split s'
      else if starts_with_space s' then String c EmptyString :: split s'
      else match split s' with
           | t :: ts => String c t :: ts
           | [] => [String c EmptyString]
           end
  end.

(** [s.split(sep)] for a one-character separator: empty pieces are kept. *)
Fixpoint split_on (sep : ascii) (s : string) : list string :=
  match s with
  | EmptyString => [EmptyString]
  | String c s' =>
      if Ascii.eqb c sep then EmptyString :: split_on sep s'
      else match split_on sep s' with
           | t :: ts => String c t :: ts
           | [] => [String c EmptyString]
           end
  end.

(** [' '.join(l)] *)
Fixpoint join (l : list string) : string :=
  match l with
  | [] => EmptyString
  | [t] => t
  | t :: l' => t +:+ String " " (join l')
  end.

(** [s[start:stop]] with Python's treatment of negative and
    out-of-range bounds. *)
Definition clip (len i : Z) : Z :=
  let i := if (i <? 0)%Z then (i + len)%Z else i in
  Z.max 0 (Z.min len i).

Fixpoint drop (n : nat) (s : string) : string :=
  match n, s with
  | O, _ => s
  | S n', String _ s' => drop n' s'
  | S _, EmptyString => EmptyString
  end.

Fixpoint take (n : nat) (s : string) : string :=
  match n, s with
  | S n', String c s' => String c (take n' s')
  | _, _ => EmptyString
  end.

Definition slice (s : string) (start stop : Z) : string :=
  let len := Z.of_nat (String.length s) in
  let a := clip len start in
  let b := clip len stop in
  take (Z.to_nat (b - a)) (drop (Z.to_nat a) s).

(** [s[i]], negative indices counting from the end. *)
Definition get (s : string) (i : Z) : result ascii :=
  let len := Z.of_nat (String.length s) in
  let j := if (i <? 0)%Z then (i + len)%Z else i in
  if (j <? 0)%Z then Raise IndexError
  else match String.get (Z.to_nat j) s with
       | Some c => Ok c
       | None => Raise IndexError
       end.

(** [int(digits)] for a run of decimal digits. *)
Definition digit_value (c : ascii) : Z := (code c - 48)%Z.

Fixpoint int_acc (acc : Z) (s : string) : Z :=
  match s with
  | EmptyString => acc
  | String c s' => int_acc (10 * acc + digit_value c)%Z s'
  end.

Definition int (digits : string) : Z := int_acc 0 digits.

(** [f"{n}"] for an integer. *)
Definition of_int (n : Z) : string :=
  match n with
  | Zneg p => String "-" (DecimalString.NilEmpty.string_of_uint (Pos.to_uint p))
  | _ => DecimalString.NilEmpty.string_of_uint (N.to_uint (Z.to_N n))
  end.

(** The longest prefix of characters satisfying [p], and the rest. *)
Fixpoint span (p : ascii -> bool) (s : string) : string * string :=
  match s with
  | EmptyString => (EmptyString, EmptyString)
  | String c s' =>
      if p c then let '(a, b) := span p s' in (String c a, b)
      else (EmptyString, s)
  end.

Fixpoint all (p : ascii -> bool) (s : string) : bool :=
  match s with
  | EmptyString => true
  | String c s' => p c && all p s'
  end.

(** The pattern [^(?P<wt>W)(?P<r>\d+)(?P<mut>W)$] where [W] is [n]
    characters of the class [p], on a string without line breaks. *)
Definition match_mutation (p : ascii -> bool) (n : nat) (tok : string)
    : option (string * Z * string) :=
  let wt := take n tok in
  let '(digits, mut) := span is_digit (drop n tok) in
  if Nat.eqb (String.length wt) n && all p wt
     && negb (Nat.eqb (String.length digits) 0)
     && Nat.eqb (String.length mut) n && all p mut
  then Some (wt, int digits, mut)
  else None.

(** A token: a non-empty string without a space. *)
Definition is_token (t : string) : Prop :=
  t <> EmptyString /\ all (fun c => negb (is_space c)) t = true.

End Str.

(** ** The genetic code

    Modelled from the spec: the genetic code table and the alphabets
    [NTS], [CODONS], [CODON_TO_AA] and [AAS_WITHSTOP] are imported from
    the package's [__init__.py], which is not among the sources at hand.
    They are the standard genetic code with [*] for stop, the sorted
    nucleotides, the codons in the order of the nested comprehension
    over them, and the sorted amino acids followed by [*]. *)

Module Genetic.

Definition NTS : list string := ["A"; "C"; "G"; "T"].

Definition CODONS : list string :=
  n1 ← NTS; n2 ← NTS; n3 ← NTS; [n1 +:+ n2 +:+ n3].

Definition AAS_WITHSTOP : list string :=
  ["A"; "C"; "D"; "E"; "F"; "G"; "H"; "I"; "K"; "L"; "M"; "N"; "P"; "Q";
   "R"; "S"; "T"; "V"; "W"; "Y"; "*"].

Definition is_nt (c : ascii) : bool :=
  match c with
  | "A"%char | "C"%char | "G"%char | "T"%char => true
  | _ => false
  end.

(** Position of a base in the customary T, C, A, G layout of the table. *)
Definition base_rank (c : ascii) : option nat :=
  match c with
  | "T"%char => Some 0%nat
  | "C"%char => Some 1%nat
  | "A"%char => Some 2%nat
  | "G"%char => Some 3%nat
  | _ => None
  end.

Definition code_table : string :=
  "FFLLSSSSYY**CC*WLLLLPPPPHHQQRRRRIIIMTTTTNNKKSSRRVVVVAAAADDEEGGGG".

(** [CODON_TO_AA[codon]] *)
Definition CODON_TO_AA (codon : string) : result string :=
  match codon with
  | String a (String b (String c EmptyString)) =>
      match base_rank a, base_rank b, base_rank c with
      | Some i, Some j, Some k =>
          match String.get (16 * i + 4 * j + k) code_table with
          | Some aa => Ok (String aa EmptyString)
          | None => Raise KeyError
          end
      | _, _, _ => Raise KeyError
      end
  | _ => Raise KeyError
  end.

End Genetic.

(** ** DataFrames *)

Module Frame.

(** The type of a column of strings: plain objects, or an ordered
    categorical with its categories. *)
Inductive dtype : Type :=
| Object
| Categorical (categories : list string).

#[global] Instance dtype_eq_dec : EqDecision dtype.
Proof. solve_decision. Defined.

(** A frame with a [library] column and possibly a [sample] column
    ([sample_dtype] is [Object] when there is none). *)
Record frame (R : Type) : Type := Frame {
  rows : list R;
  library_dtype : dtype;
  sample_dtype : dtype
}.

Arguments Frame {R} rows library_dtype sample_dtype.
Arguments rows {R} f.
Arguments library_dtype {R} f.
Arguments sample_dtype {R} f.

#[global] Instance frame_eq_dec {R : Type} `{EqDecision R} : EqDecision (frame R).
Proof. solve_decision. Defined.

(** [Series.unique()]: the distinct values in order of first appearance. *)
Fixpoint unique {A : Type} `{EqDecision A} (l : list A) : list A :=
  match l with
  | [] => []
  | x :: l' => x :: filter (fun y => y ≠ x) (unique l')
  end.

(** The code of a value in a categorical column: its position among the
    categories.  A value outside the categories would be stored as NaN,
    which sorts last; the frames built here never hold one. *)
Fixpoint cat_code (categories : list string) (x : string) : nat :=
  match categories with
  | [] => 0
  | c :: cs => if decide (c = x) then 0 else S (cat_code cs x)
  end.

(** Order of the values of a column, by its type. *)
Definition col_leb (d : dtype) (x y : string) : bool :=
  match d with
  | Object => String.leb x y
  | Categorical cs => (cat_code cs x <=? cat_code cs y)%nat
  end.

Definition col_eqb (d : dtype) (x y : string) : bool :=
  match d with
  | Object => bool_decide (x = y)
  | Categorical cs => (cat_code cs x =? cat_code cs y)%nat
  end.

End Frame.

(** ** codonvarianttable.py *)

Module CodonVariantTable.

Import Frame Genetic.

(** *** The reference gene *)

(** [re.match('^[ATGC]+$', s)]; [$] also matches before a final line
    break. *)
Fixpoint match_geneseq (s : string) : bool :=
  match s with
  | EmptyString => false
  | String c s' =>
      is_nt c &&
      match s' with
      | EmptyString => true
      | String "010"%char EmptyString => true
      | _ => match_geneseq s'
      end
  end.

Definition nsites (geneseq : string) : Z :=
  (Z.of_nat (String.length geneseq) / 3)%Z.

(** [self.sites] *)
Definition sites (geneseq : string) : list Z :=
  map Z.of_nat (seq 1 (Z.to_nat (nsites geneseq))).

Definition in_sites (geneseq : string) (r : Z) : bool :=
  (1 <=? r)%Z && (r <=? nsites geneseq)%Z.

(** [self.codons[r]] and [self.aas[r]]: the dictionaries are filled once
    from [self.geneseq], for the keys in [self.sites]. *)
Definition codons (geneseq : string) (r : Z) : result string :=
  if in_sites geneseq r
  then Ok (Str.slice geneseq (3 * (r - 1)) (3 * r))
  else Raise KeyError.

Definition aas (geneseq : string) (r : Z) : result string :=
  codon ← codons geneseq r; CODON_TO_AA codon.

(** *** Mutation strings *)

Definition eqb_str (a b : string) : bool := bool_decide (a = b).

Definition sorted_items {V : Type} (m : gmap Z V) : list (Z * V) :=
  ssort (fun a b => (a.1 <=? b.1)%Z) (map_to_list m).

Definition _codonToAAMuts_step (geneseq : string) (aa_muts : gmap Z string)
    (mut : string) : result (gmap Z string) :=
  match Str.match_mutation is_nt 3 mut with
  | None => Raise (ValueError "invalid codon mutation")
  | Some (wt_codon, r, mut_codon) =>
      if bool_decide (is_Some (aa_muts !! r))
      then Raise (ValueError "duplicate codon mutation")
      else if negb (eqb_str (Str.slice geneseq (3 * (r - 1)) (3 * r)) wt_codon)
      then Raise (ValueError "invalid wildtype codon")
      else if eqb_str wt_codon mut_codon
      then Raise (ValueError "invalid mutation")
      else
        wt_aa ← CODON_TO_AA wt_codon;
        self_aa ← aas geneseq r;
        _ ← py_assert (eqb_str wt_aa self_aa);
        mut_aa ← CODON_TO_AA mut_codon;
        if negb (eqb_str wt_aa mut_aa)
        then Ok (<[r := wt_aa +:+ Str.of_int r +:+ mut_aa]> aa_muts)
        else Ok aa_muts
  end.

(** [_codonToAAMuts(codon_mut_str)] *)
Definition _codonToAAMuts (geneseq : string) (codon_mut_str : string)
    : result string :=
  aa_muts ← foldM (_codonToAAMuts_step geneseq)
                  (Str.split (Str.upper codon_mut_str)) ∅;
  Ok (Str.join (map snd (sorted_items aa_muts))).

(** A Python set of [(i_nt, mut_nt)] pairs, kept in insertion order.
    The order in which a set is iterated is unspecified; it only shows
    when two pairs carry the same offset. *)
Definition set_add (x : Z * string) (s : list (Z * string)) : list (Z * string) :=
  if bool_decide (x ∈ s) then s else s ++ [x].

(** [i_nt in mut_codons[icodon]]: the set holds pairs and [i_nt] is an
    integer, which equals none of them. *)
Definition int_in_pairs (i_nt : Z) (s : list (Z * string)) : bool :=
  existsb (fun _ => false) s.

Fixpoint set_char (s : string) (i : nat) (c : string) : string :=
  match s, i with
  | EmptyString, _ => EmptyString
  | String _ s', O => c +:+ s'
  | String a s', S i' => String a (set_char s' i' c)
  end.

(** [l[i] = c] on the list of the characters of a codon. *)
Definition assign_char (s : string) (i : Z) (c : string) : result string :=
  if ((0 <=? i)%Z && (i <? Z.of_nat (String.length s))%Z)
  then Ok (set_char s (Z.to_nat i) c)
  else Raise IndexError.

Definition _ntToCodonMuts_step (geneseq : string)
    (mut_codons : gmap Z (list (Z * string))) (mut : string)
    : result (gmap Z (list (Z * string))) :=
  match Str.match_mutation is_nt 1 mut with
  | None => Raise (ValueError "invalid mutation")
  | Some (wt_nt, i, mut_nt) =>
      if eqb_str wt_nt mut_nt then Raise (ValueError "invalid mutation")
      else if (Z.of_nat (String.length geneseq) <? i)%Z
      then Raise (ValueError "invalid nucleotide site")
      else
        ref ← Str.get geneseq (i - 1);
        if negb (eqb_str (String ref EmptyString) wt_nt)
        then Raise (ValueError "nucleotide should be")
        else
          let icodon := ((i - 1) / 3 + 1)%Z in
          let i_nt := ((i - 1) mod 3)%Z in
          codon ← codons geneseq icodon;
          c ← Str.get codon i_nt;
          _ ← py_assert (eqb_str (String c EmptyString) wt_nt);
          let r_muts := default [] (mut_codons !! icodon) in
          if int_in_pairs i_nt r_muts
          then Raise (ValueError "duplicate mutations")
          else Ok (<[icodon := set_add (i_nt, mut_nt) r_muts]> mut_codons)
  end.

Definition render_codon_mut (geneseq : string) (item : Z * list (Z * string))
    : result string :=
  let '(r, r_muts) := item in
  wt_codon ← codons geneseq r;
  mut_codon ← foldM (fun cod '(i, mut_nt) => assign_char cod i mut_nt)
                    r_muts wt_codon;
  Ok (wt_codon +:+ Str.of_int r +:+ mut_codon).

(** [_ntToCodonMuts(nt_mut_str)] *)
Definition _ntToCodonMuts (geneseq : string) (nt_mut_str : string)
    : result string :=
  mut_codons ← foldM (_ntToCodonMuts_step geneseq)
                     (Str.split (Str.upper nt_mut_str)) ∅;
  codon_mut_list ← mapM_result (render_codon_mut geneseq)
                               (sorted_items mut_codons);
  Ok (Str.join codon_mut_list).

(** *** Sets of codon mutations

    A codon mutation as the pattern reads it: wildtype codon, site and
    mutant codon. *)
Definition codon_mutation : Type := string * Z * string.

Definition site_of (m : codon_mutation) : Z := m.1.2.

(** The wildtype is the codon of the gene at the site and the mutant
    differs from it. *)
Definition valid_codon_mutation (geneseq : string) (m : codon_mutation) : Prop :=
  let '(wt, r, mut) := m in
  Str.slice geneseq (3 * (r - 1)) (3 * r) = wt /\ wt ≠ mut.

(** [s] is a valid set of codon mutations, [muts] in order: every token
    is a codon mutation, each is valid, and no two share a site. *)
Definition codon_mutation_set (geneseq s : string) (muts : list codon_mutation)
    : Prop :=
  Forall2 (fun tok m => Str.match_mutation is_nt 3 tok = Some m)
          (Str.split (Str.upper s)) muts
  /\ Forall (valid_codon_mutation geneseq) muts
  /\ NoDup (map site_of muts).

(** [a] is the text of the amino-acid mutation of [m], whose wildtype
    and mutant codon translate differently. *)
Definition aa_mutation (m : codon_mutation) (a : string) : Prop :=
  let '(wt, r, mut) := m in
  exists wt_aa mut_aa,
    CODON_TO_AA wt = Ok wt_aa /\ CODON_TO_AA mut = Ok mut_aa
    /\ wt_aa ≠ mut_aa /\ a = wt_aa +:+ Str.of_int r +:+ mut_aa.

(** *** Nucleotide mutations *)

Definition gene_length (geneseq : string) : Z := Z.of_nat (String.length geneseq).

(** A nucleotide mutation whose position is outside the gene or whose
    stated wildtype is not the nucleotide of the gene there. *)
Definition misplaced_nt_mutation (geneseq : string) (m : string * Z * string)
    : Prop :=
  let '(wt, i, mut) := m in
  (i < 1)%Z \/ (gene_length geneseq < i)%Z
  \/ exists c, Str.get geneseq (i - 1) = Ok c /\ String c EmptyString ≠ wt.

(** *** The table *)

(** A row of [barcode_variant_file] once the required columns are
    selected.  A missing [substitutions] cell is the empty string (the
    column goes through [fillna('')]).  [extra_cols] is left at its
    default, the empty list. *)
Record input_row : Type := {
  in_library : string;
  in_barcode : string;
  in_substitutions : string;
  in_variant_call_support : Z
}.

(** A row of [barcode_variant_df]. *)
Record variant : Type := {
  library : string;
  barcode : string;
  variant_call_support : Z;
  codon_substitutions : string;
  aa_substitutions : string;
  n_codon_substitutions : Z;
  n_aa_substitutions : Z
}.

(** A row of [variant_count_df]: the columns [sample] and [count] next to
    those of the variant. *)
Record count_row : Type := {
  sample : string;
  count : Z;
  var : variant
}.

#[global] Instance input_row_eq_dec : EqDecision input_row.
Proof. solve_decision. Defined.

#[global] Instance variant_eq_dec : EqDecision variant.
Proof. solve_decision. Defined.

#[global] Instance count_row_eq_dec : EqDecision count_row.
Proof. solve_decision. Defined.

(** The attributes of a [CodonVariantTable] that are not functions of
    [geneseq] alone ([sites], [codons] and [aas] are) or constants (the
    plot colours). *)
Record table : Type := {
  geneseq : string;
  libraries : list string;
  _valid_barcodes : gmap string (gset string);
  _samples : gmap string (list string);
  variant_count_df : option (frame count_row);
  barcode_variant_df : frame variant
}.

Definition set_samples (self : table) (s : gmap string (list string)) : table :=
  {| geneseq := geneseq self; libraries := libraries self;
     _valid_barcodes := _valid_barcodes self; _samples := s;
     variant_count_df := variant_count_df self;
     barcode_variant_df := barcode_variant_df self |}.

Definition set_variant_count_df (self : table) (df : frame count_row) : table :=
  {| geneseq := geneseq self; libraries := libraries self;
     _valid_barcodes := _valid_barcodes self; _samples := _samples self;
     variant_count_df := Some df;
     barcode_variant_df := barcode_variant_df self |}.

Definition in_list (x : string) (l : list string) : bool := bool_decide (x ∈ l).

(** [len(str.split())] *)
Definition n_tokens (s : string) : Z := Z.of_nat (length (Str.split s)).

(** Order of [sort_values(['library', 'barcode'])]. *)
Definition variant_leb (d : dtype) (a b : variant) : bool :=
  if col_eqb d (library a) (library b)
  then String.leb (barcode a) (barcode b)
  else col_leb d (library a) (library b).

(** The checks on one token of [codon_substitutions] at the end of
    [__init__]. *)
Definition check_codon_mutation (geneseq : string) (codonmut : string)
    : result unit :=
  match Str.match_mutation is_nt 3 codonmut with
  | None => Raise (ValueError "invalid mutation")
  | Some (wt, r, mut) =>
      if negb (in_sites geneseq r)
      then Raise (ValueError "invalid site in codon mutation")
      else
        codon ← codons geneseq r;
        if negb (eqb_str codon wt)
        then Raise NameError (* the message refers to an unbound [codons] *)
        else if eqb_str wt mut then Raise (ValueError "invalid mutation")
        else Ok tt
  end.

(** The loop of [__init__] over the libraries that fills
    [_valid_barcodes]. *)
Definition collect_barcodes (df : list input_row)
    (vb : gmap string (gset string)) (lib : string)
    : result (gmap string (gset string)) :=
  let barcodes :=
    map in_barcode (filter (fun x => in_library x = lib) df) in
  let s : gset string := list_to_set barcodes in
  if negb (size s =? length barcodes)%nat
  then Raise (ValueError "duplicated barcodes")
  else Ok (<[lib := s]> vb).

(** [CodonVariantTable.__init__], given the rows read from
    [barcode_variant_file]. *)
Definition init (df : list input_row) (geneseq0 : string)
    (substitutions_are_codon : bool) : result table :=
  let geneseq := Str.upper geneseq0 in
  if negb (match_geneseq geneseq)
  then Raise (ValueError "invalid nucleotides")
  else if negb (Z.of_nat (String.length geneseq0) mod 3 =? 0)%Z
          || (String.length geneseq0 =? 0)%nat
  then Raise (ValueError "`geneseq` of invalid length")
  else
    _ ← mapM_result (aas geneseq) (sites geneseq);
    let libraries := ssort String.leb (unique (map in_library df)) in
    valid ← foldM (collect_barcodes df) libraries ∅;
    let samples : gmap string (list string) :=
      list_to_map (map (fun lib => (lib, [])) libraries) in
    let codonSubsFunc :=
      if substitutions_are_codon then (fun x => Ok x)
      else _ntToCodonMuts geneseq in
    codon ← mapM_result (fun x => codonSubsFunc (in_substitutions x)) df;
    aa ← mapM_result (_codonToAAMuts geneseq) codon;
    let rows :=
      map (fun '(x, c, a) =>
             {| library := in_library x; barcode := in_barcode x;
                variant_call_support := in_variant_call_support x;
                codon_substitutions := c; aa_substitutions := a;
                n_codon_substitutions := n_tokens c;
                n_aa_substitutions := n_tokens a |})
          (combine (combine df codon) aa) in
    let dt := Categorical libraries in
    let sorted := ssort (variant_leb dt) rows in
    _ ← mapM_result (check_codon_mutation geneseq)
          (flat_map (fun v => Str.split (codon_substitutions v)) sorted);
    Ok {| geneseq := geneseq; libraries := libraries;
          _valid_barcodes := valid; _samples := samples;
          variant_count_df := None;
          barcode_variant_df := Frame sorted dt Object |}.

(** [samples(library)] *)
Definition samples (self : table) (library : string) : result (list string) :=
  match _samples self !! library with
  | Some l => Ok l
  | None => Raise (ValueError "invalid `library`")
  end.

(** [valid_barcodes(library)] *)
Definition valid_barcodes (self : table) (library : string)
    : result (gset string) :=
  if negb (in_list library (libraries self))
  then Raise (ValueError "invalid `library`")
  else match _valid_barcodes self !! library with
       | Some s => Ok s
       | None => Raise KeyError
       end.

(** The inner merge of the counts of one sample with
    [barcode_variant_df] on [library] and [barcode], validated as
    one-to-one: left rows in order, each with its matching variants. *)
Definition merge_counts (library sample : string)
    (barcodecounts : list (string * Z)) (variants : list variant)
    : result (list count_row) :=
  if negb (bool_decide (NoDup (map fst barcodecounts)))
     || negb (bool_decide
                (NoDup (map (fun v => (CodonVariantTable.library v, barcode v))
                            variants)))
  then Raise MergeError
  else Ok (flat_map
             (fun '(bc, n) =>
                map (fun v => {| sample := sample; count := n; var := v |})
                    (filter (fun v => CodonVariantTable.library v = library
                                      ∧ barcode v = bc)
                            variants))
             barcodecounts).

(** Order of [sort_values(['library', 'sample', 'count'],
    ascending=[True, True, False])]. *)
Definition count_leb (dl ds : dtype) (a b : count_row) : bool :=
  if negb (col_eqb dl (library (var a)) (library (var b)))
  then col_leb dl (library (var a)) (library (var b))
  else if negb (col_eqb ds (sample a) (sample b))
  then col_leb ds (sample a) (sample b)
  else (count b <=? count a)%Z.

(** [addSampleCounts(library, sample, barcodecounts)]: the table after
    the call and its outcome.  [barcodecounts] is given by its rows
    [(barcode, count)]. *)
Definition addSampleCounts (self : table) (library sample : string)
    (barcodecounts : list (string * Z)) : table * result unit :=
  if negb (in_list library (libraries self))
  then (self, Raise (ValueError "invalid library"))
  else
    match samples self library with
    | Raise e => (self, Raise e)
    | Ok present =>
    if in_list sample present
    then (self, Raise (ValueError "`library` already has `sample`"))
    else
      let barcodes := map fst barcodecounts in
      let given : gset string := list_to_set barcodes in
      if negb (length barcodecounts =? size given)%nat
      then (self, Raise (ValueError "`barcodecounts` has non-unique barcodes"))
      else
        match valid_barcodes self library with
        | Raise e => (self, Raise e)
        | Ok valid =>
        if negb (bool_decide (given = valid))
        then (self, Raise (ValueError "barcodes in `barcodecounts` do not match"))
        else
          let self1 :=
            set_samples self (<[library := present ++ [sample]]> (_samples self)) in
          match
            df ← merge_counts library sample barcodecounts
                              (rows (barcode_variant_df self1));
            per_library ← mapM_result (samples self1) (libraries self1);
            Ok (df, unique (concat per_library))
          with
          | Raise e => (self1, Raise e)
          | Ok (df, unique_samples) =>
              let all_rows :=
                match variant_count_df self1 with
                | None => df
                | Some old => rows old ++ df
                end in
              let dl := Categorical (libraries self1) in
              let ds := Categorical unique_samples in
              (set_variant_count_df self1
                 (Frame (ssort (count_leb dl ds) all_rows) dl ds),
               Ok tt)
          end
        end
    end.

(** Frames on which [addMergedLibraries] works: those with a [library]
    and a [barcode] column. *)
Class Row (R : Type) : Type := {
  row_library : R -> string;
  row_barcode : R -> string;
  (** [assign(barcode=..., library=...)] *)
  row_assign : R -> string -> string -> R
}.

#[global] Instance variant_row : Row variant := {
  row_library := library;
  row_barcode := barcode;
  row_assign v b l :=
    {| library := l; barcode := b;
       variant_call_support := variant_call_support v;
       codon_substitutions := codon_substitutions v;
       aa_substitutions := aa_substitutions v;
       n_codon_substitutions := n_codon_substitutions v;
       n_aa_substitutions := n_aa_substitutions v |}
}.

#[global] Instance count_row_row : Row count_row := {
  row_library r := library (var r);
  row_barcode r := barcode (var r);
  row_assign r b l :=
    {| sample := sample r; count := count r; var := row_assign (var r) b l |}
}.

(** [addMergedLibraries(df, all_lib=...)] *)
Definition addMergedLibraries {R : Type} `{Row R} (df : frame R)
    (all_lib : string) : result (frame R) :=
  let libs := unique (map row_library (rows df)) in
  if (length libs <=? 1)%nat then Ok df
  else if in_list all_lib libs
  then Raise (ValueError "library already exists")
  else
    Ok (Frame
          (rows df ++
           map (fun x => row_assign x (row_library x +:+ "-" +:+ row_barcode x)
                                    all_lib)
               (rows df))
          (Categorical (libs ++ [all_lib]))
          (sample_dtype df)).

(** The argument [samples]: [None], a string or a list. *)
Inductive samples_arg : Type :=
| SamplesNone
| SamplesStr (s : string)
| SamplesList (l : list string).

(** The argument [libraries]: a string or a list. *)
Inductive libraries_arg : Type :=
| LibrariesStr (s : string)
| LibrariesList (l : list string).

Definition has_duplicates (l : list string) : bool :=
  negb (length l =? size (list_to_set l : gset string))%nat.

Definition is_superset (l sub : list string) : bool :=
  forallb (fun x => in_list x l) sub.

(** [_getPlotData(libraries, samples, min_support)] *)
Definition _getPlotData (self : table) (libs : libraries_arg)
    (smps : samples_arg) (min_support : Z)
    : result (frame count_row * nat * nat) :=
  df ←
    match smps with
    | SamplesNone =>
        Ok (Frame
              (map (fun v => {| sample := "barcoded variants"; count := 1;
                                var := v |})
                   (rows (barcode_variant_df self)))
              (library_dtype (barcode_variant_df self))
              Object)
    | SamplesStr "all" =>
        match variant_count_df self with
        | None => Raise (ValueError "no samples have been added")
        | Some df => Ok df
        end
    | SamplesList l =>
        per_library ← mapM_result (samples self) (libraries self);
        if negb (is_superset (concat per_library) l)
        then Raise (ValueError "invalid sample(s)")
        else if has_duplicates l
        then Raise (ValueError "duplicate samples")
        else Raise UnboundLocalError (* [df] is read before it is bound *)
    | SamplesStr _ => Raise (ValueError "invalid `samples`")
    end;
  let df :=
    Frame (filter (fun r => (min_support ≤ variant_call_support (var r))%Z)
                  (rows df))
          (library_dtype df) (sample_dtype df) in
  if (length (rows df) =? 0)%nat then Raise (ValueError "no samples")
  else
    let nsamples := length (unique (map sample (rows df))) in
    df ←
      match libs with
      | LibrariesStr "all" => addMergedLibraries df "all libraries"
      | LibrariesStr "all_only" =>
          df' ← addMergedLibraries df "all libraries";
          Ok (Frame (filter (fun r => library (var r) = "all libraries")
                            (rows df'))
                    (library_dtype df') (sample_dtype df'))
      | LibrariesList l =>
          if negb (is_superset (libraries self) l)
          then Raise (ValueError "invalid library")
          else if has_duplicates l
          then Raise (ValueError "duplicate library")
          else Ok (Frame (filter (fun r => library (var r) ∈ l) (rows df))
                         (Categorical l) (sample_dtype df))
      | LibrariesStr _ => Raise (ValueError "invalid `libraries`")
      end;
    if (length (rows df) =? 0)%nat then Raise (ValueError "no libraries")
    else Ok (df, length (unique (map (fun r => library (var r)) (rows df))),
             nsamples).

(** A row of the frames of [mutCounts] before the derived columns are
    added: [library], [sample], [mutation], [count]. *)
Definition tidy_row : Type := string * string * string * Z.

(** [tidy_split(df, column='mutation')]: one row per piece of the
    [mutation] cell, split on single spaces. *)
Definition tidy_split (df : list tidy_row) : list tidy_row :=
  flat_map (fun '(l, s, m, n) => map (fun value => (l, s, value, n))
                                     (Str.split_on " " m))
           df.

(** [left.merge(right, how='outer')] of two frames with the same four
    columns, all of them keys: a left row is repeated for each right row
    equal to it and kept once when there is none, and the right rows with
    no equal on the left follow.  (pandas orders the result by key; the
    order is immaterial to the [groupby] applied next.) *)
Definition merge_outer (left right : list tidy_row) : list tidy_row :=
  flat_map (fun x => match filter (fun y => y = x) right with
                     | [] => [x]
                     | ys => map (fun _ => x) ys
                     end)
           left
  ++ filter (fun y => y ∉ left) right.

Definition key_of (x : tidy_row) : string * string * string :=
  let '(l, s, m, _) := x in (l, s, m).

Definition key_leb (a b : string * string * string) : bool :=
  let '(l1, s1, m1) := a in
  let '(l2, s2, m2) := b in
  if negb (eqb_str l1 l2) then String.leb l1 l2
  else if negb (eqb_str s1 s2) then String.leb s1 s2
  else String.leb m1 m2.

Definition sum_counts (k : string * string * string) (df : list tidy_row) : Z :=
  foldr (fun x acc => (x.2 + acc)%Z) 0%Z (filter (fun x => key_of x = k) df).

(** [groupby(['library', 'sample', 'mutation']).aggregate({'count':
    'sum'}).reset_index()]: one row per key, in key order. *)
Definition groupby_sum (df : list tidy_row) : list tidy_row :=
  map (fun k => (k, sum_counts k df)) (ssort key_leb (unique (map key_of df))).

(** A row of the result of [mutCounts]. *)
Record mut_row : Type := {
  m_library : string;
  m_sample : string;
  mutation : string;
  m_count : Z;
  mutation_type : string;
  site : Z
}.

#[global] Instance mut_row_eq_dec : EqDecision mut_row.
Proof. solve_decision. Defined.

Definition is_aa_char (c : ascii) : bool :=
  ((65 <=? Str.code c)%Z && (Str.code c <=? 90)%Z) || (Str.code c =? 42)%Z.

(** The pattern of a mutation at the given granularity. *)
Definition match_mut (mut_type : string) (mut_str : string)
    : option (string * Z * string) :=
  if eqb_str mut_type "aa" then Str.match_mutation is_aa_char 1 mut_str
  else Str.match_mutation is_nt 3 mut_str.

Definition _classify_mutation (mut_type : string) (mut_str : string)
    : result string :=
  match match_mut mut_type mut_str with
  | None => Raise AttributeError
  | Some (wt, _, mut) =>
      '(wt_aa, mut_aa) ←
        (if eqb_str mut_type "aa" then Ok (wt, mut)
         else a ← CODON_TO_AA wt; b ← CODON_TO_AA mut; Ok (a, b));
      if eqb_str wt_aa mut_aa then Ok "synonymous"
      else if eqb_str mut_aa "*" then Ok "stop"
      else Ok "nonsynonymous"
  end.

Definition _get_site (geneseq : string) (mut_type : string) (mut_str : string)
    : result Z :=
  match match_mut mut_type mut_str with
  | None => Raise AttributeError
  | Some (_, site, _) =>
      _ ← py_assert (bool_decide (site ∈ sites geneseq));
      Ok site
  end.

(** Order of [sort_values(['library', 'sample', 'count', 'mutation'],
    ascending=[True, True, False, True])]. *)
Definition mut_leb (dl ds : dtype) (a b : mut_row) : bool :=
  if negb (col_eqb dl (m_library a) (m_library b))
  then col_leb dl (m_library a) (m_library b)
  else if negb (col_eqb ds (m_sample a) (m_sample b))
  then col_leb ds (m_sample a) (m_sample b)
  else if negb (m_count a =? m_count b)%Z
  then (m_count b <=? m_count a)%Z
  else String.leb (mutation a) (mutation b).

(** The mutations listed with count 0: every other character at every
    site. *)
Definition mut_list (wts : list (Z * string)) (chars : list string)
    : list string :=
  '(r, wt) ← wts;
  mut ← chars;
  if bool_decide (mut ≠ wt) then [wt +:+ Str.of_int r +:+ mut] else [].

Definition all_muts (muts librarylist samplelist : list string)
    : list tidy_row :=
  library ← librarylist;
  sample ← samplelist;
  map (fun m => (library, sample, m, 0%Z)) muts.

(** [mutCounts(variant_type, mut_type, libraries=..., samples=...,
    min_support=...)] *)
Definition mutCounts (self : table) (variant_type mut_type : string)
    (libs : libraries_arg) (smps : samples_arg) (min_support : Z)
    : result (frame mut_row) :=
  '(df, _, _) ← _getPlotData self libs smps min_support;
  let samplelist := unique (map sample (rows df)) in
  let librarylist := unique (map (fun r => library (var r)) (rows df)) in
  '(wts, chars, n_subs, subs) ←
    (if eqb_str mut_type "codon" then
       wts ← mapM_result (fun r => c ← codons (geneseq self) r; Ok (r, c))
                         (sites (geneseq self));
       Ok (wts, CODONS, n_codon_substitutions, codon_substitutions)
     else if eqb_str mut_type "aa" then
       wts ← mapM_result (fun r => a ← aas (geneseq self) r; Ok (r, a))
                         (sites (geneseq self));
       Ok (wts, AAS_WITHSTOP, n_aa_substitutions, aa_substitutions)
     else Raise (ValueError "invalid mut_type"));
  let zeros := all_muts (mut_list wts chars) librarylist samplelist in
  selected ←
    (if eqb_str variant_type "single"
     then Ok (filter (fun r => n_subs (var r) = 1%Z) (rows df))
     else if eqb_str variant_type "all"
     then Ok (filter (fun r => (1 ≤ n_subs (var r))%Z) (rows df))
     else Raise (ValueError "invalid variant_type"));
  let tidy :=
    map (fun r => (library (var r), sample r, subs (var r), count r)) selected in
  let grouped := groupby_sum (merge_outer (tidy_split tidy) zeros) in
  types ← mapM_result (fun x => _classify_mutation mut_type (key_of x).2) grouped;
  sites ← mapM_result (fun x => _get_site (geneseq self) mut_type (key_of x).2)
                      grouped;
  let out :=
    map (fun '(l, s, m, n, t, r) =>
           {| m_library := l; m_sample := s; mutation := m; m_count := n;
              mutation_type := t; site := r |})
        (combine (combine grouped types) sites) in
  let dl := Categorical librarylist in
  let ds := Categorical samplelist in
  Ok (Frame (ssort (mut_leb dl ds) out) dl ds).

(** [from_variant_count_df(variant_count_df_file=..., geneseq=...,
    drop_all_libs=...)], given the rows of the CSV file. *)
Definition from_variant_count_df (csv : list count_row) (geneseq : string)
    (drop_all_libs : bool) : result table :=
  let df :=
    if drop_all_libs
       && in_list "all libraries" (unique (map (fun r => library (var r)) csv))
    then filter (fun r => library (var r) ≠ "all libraries") csv
    else csv in
  let variants :=
    unique (map (fun r =>
                   {| in_library := library (var r);
                      in_barcode := barcode (var r);
                      in_substitutions := codon_substitutions (var r);
                      in_variant_call_support := variant_call_support (var r) |})
                df) in
  cvt ← init variants geneseq true;
  foldM (fun cvt smp =>
           foldM (fun cvt lib =>
                    let idf := filter (fun r => sample r = smp
                                                ∧ library (var r) = lib) df in
                    if negb (length idf =? 0)%nat then
                      match addSampleCounts cvt lib smp
                              (map (fun r => (barcode (var r), count r)) idf) with
                      | (cvt', Ok _) => Ok cvt'
                      | (_, Raise e) => Raise e
                      end
                    else Ok cvt)
                 (libraries cvt) cvt)
        (unique (map sample df)) cvt.

(** [DataFrame.to_csv(f, index=False)] followed by [pandas.read_csv]:
    the rows, without the column types. *)
Definition to_csv {R : Type} (df : frame R) : list R := rows df.

(** [val != val2] for the attribute [variant_count_df], which is [None]
    or a frame; [self]'s is compared with [equals] when it is a frame. *)
Definition variant_count_df_differ (a b : option (frame count_row))
    : result bool :=
  match a, b with
  | Some x, Some y => Ok (negb (bool_decide (x = y)))
  | Some _, None => Ok true
  | None, None => Ok false
  | None, Some _ =>
      Raise (ValueError "The truth value of a DataFrame is ambiguous")
  end.

(** [__eq__(other)] for another [CodonVariantTable]: the attributes are
    compared in the order they were set. *)
Definition __eq__ (self other : table) : result bool :=
  if negb (bool_decide (geneseq self = geneseq other)) then Ok false
  else if negb (bool_decide (libraries self = libraries other)) then Ok false
  else if negb (bool_decide (_valid_barcodes self = _valid_barcodes other))
  then Ok false
  else if negb (bool_decide (_samples self = _samples other)) then Ok false
  else
    match variant_count_df_differ (variant_count_df self)
                                  (variant_count_df other) with
    | Raise e => Raise e
    | Ok true => Ok false
    | Ok false =>
        Ok (bool_decide (barcode_variant_df self = barcode_variant_df other))
    end.

(** The barcodes of [barcodecounts] are, without repetition, exactly
    the valid barcodes. *)
Definition exact_barcodes (barcodecounts : list (string * Z)) (valid : gset string)
    : Prop :=
  NoDup (map fst barcodecounts) /\ list_to_set (map fst barcodecounts) = valid.

(** *** Statements about [mutCounts] *)

(** The wildtype characters by site and the alphabet for a granularity. *)
Definition wildtype (geneseq mut_type : string) (r : Z) : result string :=
  if eqb_str mut_type "codon" then codons geneseq r else aas geneseq r.

Definition alphabet (mut_type : string) : list string :=
  if eqb_str mut_type "codon" then CODONS else AAS_WITHSTOP.

(** The rows of a result of [mutCounts] for a library, a sample and a
    mutation. *)
Definition rows_for (out : frame mut_row) (lib smp m : string) : list mut_row :=
  filter (fun x => m_library x = lib /\ m_sample x = smp /\ mutation x = m)
         (rows out).

(** The library, sample and mutation of a row of the result. *)
Definition row_key (x : mut_row) : string * string * string :=
  (m_library x, m_sample x, mutation x).

(** *** Example tables

    The table of the class docstring, and frames with a library named
    like the merged one. *)

Definition example_geneseq : string := "ATGGGATGA".

Definition example_rows : list input_row :=
  [ {| in_library := "lib_1"; in_barcode := "AAC"; in_substitutions := "";
       in_variant_call_support := 2 |};
    {| in_library := "lib_1"; in_barcode := "GAT"; in_substitutions := "G4C A6C";
       in_variant_call_support := 1 |};
    {| in_library := "lib_2"; in_barcode := "AAC"; in_substitutions := "T2A G4T";
       in_variant_call_support := 2 |};
    {| in_library := "lib_2"; in_barcode := "CAT"; in_substitutions := "A6C";
       in_variant_call_support := 3 |} ].

Definition example_variants : list variant :=
  [ {| library := "lib_1"; barcode := "AAC"; variant_call_support := 2;
       codon_substitutions := ""; aa_substitutions := "";
       n_codon_substitutions := 0; n_aa_substitutions := 0 |};
    {| library := "lib_1"; barcode := "GAT"; variant_call_support := 1;
       codon_substitutions := "GGA2CGC"; aa_substitutions := "G2R";
       n_codon_substitutions := 1; n_aa_substitutions := 1 |};
    {| library := "lib_2"; barcode := "AAC"; variant_call_support := 2;
       codon_substitutions := "ATG1AAG GGA2TGA"; aa_substitutions := "M1K G2*";
       n_codon_substitutions := 2; n_aa_substitutions := 2 |};
    {| library := "lib_2"; barcode := "CAT"; variant_call_support := 3;
       codon_substitutions := "GGA2GGC"; aa_substitutions := "";
       n_codon_substitutions := 1; n_aa_substitutions := 0 |} ].

Definition example_table : table :=
  {| geneseq := example_geneseq;
     libraries := ["lib_1"; "lib_2"];
     _valid_barcodes :=
       <["lib_1" := {["AAC"; "GAT"]}]> (<["lib_2" := {["AAC"; "CAT"]}]> ∅);
     _samples := <["lib_1" := []]> (<["lib_2" := []]> ∅);
     variant_count_df := None;
     barcode_variant_df :=
       Frame example_variants (Categorical ["lib_1"; "lib_2"]) Object |}.

Definition counts_lib1_input : list (string * Z) := [("AAC", 253%Z); ("GAT", 1101%Z)].

Definition example_table_1 : table :=
  (addSampleCounts example_table "lib_1" "input" counts_lib1_input).1.

Definition sentinel_variant (lib : string) : variant :=
  {| library := lib; barcode := "AAC"; variant_call_support := 2;
     codon_substitutions := ""; aa_substitutions := "";
     n_codon_substitutions := 0; n_aa_substitutions := 0 |}.

Definition sentinel_only : frame variant :=
  Frame [sentinel_variant "all libraries"] (Categorical ["all libraries"]) Object.

Definition sentinel_and_other : frame variant :=
  Frame [sentinel_variant "all libraries"; sentinel_variant "lib_1"]
        (Categorical ["all libraries"; "lib_1"]) Object.

(** A table with a library named like the merged one, and a small
    table with one library. *)
Definition sentinel_rows : list input_row :=
  [ {| in_library := "all libraries"; in_barcode := "AAC";
       in_substitutions := ""; in_variant_call_support := 2 |};
    {| in_library := "lib_1"; in_barcode := "AAC";
       in_substitutions := ""; in_variant_call_support := 2 |} ].

Definition sentinel_table : table :=
  {| geneseq := "ATG";
     libraries := ["all libraries"; "lib_1"];
     _valid_barcodes := <["all libraries" := {["AAC"]}]> (<["lib_1" := {["AAC"]}]> ∅);
     _samples := <["all libraries" := []]> (<["lib_1" := []]> ∅);
     variant_count_df := None;
     barcode_variant_df := Frame (rows sentinel_and_other)
                                 (Categorical ["all libraries"; "lib_1"]) Object |}.

Definition small_rows : list input_row :=
  [ {| in_library := "lib_1"; in_barcode := "AAC";
       in_substitutions := ""; in_variant_call_support := 2 |};
    {| in_library := "lib_1"; in_barcode := "GAT";
       in_substitutions := "G4C"; in_variant_call_support := 1 |} ].

Definition small_table : table :=
  {| geneseq := "ATGGGA";
     libraries := ["lib_1"];
     _valid_barcodes := <["lib_1" := {["AAC"; "GAT"]}]> ∅;
     _samples := <["lib_1" := []]> ∅;
     variant_count_df := None;
     barcode_variant_df :=
       Frame [ {| library := "lib_1"; barcode := "AAC"; variant_call_support := 2;
                  codon_substitutions := ""; aa_substitutions := "";
                  n_codon_substitutions := 0; n_aa_substitutions := 0 |};
               {| library := "lib_1"; barcode := "GAT"; variant_call_support := 1;
                  codon_substitutions := "GGA2CGA"; aa_substitutions := "G2R";
                  n_codon_substitutions := 1; n_aa_substitutions := 1 |} ]
             (Categorical ["lib_1"]) Object |}.

(** The row of [barcode_variant_df] made from a row of the file and its
    codon and amino-acid substitutions, and the row of the file a
    variant is written to by [from_variant_count_df]. *)
Definition variant_of (x : input_row) (c a : string) : variant :=
  {| library := in_library x; barcode := in_barcode x;
     variant_call_support := in_variant_call_support x;
     codon_substitutions := c; aa_substitutions := a;
     n_codon_substitutions := n_tokens c;
     n_aa_substitutions := n_tokens a |}.

Definition input_of (v : variant) : input_row :=
  {| in_library := library v; in_barcode := barcode v;
     in_substitutions := codon_substitutions v;
     in_variant_call_support := variant_call_support v |}.

(** [codonSubsFunc] of [__init__]. *)
Definition codonSubsFunc (geneseq : string) (substitutions_are_codon : bool)
    (x : string) : result string :=
  if substitutions_are_codon then Ok x else _ntToCodonMuts geneseq x.

(** *** The tables a program can hold

    A table is returned by the constructor, and then goes through calls
    of [addSampleCounts], whatever their outcomes. *)
Inductive built (geneseq0 : string) : table -> Prop :=
| built_init df substitutions_are_codon t :
    init df geneseq0 substitutions_are_codon = Ok t -> built geneseq0 t
| built_add t library sample barcodecounts :
    built geneseq0 t ->
    built geneseq0 (addSampleCounts t library sample barcodecounts).1.

(** The columns [library] and [barcode] of a variant, and the barcodes
    of the variants of a library. *)
Definition variant_key (v : variant) : string * string := (library v, barcode v).

Definition barcodes_of (variants : list variant) (lib : string) : list string :=
  map barcode (filter (fun v => library v = lib) variants).

(** The columns of [barcode_variant_df] that [__init__] computes from
    [codon_substitutions]. *)
Definition derived (geneseq : string) (v : variant) : Prop :=
  _codonToAAMuts geneseq (codon_substitutions v) = Ok (aa_substitutions v)
  /\ n_codon_substitutions v = n_tokens (codon_substitutions v)
  /\ n_aa_substitutions v = n_tokens (aa_substitutions v).

(** The samples recorded for a library (none for a name that is not a
    library), and [unique_samples] of [addSampleCounts]. *)
Definition samples_of (self : table) (lib : string) : list string :=
  default [] (_samples self !! lib).

Definition unique_samples (self : table) : list string :=
  unique (concat (map (samples_of self) (libraries self))).

(** The rows of a count frame for a library and a sample, and their
    barcodes. *)
Definition batch (df : list count_row) (lib smp : string) : list count_row :=
  filter (fun r => library (var r) = lib /\ sample r = smp) df.

Definition batch_barcodes (df : list count_row) (lib smp : string) : list string :=
  map (fun r => barcode (var r)) (batch df lib smp).

(** What holds of the count frame of a table. *)
Definition counts_ok (t : table) (f : frame count_row) : Prop :=
  library_dtype f = Categorical (libraries t)
  /\ sample_dtype f = Categorical (unique_samples t)
  /\ StronglySorted
       (fun a b => count_leb (Categorical (libraries t))
                             (Categorical (unique_samples t)) a b = true)
       (rows f)
  /\ (forall r, r ∈ rows f ->
        var r ∈ rows (barcode_variant_df t)
        /\ sample r ∈ samples_of t (library (var r)))
  /\ (forall lib smp, smp ∈ samples_of t lib ->
        NoDup (batch_barcodes (rows f) lib smp)
        /\ (list_to_set (batch_barcodes (rows f) lib smp) : gset string)
           = list_to_set (barcodes_of (rows (barcode_variant_df t)) lib)).

(** What holds of every table built from the gene sequence
    [geneseq0]. *)
Record wf (geneseq0 : string) (t : table) : Prop := {
  wf_geneseq : geneseq t = Str.upper geneseq0;
  wf_gene_nt : match_geneseq (Str.upper geneseq0) = true;
  wf_gene_len :
    (Z.of_nat (String.length geneseq0) mod 3 = 0)%Z
    /\ String.length geneseq0 ≠ 0%nat;
  wf_aas :
    exists u, mapM_result (aas (geneseq t)) (sites (geneseq t)) = Ok u;
  wf_libs_sorted :
    StronglySorted (fun a b => String.leb a b = true) (libraries t);
  wf_libs_nodup : NoDup (libraries t);
  wf_bv_dtypes :
    library_dtype (barcode_variant_df t) = Categorical (libraries t)
    /\ sample_dtype (barcode_variant_df t) = Object;
  wf_bv_sorted :
    StronglySorted
      (fun a b => variant_leb (Categorical (libraries t)) a b = true)
      (rows (barcode_variant_df t));
  wf_bv_keys : NoDup (map variant_key (rows (barcode_variant_df t)));
  wf_bv_libs :
    forall lib, lib ∈ libraries t
                ↔ exists v, v ∈ rows (barcode_variant_df t) /\ library v = lib;
  wf_bv_derived : Forall (derived (geneseq t)) (rows (barcode_variant_df t));
  wf_bv_checked :
    exists u,
      mapM_result (check_codon_mutation (geneseq t))
        (flat_map (fun v => Str.split (codon_substitutions v))
                  (rows (barcode_variant_df t)))
      = Ok u;
  wf_valid :
    forall lib,
      _valid_barcodes t !! lib
      = if decide (lib ∈ libraries t)
        then Some (list_to_set (barcodes_of (rows (barcode_variant_df t)) lib))
        else None;
  wf_samples_dom : forall lib, is_Some (_samples t !! lib) ↔ lib ∈ libraries t;
  wf_samples_nodup : forall lib, NoDup (samples_of t lib);
  wf_counts :
    match variant_count_df t with
    | None => forall lib, samples_of t lib = []
    | Some f => counts_ok t f
    end;
  wf_counted :
    is_Some (variant_count_df t) ->
    exists lib, lib ∈ libraries t /\ samples_of t lib ≠ []
}.

(** *** What [addSampleCounts] does to a table

    The arguments the method accepts, the rows it makes of them, and the
    table it leaves when it accepts them. *)
Definition accepts (t : table) (lib smp : string) (bc : list (string * Z))
    : Prop :=
  lib ∈ libraries t
  /\ (smp ∉ samples_of t lib)
  /\ NoDup (map fst bc)
  /\ (list_to_set (map fst bc) : gset string)
     = list_to_set (barcodes_of (rows (barcode_variant_df t)) lib).

#[global] Instance accepts_dec t lib smp bc : Decision (accepts t lib smp bc).
Proof. unfold accepts. apply _. Defined.

Definition new_rows (t : table) (lib smp : string) (bc : list (string * Z))
    : list count_row :=
  flat_map
    (fun '(b, n) =>
       map (fun v => {| sample := smp; count := n; var := v |})
           (filter (fun v => library v = lib /\ barcode v = b)
                   (rows (barcode_variant_df t))))
    bc.

Definition count_rows (t : table) : list count_row :=
  match variant_count_df t with
  | None => []
  | Some df => rows df
  end.

Definition added (t : table) (lib smp : string) (bc : list (string * Z))
    : table :=
  let self1 :=
    set_samples t (<[lib := samples_of t lib ++ [smp]]> (_samples t)) in
  let dl := Categorical (libraries t) in
  let ds := Categorical (unique_samples self1) in
  set_variant_count_df self1
    (Frame (ssort (count_leb dl ds) (count_rows t ++ new_rows t lib smp bc))
           dl ds).

(** *** Reading a table back from its counts

    The table [__init__] returns for the variants of a table [t], and
    the row it makes of a row whose substitutions are codon
    substitutions. *)
Definition without_counts (t : table) : table :=
  {| geneseq := geneseq t; libraries := libraries t;
     _valid_barcodes := _valid_barcodes t;
     _samples := list_to_map (map (fun lib => (lib, [])) (libraries t));
     variant_count_df := None;
     barcode_variant_df := barcode_variant_df t |}.

Definition aa_of (geneseq : string) (x : input_row) : string :=
  match _codonToAAMuts geneseq (in_substitutions x) with
  | Ok a => a
  | Raise _ => ""
  end.

Definition row_of (geneseq : string) (x : input_row) : variant :=
  variant_of x (in_substitutions x) (aa_of geneseq x).

(** The body of the two loops of [from_variant_count_df] over the rows
    [df] of the file. *)
Definition add_from_file (df : list count_row) (smp : string) (cvt : table)
    (lib : string) : result table :=
  let idf := filter (fun r => sample r = smp /\ library (var r) = lib) df in
  if negb (length idf =? 0)%nat then
    match addSampleCounts cvt lib smp
            (map (fun r => (barcode (var r), count r)) idf) with
    | (cvt', Ok _) => Ok cvt'
    | (_, Raise e) => Raise e
    end
  else Ok cvt.

(** A table with the variants of [t]. *)
Definition same_variants (t cvt : table) : Prop :=
  geneseq cvt = geneseq t /\ libraries cvt = libraries t
  /\ _valid_barcodes cvt = _valid_barcodes t
  /\ barcode_variant_df cvt = barcode_variant_df t.

(** A table with the variants of [t] and, for the samples [S] of each
    library, the counts of the frame [df]. *)
Definition loaded (geneseq0 : string) (t : table) (df : list count_row)
    (S : string -> list string) (cvt : table) : Prop :=
  wf geneseq0 cvt /\ same_variants t cvt
  /\ (forall lib, samples_of cvt lib = S lib)
  /\ (forall lib smp, smp ∈ S lib ->
        batch (count_rows cvt) lib smp = batch df lib smp).

(** The table of the class docstring with the counts of its two samples
    in both libraries, and the same table with the samples of the
    second library added in the other order. *)
Definition counts_lib1_selected : list (string * Z) :=
  [("AAC", 513%Z); ("GAT", 401%Z)].
Definition counts_lib2_input : list (string * Z) :=
  [("AAC", 1253%Z); ("CAT", 923%Z)].
Definition counts_lib2_selected : list (string * Z) :=
  [("AAC", 113%Z); ("CAT", 1200%Z)].

Definition example_table_2 : table :=
  (addSampleCounts example_table_1 "lib_1" "selected" counts_lib1_selected).1.

Definition example_counted : table :=
  (addSampleCounts
     (addSampleCounts example_table_2 "lib_2" "input" counts_lib2_input).1
     "lib_2" "selected" counts_lib2_selected).1.

Definition example_reordered : table :=
  (addSampleCounts
     (addSampleCounts example_table_2 "lib_2" "selected" counts_lib2_selected).1
     "lib_2" "input" counts_lib2_input).1.

(** The count frame of a table, empty when it has none. *)
Definition counts_frame (t : table) : frame count_row :=
  match variant_count_df t with
  | Some f => f
  | None => Frame [] Object Object
  end.

(** The exceptions [__init__] can end with. *)
Definition ValueError_or_KeyError (e : exn) : Prop :=
  (exists msg, e = ValueError msg) \/ e = KeyError.

(** What the loop of [_ntToCodonMuts] keeps of its dictionary: the keys
    are sites of the gene, the offsets lie in a codon and the mutant
    nucleotides are one character. *)
Definition offset_ok (p : Z * string) : Prop :=
  (0 ≤ p.1 < 3)%Z /\ String.length p.2 = 1%nat.

Definition offsets_ok (geneseq : string) (mc : gmap Z (list (Z * string)))
    : Prop :=
  forall r l, mc !! r = Some l -> in_sites geneseq r = true /\ Forall offset_ok l.

End CodonVariantTable.

(** * Properties *)

Lemma bind_Ok {A B : Type} (r : result A) (k : A -> result B) (b : B) :
  (r ≫= k) = Ok b -> exists a, r = Ok a /\ k a = Ok b.
Proof. destruct r as [a|e]; [eauto | discriminate]. Qed.

Lemma bind_ret {A B : Type} (a : A) (k : A -> result B) : (Ok a ≫= k) = k a.
Proof. reflexivity. Qed.

Ltac bind_inv H a Ha := apply bind_Ok in H; destruct H as (a & Ha & H).

(** ** Stable sorting *)

Section SortFacts.
Context {A : Type} (leb : A -> A -> bool).

Definition le_of : relation A := fun a b => leb a b = true.

Hypothesis leb_total : forall a b, leb a b = true \/ leb b a = true.
Hypothesis leb_trans : forall a b c, leb a b = true -> leb b c = true -> leb a c = true.

Lemma sinsert_perm x l : sinsert leb x l ≡ₚ x :: l.
Proof.
  induction l as [|y l IH]; simpl; [done|].
  destruct (leb x y); [done|].
  rewrite IH. apply Permutation_swap.
Qed.

Lemma ssort_perm l : ssort leb l ≡ₚ l.
Proof.
  induction l as [|x l IH]; simpl; [done|].
  by rewrite sinsert_perm, IH.
Qed.

Lemma sinsert_sorted x l :
  StronglySorted le_of l -> StronglySorted le_of (sinsert leb x l).
Proof.
  induction 1 as [|y l Hl IH Hy]; simpl.
  - repeat constructor.
  - destruct (leb x y) eqn:E.
    + constructor; [by constructor|].
      constructor; [exact E|].
      eapply Forall_impl; [exact Hy|]. intros z Hz. by eapply leb_trans.
    + constructor; [exact IH|].
      rewrite sinsert_perm. constructor; [|exact Hy].
      destruct (leb_total x y) as [H|H]; [congruence|exact H].
Qed.

Lemma ssort_sorted l : StronglySorted le_of (ssort leb l).
Proof.
  induction l; simpl; [constructor|by apply sinsert_sorted].
Qed.

Lemma ssort_of_sorted l : StronglySorted le_of l -> ssort leb l = l.
Proof.
  induction 1 as [|x l Hl IH Hx]; simpl; [done|].
  rewrite IH. destruct Hx as [|y l' Hy _]; simpl; [done|].
  unfold le_of in Hy. by rewrite Hy.
Qed.

End SortFacts.

Lemma last_cons {A} (l : list A) (a b : A) :
  List.last (b :: l) a = List.last l b.
Proof.
  revert a b. induction l as [|c l IH]; intros a b; [done|].
  change (List.last (b :: c :: l) a) with (List.last (c :: l) a).
  by rewrite (IH a c), (IH b c).
Qed.

Lemma last_elem_of {A} (l : list A) (a : A) : List.last l a ∈ a :: l.
Proof.
  revert a. induction l as [|b l IH]; intros a; [left|].
  rewrite last_cons. right. apply IH.
Qed.

Lemma StronglySorted_last {A} (R : relation A) (l : list A) (a x : A) :
  StronglySorted R (a :: l) -> x ∈ a :: l ->
  x = List.last l a \/ R x (List.last l a).
Proof.
  revert a x. induction l as [|b l IH]; intros a x Hs Hx.
  - apply list_elem_of_singleton in Hx. by left.
  - apply StronglySorted_inv in Hs as [Hs Ha].
    rewrite last_cons.
    apply elem_of_cons in Hx as [->|Hx]; [|by apply IH].
    right. rewrite Forall_forall in Ha. apply Ha, last_elem_of.
Qed.

(** ** The logistic fit *)

Section NeutCurveFacts.

Import NeutCurve.
Local Open Scope Q_scope.

Variable np_power : fnum -> fnum -> fnum.

(** The names given to the arguments of [func] are the roles they play
    in [evaluate]. *)
Lemma func_uses_parameters fixbottom fixtop self_bottom self_top params c v :
  func np_power fixbottom fixtop self_bottom self_top params c = Ok v ->
  let arg := func_argument fixbottom fixtop self_bottom self_top params in
  v = evaluate np_power c (arg Midpoint) (arg Slope) (arg Bottom) (arg Top).
Proof.
  unfold func.
  destruct fixtop, fixbottom;
    repeat (destruct params as [|? params]; try discriminate);
    intros [= <-]; reflexivity.
Qed.

Lemma initial_guess_fixed cs fs fixbottom fixtop m0 s0 b0 t0 :
  initial_guess cs fs fixbottom fixtop = Ok (m0, s0, b0, t0) ->
  (forall v, fixtop = Some v -> t0 = PyFloat v)
  /\ (forall v, fixbottom = Some v -> b0 = PyFloat v).
Proof.
  unfold initial_guess. intros H.
  bind_inv H f_first Hf. bind_inv H f_last Hl. cbv zeta in H.
  bind_inv H mid Hm. injection H as _ _ <- <-.
  split; intros v ->; reflexivity.
Qed.

(** What [__init__] leaves in the attributes, by case: the entries of
    the optimizer's array in the order of the tuple on the left of the
    unpacking, and the caller's values for the fixed parameters. *)
Lemma init_unpack curve_fit cs0 fs0 fixbottom fixtop st :
  init np_power curve_fit cs0 fs0 fixbottom fixtop = Ok st ->
  exists f guess popt,
    curve_fit f (cs st) (fs st) guess = Ok popt /\
    match fixtop, fixbottom with
    | None, None =>
        exists p2 p3, popt = [midpoint st; slope st; p2; p3]
                      /\ top st = NpFloat p2 /\ bottom st = NpFloat p3
    | None, Some b =>
        exists p2, popt = [midpoint st; slope st; p2]
                   /\ top st = NpFloat p2 /\ bottom st = PyFloat b
    | Some t, None =>
        exists p2, popt = [midpoint st; slope st; p2]
                   /\ top st = PyFloat t /\ bottom st = NpFloat p2
    | Some t, Some b =>
        popt = [midpoint st; slope st]
        /\ top st = PyFloat t /\ bottom st = PyFloat b
    end.
Proof.
  unfold init. intros H.
  bind_inv H sorted Hs. destruct sorted as [cs1 fs1].
  bind_inv H g Hg. destruct g as [[[m0 s0] b0] t0].
  bind_inv H popt Hp.
  destruct (initial_guess_fixed _ _ _ _ _ _ _ _ Hg) as [Ht Hb].
  unfold unpack in H.
  destruct fixtop as [t|], fixbottom as [b|];
    repeat (destruct popt as [|? popt]; try discriminate);
    injection H as <-; simpl;
    try rewrite (Ht _ eq_refl); try rewrite (Hb _ eq_refl);
    eauto 10.
Qed.

(** X6. When at least one of [top] and [bottom] is fixed, every fitted
    parameter holds the optimizer's value for it and every fixed one the
    caller's. *)
Lemma fit_attributes_with_a_fixed_asymptote
    curve_fit cs0 fs0 fixbottom fixtop st :
  init np_power curve_fit cs0 fs0 fixbottom fixtop = Ok st ->
  is_Some fixbottom \/ is_Some fixtop ->
  exists f guess popt,
    curve_fit f (cs st) (fs st) guess = Ok popt
    /\ (forall p, p ∈ func_parameters fixbottom fixtop ->
                  fitted fixbottom fixtop popt p = Some (attribute st p))
    /\ (forall v, fixtop = Some v -> top st = PyFloat v)
    /\ (forall v, fixbottom = Some v -> bottom st = PyFloat v).
Proof.
  intros H Hfix.
  destruct (init_unpack _ _ _ _ _ _ H) as (f & guess & popt & Hfit & Hu).
  exists f, guess, popt. split; [exact Hfit|].
  destruct fixtop as [t|], fixbottom as [b|].
  - destruct Hu as (-> & Ht & Hb). repeat split.
    + intros p Hp. unfold func_parameters in Hp.
      repeat (apply elem_of_cons in Hp as [->|Hp]; [reflexivity|]).
      inversion Hp.
    + intros v [= <-]. exact Ht.
    + intros v [= <-]. exact Hb.
  - destruct Hu as (p2 & -> & Ht & Hb). repeat split.
    + intros p Hp. unfold func_parameters in Hp.
      repeat (apply elem_of_cons in Hp as [->|Hp];
              [cbn; rewrite ?Hb; reflexivity|]).
      inversion Hp.
    + intros v [= <-]. exact Ht.
    + intros v [=].
  - destruct Hu as (p2 & -> & Ht & Hb). repeat split.
    + intros p Hp. unfold func_parameters in Hp.
      repeat (apply elem_of_cons in Hp as [->|Hp];
              [cbn; rewrite ?Ht; reflexivity|]).
      inversion Hp.
    + intros v [=].
    + intros v [= <-]. exact Hb.
  - destruct Hfix as [[? [=]]|[? [=]]].
Qed.

(** C4. With [fixtop=False, fixbottom=False] the optimizer's array is
    unpacked as [(midpoint, slope, top, bottom)] although [func] is
    [evaluate(c, m, s, b, t)]: the object's [top] holds the value fitted
    for the bottom of the curve and its [bottom] the value fitted for
    the top.  Here the optimizer answers midpoint 3, slope 2, bottom
    1/10 and top 9/10. *)
Theorem C4_free_top_and_bottom_are_exchanged :
  let popt := [3; 2; 1 # 10; 9 # 10] in
  exists st,
    init np_power (answering popt) example_cs example_fs None None = Ok st
    /\ fitted None None popt Top = Some (9 # 10)
    /\ attribute st Top = 1 # 10
    /\ fitted None None popt Bottom = Some (1 # 10)
    /\ attribute st Bottom = 9 # 10.
Proof.
  eexists. split; [vm_compute; reflexivity|].
  repeat split.
Qed.

Lemma Qle_bool_total a b : Qle_bool a b = true \/ Qle_bool b a = true.
Proof.
  rewrite !Qle_bool_iff. destruct (Qlt_le_dec a b) as [H|H]; [left|right]; lra.
Qed.

Lemma Qle_bool_trans a b c :
  Qle_bool a b = true -> Qle_bool b c = true -> Qle_bool a c = true.
Proof. rewrite !Qle_bool_iff. lra. Qed.

(** The concentrations of a fitted object are in ascending order: the
    first is the lowest and the last the highest. *)
Lemma sorted_concentrations cs0 fs0 cs1 fs1 :
  sort_by_concentration cs0 fs0 = Ok (cs1, fs1) ->
  length cs1 = length fs1
  /\ StronglySorted Qle cs1.
Proof.
  unfold sort_by_concentration. destruct (_ <? _)%nat; [discriminate|].
  intros [= <- <-]. split; [by rewrite !length_map|].
  set (leb := fun p q : Q * Q => Qle_bool p.1 q.1).
  assert (Hs : StronglySorted (le_of leb) (ssort leb (combine cs0 fs0))).
  { apply ssort_sorted; unfold leb; intros.
    - apply Qle_bool_total.
    - by eapply Qle_bool_trans. }
  induction Hs as [|p l Hl IH Hp]; simpl; constructor; [exact IH|].
  apply Forall_map. eapply Forall_impl; [exact Hp|].
  intros q Hq. by apply Qle_bool_iff.
Qed.

Lemma init_concentrations curve_fit cs0 fs0 fixbottom fixtop st :
  init np_power curve_fit cs0 fs0 fixbottom fixtop = Ok st ->
  exists lo hi,
    index (cs st) 0 = Ok lo /\ index_last (cs st) = Ok hi
    /\ forall c, c ∈ cs st -> lo <= c <= hi.
Proof.
  unfold init. intros H.
  bind_inv H sorted Hs. destruct sorted as [cs1 fs1].
  bind_inv H g Hg. destruct g as [[[m0 s0] b0] t0].
  bind_inv H popt Hp.
  assert (Hcs : cs st = cs1).
  { unfold unpack in H.
    destruct fixtop, fixbottom;
      repeat (destruct popt as [|? popt]; try discriminate);
      by injection H as <-. }
  rewrite Hcs. clear H Hp Hcs.
  apply sorted_concentrations in Hs as [Hlen Hsorted].
  unfold initial_guess in Hg. bind_inv Hg f_first Hf.
  destruct fs1 as [|f fs1]; [discriminate|].
  destruct cs1 as [|c0 cs1]; [discriminate|].
  exists c0, (List.last cs1 c0). repeat split; try done.
  - apply StronglySorted_inv in Hsorted as [_ Hc].
    apply elem_of_cons in H as [->|H]; [lra|].
    rewrite Forall_forall in Hc. by apply Hc.
  - destruct (StronglySorted_last _ _ _ _ Hsorted H) as [->|Hle]; [lra|done].
Qed.


Lemma truediv_numpy python a b :
  (python = true -> ~ b == 0) ->
  truediv python a b = Ok (np_div (Fin a) (Fin b)).
Proof.
  unfold truediv. destruct python; [|done]. intros H. simpl.
  destruct (Qeq_bool b 0) eqn:E; [|done].
  apply Qeq_bool_iff in E. by destruct H.
Qed.

(** [ic50] on an object with concentrations [c0 :: l], once the
    quotient is defined. *)
Lemma ic50_of_concentrations self extrapolate c0 l :
  cs self = c0 :: l ->
  (is_python (top self) && is_python (bottom self) = true ->
   ~ fval (bottom self) == 1 # 2) ->
  ic50 np_power self extrapolate
  = Ok (if never_reaches_half self
           || (negb extrapolate
               && negb (within c0 (List.last l c0) (ic50_value np_power self)))
        then None else Some (ic50_value np_power self)).
Proof.
  intros Hcs Hq. unfold ic50, never_reaches_half.
  destruct (_ || _ || _); [done|].
  rewrite truediv_numpy by (intros Hp E; apply (Hq Hp); lra).
  rewrite bind_ret. fold (ic50_value np_power self).
  generalize (ic50_value np_power self). intros v.
  rewrite Hcs. change (index (c0 :: l) 0) with (Ok c0).
  rewrite bind_ret. unfold within.
  destruct (np_le (Fin c0) v).
  - change (index_last (c0 :: l)) with (Ok (List.last l c0)).
    rewrite !bind_ret. by destruct (np_le v (Fin (List.last l c0))), extrapolate.
  - rewrite bind_ret. by destruct extrapolate.
Qed.

(** X7. [ic50] on every object but those whose [top] and [bottom] were both
    fixed, the latter at one half: [None] when the curve never reaches
    one half or, without extrapolation, when the closed form lies outside
    the range of the concentrations; the closed form otherwise. *)
Lemma ic50_when_the_quotient_is_defined self extrapolate lo hi :
  index (cs self) 0 = Ok lo -> index_last (cs self) = Ok hi ->
  (is_python (top self) && is_python (bottom self) = true ->
   ~ fval (bottom self) == 1 # 2) ->
  ic50 np_power self extrapolate
  = Ok (if never_reaches_half self
           || (negb extrapolate && negb (within lo hi (ic50_value np_power self)))
        then None else Some (ic50_value np_power self)).
Proof.
  intros Hlo Hhi Hq.
  destruct (cs self) as [|c0 l] eqn:Ecs; [discriminate Hlo|].
  rewrite (ic50_of_concentrations self extrapolate c0 l Ecs Hq).
  change (index (c0 :: l) 0) with (Ok c0) in Hlo.
  change (index_last (c0 :: l)) with (Ok (List.last l c0)) in Hhi.
  injection Hlo as <-. injection Hhi as <-. done.
Qed.

(** C5. A curve fitted with the default [fixtop=1] and with
    [fixbottom=0.5] never reaches one half, yet [ic50] does not return
    [None] for it: [top] and [bottom] lie on different sides of the test
    [x > 0.5], and the quotient [(top - 0.5) / (0.5 - bottom)] of two
    Python floats raises. *)
Theorem C5_ic50_raises_when_bottom_is_fixed_at_one_half :
  exists st,
    init np_power (answering [2; 1]) example_cs example_fs (Some (1 # 2)) (Some 1)
    = Ok st
    /\ forall extrapolate, ic50 np_power st extrapolate = Raise ZeroDivisionError.
Proof.
  eexists. split; [vm_compute; reflexivity|].
  intros extrapolate. reflexivity.
Qed.


End NeutCurveFacts.

Section NeutCurveExamples.

Import NeutCurve.
Local Open Scope Q_scope.


End NeutCurveExamples.

(** ** More on the logistic fit *)

Section NeutCurveMore.

Import NeutCurve.
Local Open Scope Q_scope.

Variable np_power : fnum -> fnum -> fnum.

Lemma combine_fst_snd {A B} (l : list (A * B)) :
  combine (map fst l) (map snd l) = l.
Proof. induction l as [|[a b] l IH]; simpl; [done|by rewrite IH]. Qed.

Lemma init_data curve_fit cs0 fs0 fixbottom fixtop st :
  init np_power curve_fit cs0 fs0 fixbottom fixtop = Ok st ->
  exists guess f g popt,
    sort_by_concentration cs0 fs0 = Ok (cs st, fs st)
    /\ initial_guess (cs st) (fs st) fixbottom fixtop = Ok guess
    /\ curve_fit f (cs st) (fs st) (guess.1.1.1 :: guess.1.1.2 :: g) = Ok popt.
Proof.
  unfold init. intros H.
  bind_inv H sorted Hs. destruct sorted as [cs1 fs1].
  bind_inv H g Hg. destruct g as [[[m0 s0] b0] t0].
  bind_inv H popt Hp.
  assert (Hcs : cs st = cs1 /\ fs st = fs1).
  { unfold unpack in H.
    destruct fixtop, fixbottom;
      repeat (destruct popt as [|? popt]; try discriminate);
      by injection H as <-. }
  destruct Hcs as [-> ->].
  exists (m0, s0, b0, t0). simpl.
  destruct fixtop, fixbottom; eauto 10.
Qed.

(** X1. After [__init__] the concentrations are in ascending order and
    each fraction surviving has stayed with its concentration: the
    pairs [(cs[i], fs[i])] of the object are a rearrangement of the
    pairs of the arguments. *)
Theorem init_orders_the_data_by_concentration
    curve_fit cs0 fs0 fixbottom fixtop st :
  init np_power curve_fit cs0 fs0 fixbottom fixtop = Ok st ->
  StronglySorted Qle (cs st)
  /\ length (fs st) = length (cs st)
  /\ combine (cs st) (fs st) ≡ₚ combine cs0 fs0.
Proof.
  intros H. destruct (init_data _ _ _ _ _ _ H) as (g & f & g' & popt & Hs & _).
  destruct (sorted_concentrations _ _ _ _ Hs) as [Hlen Hsorted].
  repeat split; [exact Hsorted|done|].
  unfold sort_by_concentration in Hs.
  destruct (_ <? _)%nat; [discriminate|]. injection Hs as <- <-.
  rewrite combine_fst_snd. apply ssort_perm.
Qed.

Lemma first_true_spec l :
  existsb id l = true -> nth_error l (first_true l) = Some true.
Proof.
  induction l as [|[] l IH]; simpl; [discriminate|done|].
  intros H. rewrite H. simpl. by apply IH.
Qed.

Lemma changes_nth b i c :
  nth_error (changes b) i = Some c ->
  exists x y, nth_error b i = Some x /\ nth_error b (S i) = Some y
              /\ c = xorb x y.
Proof.
  revert i. induction b as [|x b IH]; intros i; [by destruct i|].
  destruct b as [|y b]; [by destruct i|].
  destruct i as [|i].
  - simpl. intros [= <-]. eauto.
  - change (changes (x :: y :: b)) with (xorb x y :: changes (y :: b)).
    simpl nth_error at 1. intros H.
    destruct (IH _ H) as (x' & y' & H1 & H2 & ->).
    exists x', y'. repeat split; assumption.
Qed.

Lemma changes_exist b :
  forallb id b = false -> forallb negb b = false ->
  existsb id (changes b) = true.
Proof.
  induction b as [|x b IH]; [discriminate|].
  destruct b as [|y b]; [by destruct x|].
  change (changes (x :: y :: b)) with (xorb x y :: changes (y :: b)).
  intros H1 H2. simpl existsb.
  destruct x, y; simpl; try done.
  - apply IH; [exact H1|done].
  - apply IH; [done|exact H2].
Qed.

Lemma argmax_first_true l : existsb id l = true -> argmax l = Ok (first_true l).
Proof. by destruct l. Qed.

Lemma index_Ok {A} (l : list A) i a : index l i = Ok a -> nth_error l i = Some a.
Proof. unfold index. by destruct (nth_error l i); intros [= <-]. Qed.

Lemma index_nth {A} (l : list A) i a : nth_error l i = Some a -> index l i = Ok a.
Proof. unfold index. by intros ->. Qed.

Lemma index_lt {A} (l : list A) i :
  (i < length l)%nat -> exists a, index l i = Ok a.
Proof.
  intros H. unfold index. destruct (nth_error l i) eqn:E; [eauto|].
  apply nth_error_None in E. lia.
Qed.

Lemma nth_error_elem_of {A} (l : list A) i a : nth_error l i = Some a -> a ∈ l.
Proof. intros H. apply list_elem_of_In. by eapply nth_error_In. Qed.


(** The initial guess for the midpoint is one of the concentrations or
    the mean of two of them, and the one for the slope is 1.5 or -1.5. *)
Lemma initial_guess_in_range cs fs fixbottom fixtop m0 s0 b0 t0 lo hi :
  initial_guess cs fs fixbottom fixtop = Ok (m0, s0, b0, t0) ->
  (forall c, c ∈ cs -> lo <= c <= hi) ->
  lo <= m0 <= hi /\ (s0 = 3 # 2 \/ s0 = - (3 # 2)).
Proof.
  unfold initial_guess. intros H Hr.
  bind_inv H f_first Hf. bind_inv H f_last Hl. cbv zeta in H.
  bind_inv H mid Hm. injection H as <- <- _ _.
  split; [|destruct (Qle_bool f_last f_first); auto].
  destruct (forallb id _).
  { bind_inv Hm c_first H1. bind_inv Hm c_last H2.
    apply index_Ok, nth_error_elem_of in H1.
    destruct cs as [|c cs]; [discriminate|]. injection H2 as <-.
    injection Hm as <-.
    destruct (Qltb _ _); apply Hr; [apply last_elem_of|exact H1]. }
  destruct (forallb negb _).
  { bind_inv Hm c_first H1. bind_inv Hm c_last H2.
    apply index_Ok, nth_error_elem_of in H1.
    destruct cs as [|c cs]; [discriminate|]. injection H2 as <-.
    injection Hm as <-.
    destruct (Qltb _ _); apply Hr; [exact H1|apply last_elem_of]. }
  bind_inv Hm i Hi. bind_inv Hm a Ha. bind_inv Hm b Hb. bind_inv Hm u Hu.
  bind_inv Hm ci Hci. bind_inv Hm cj Hcj. injection Hm as <-.
  apply index_Ok, nth_error_elem_of in Hci, Hcj.
  apply Hr in Hci, Hcj.
  split; [apply Qle_shift_div_l|apply Qle_shift_div_r]; lra.
Qed.

(** X3. The optimizer starts from a midpoint between the lowest and the
    highest concentration, and from a slope of 1.5 or -1.5. *)
Theorem initial_midpoint_lies_within_the_concentrations
    curve_fit cs0 fs0 fixbottom fixtop st :
  init np_power curve_fit cs0 fs0 fixbottom fixtop = Ok st ->
  exists lo hi f m0 s0 rest popt,
    index (cs st) 0 = Ok lo /\ index_last (cs st) = Ok hi
    /\ curve_fit f (cs st) (fs st) (m0 :: s0 :: rest) = Ok popt
    /\ lo <= m0 <= hi
    /\ (s0 = 3 # 2 \/ s0 = - (3 # 2)).
Proof.
  intros H.
  destruct (init_concentrations _ _ _ _ _ _ _ H) as (lo & hi & Hlo & Hhi & Hr).
  destruct (init_data _ _ _ _ _ _ H) as (g & f & rest & popt & _ & Hg & Hfit).
  destruct g as [[[m0 s0] b0] t0].
  destruct (initial_guess_in_range _ _ _ _ _ _ _ _ _ _ Hg Hr) as [Hm Hs].
  exists lo, hi, f, m0, s0, rest, popt. auto.
Qed.

(** X4. [__init__] raises [IndexError] when there is no concentration,
    and when there are fewer fractions than concentrations. *)
Theorem init_without_data_raises_IndexError curve_fit cs0 fs0 fixbottom fixtop :
  cs0 = [] \/ (length fs0 < length cs0)%nat ->
  init np_power curve_fit cs0 fs0 fixbottom fixtop = Raise IndexError.
Proof.
  intros [->|H]; unfold init, sort_by_concentration.
  - reflexivity.
  - apply Nat.ltb_lt in H. by rewrite H.
Qed.

(** X5. With [top = 1] and [bottom = 0] the extrapolated IC50 is the
    midpoint (the docstring of [ic50]), for a slope other than 0 and
    provided one raised to any power is one. *)
Theorem ic50_is_the_midpoint_for_top_one_and_bottom_zero self :
  cs self <> [] ->
  fval (top self) == 1 -> fval (bottom self) == 0 -> ~ slope self == 0 ->
  (forall q e, q == 1 -> exists q', np_power (Fin q) e = Fin q' /\ q' == 1) ->
  exists v, ic50 np_power self true = Ok (Some (Fin v)) /\ v == midpoint self.
Proof.
  intros Hcs Ht Hb Hs Hpow.
  destruct (cs self) as [|c0 l] eqn:Ecs; [done|].
  rewrite (ic50_of_concentrations np_power self true c0 l Ecs) by (intros _; lra).
  assert (E1 : Qeq_bool (slope self) 0 = false).
  { apply not_true_is_false. intros E. by apply Qeq_bool_iff in E. }
  assert (E2 : Qeq_bool (fval (top self)) (fval (bottom self)) = false).
  { apply not_true_is_false. intros E. apply Qeq_bool_iff in E. lra. }
  assert (E3 : Qltb (1 # 2) (fval (top self)) = true).
  { unfold Qltb. apply negb_true_iff, not_true_is_false. intros E.
    apply Qle_bool_iff in E. lra. }
  assert (E4 : Qltb (1 # 2) (fval (bottom self)) = false).
  { unfold Qltb. apply negb_false_iff, Qle_bool_iff. lra. }
  unfold never_reaches_half. rewrite E1, E2, E3, E4. simpl.
  unfold ic50_value, np_div at 1.
  destruct (Qeq_bool ((1 # 2) - fval (bottom self)) 0) eqn:E.
  { apply Qeq_bool_iff in E. lra. }
  destruct (Hpow ((fval (top self) - (1 # 2)) / ((1 # 2) - fval (bottom self)))
                 (np_div (Fin 1) (Fin (slope self)))) as (q' & -> & Hq').
  { rewrite Ht, Hb. reflexivity. }
  exists (midpoint self * q'). split; [reflexivity|rewrite Hq'; ring].
Qed.

End NeutCurveMore.

Section NeutCurveMoreExamples.

Import NeutCurve.
Local Open Scope Q_scope.

Lemma init_orders_the_data_by_concentration_witness :
  init power_of_one (answering [3; 1; 1 # 10]) [4; 1; 8; 2]
       [3 # 10; 9 # 10; 1 # 10; 7 # 10] None (Some 1)
  = Ok example_fit
  /\ StronglySorted Qle (cs example_fit)
  /\ length (fs example_fit) = length (cs example_fit)
  /\ combine (cs example_fit) (fs example_fit)
     ≡ₚ combine [4; 1; 8; 2] [3 # 10; 9 # 10; 1 # 10; 7 # 10].
Proof.
  split; [vm_compute; reflexivity|].
  apply (init_orders_the_data_by_concentration power_of_one
           (answering [3; 1; 1 # 10]) [4; 1; 8; 2]
           [3 # 10; 9 # 10; 1 # 10; 7 # 10] None (Some 1) example_fit).
  vm_compute. reflexivity.
Defined.


Lemma initial_midpoint_witness :
  exists lo hi f m0 s0 rest popt,
    index (cs example_fit) 0 = Ok lo /\ index_last (cs example_fit) = Ok hi
    /\ answering [3; 1; 1 # 10] f (cs example_fit) (fs example_fit)
         (m0 :: s0 :: rest) = Ok popt
    /\ lo <= m0 <= hi
    /\ (s0 = 3 # 2 \/ s0 = - (3 # 2)).
Proof.
  apply (initial_midpoint_lies_within_the_concentrations power_of_one
           (answering [3; 1; 1 # 10]) example_cs example_fs
           None (Some 1) example_fit).
  vm_compute. reflexivity.
Defined.

Lemma init_without_data_witness :
  init power_of_one (answering [3; 1]) [] [1 # 2] None (Some 1)
  = Raise IndexError.
Proof.
  apply (init_without_data_raises_IndexError power_of_one (answering [3; 1])
           [] [1 # 2] None (Some 1)).
  left. reflexivity.
Defined.

Lemma ic50_is_the_midpoint_witness :
  exists v, ic50 power_of_one midpoint_fit true = Ok (Some (Fin v))
            /\ v == midpoint midpoint_fit.
Proof.
  apply (ic50_is_the_midpoint_for_top_one_and_bottom_zero power_of_one midpoint_fit).
  - discriminate.
  - reflexivity.
  - reflexivity.
  - discriminate.
  - intros q e Hq. exists q. split; [reflexivity|exact Hq].
Defined.

Lemma fit_attributes_with_a_fixed_asymptote_witness :
  init power_of_one (answering [3; 1; 1 # 10]) example_cs example_fs
       None (Some 1) = Ok example_fit
  /\ exists f guess popt,
       answering [3; 1; 1 # 10] f (cs example_fit) (fs example_fit) guess
       = Ok popt
       /\ (forall p, p ∈ func_parameters None (Some 1) ->
                     fitted None (Some 1) popt p = Some (attribute example_fit p))
       /\ (forall v, Some 1 = Some v -> top example_fit = PyFloat v)
       /\ (forall v, None = Some v -> bottom example_fit = PyFloat v).
Proof.
  split; [vm_compute; reflexivity|].
  apply (fit_attributes_with_a_fixed_asymptote power_of_one
           (answering [3; 1; 1 # 10]) example_cs example_fs
           None (Some 1) example_fit).
  - vm_compute. reflexivity.
  - right. exists 1. reflexivity.
Defined.

Lemma ic50_when_the_quotient_is_defined_witness :
  ic50 power_of_one example_fit false
  = Ok (if never_reaches_half example_fit
           || (negb false && negb (within 1 8 (ic50_value power_of_one example_fit)))
        then None else Some (ic50_value power_of_one example_fit)).
Proof.
  apply (ic50_when_the_quotient_is_defined power_of_one example_fit false 1 8).
  - reflexivity.
  - reflexivity.
  - intros H. discriminate H.
Defined.

End NeutCurveMoreExamples.

(** ** Strings *)

Section StrFacts.
Import Str.

Lemma length_take n s : String.length (take n s) = Nat.min n (String.length s).
Proof.
  revert s. induction n as [|n IH]; intros [|c s]; simpl; try done.
  by rewrite IH.
Qed.

Lemma length_drop n s : String.length (drop n s) = (String.length s - n)%nat.
Proof.
  revert s. induction n as [|n IH]; intros [|c s]; simpl; done.
Qed.

Lemma length_slice s a b :
  Z.of_nat (String.length (slice s a b))
  = let len := Z.of_nat (String.length s) in
    Z.max 0 (clip len b - clip len a)%Z.
Proof.
  unfold slice. rewrite length_take, length_drop. cbv zeta.
  unfold clip. lia.
Qed.

Lemma all_app p s t : all p (s +:+ t) = all p s && all p t.
Proof. induction s as [|c s IH]; simpl; [done|]. by rewrite IH, andb_assoc. Qed.

Lemma append_cons c s t : String c s +:+ t = String c (s +:+ t).
Proof. reflexivity. Qed.

Lemma append_nil t : EmptyString +:+ t = t.
Proof. reflexivity. Qed.

Lemma split_cons c s :
  split (String c s)
  = if is_space c then split s
    else if starts_with_space s then String c EmptyString :: split s
    else match split s with
         | t :: ts => String c t :: ts
         | [] => [String c EmptyString]
         end.
Proof. reflexivity. Qed.

Lemma is_token_cons c t :
  is_token (String c t) ->
  is_space c = false /\ (t = EmptyString \/ is_token t).
Proof.
  intros [_ Hall]. simpl in Hall. apply andb_true_iff in Hall as [Hc Ht].
  apply negb_true_iff in Hc. split; [done|].
  destruct t; [by left|by right].
Qed.

Lemma starts_with_token t s : is_token t -> starts_with_space (t +:+ s) = false.
Proof.
  destruct t as [|d t]; intros [Hne Hall]; [done|].
  apply (is_token_cons d t). by split.
Qed.

Lemma split_token_then_space t rest :
  is_token t -> split (t +:+ String " " rest) = t :: split rest.
Proof.
  induction t as [|c t IH]; intros Ht; [by destruct Ht|].
  apply is_token_cons in Ht as [Hc [->|Ht]].
  - rewrite append_cons, append_nil, split_cons, Hc. reflexivity.
  - rewrite append_cons, split_cons, Hc, starts_with_token, IH by done.
    reflexivity.
Qed.

Lemma split_token t : is_token t -> split t = [t].
Proof.
  induction t as [|c t IH]; intros Ht; [by destruct Ht|].
  apply is_token_cons in Ht as [Hc [->|Ht]].
  - rewrite split_cons, Hc. reflexivity.
  - rewrite split_cons, Hc, IH by done.
    destruct t as [|d t]; [by destruct Ht|].
    apply is_token_cons in Ht as [Hd _]. simpl. by rewrite Hd.
Qed.

Lemma split_join toks : Forall is_token toks -> split (join toks) = toks.
Proof.
  induction 1 as [|t toks Ht Hts IH]; [done|].
  destruct toks as [|t2 toks].
  - simpl. by apply split_token.
  - change (join (t :: t2 :: toks)) with (t +:+ String " " (join (t2 :: toks))).
    rewrite split_token_then_space by done. by rewrite IH.
Qed.

Lemma is_space_upper c : is_space (upper_char c) = is_space c.
Proof.
  unfold upper_char. destruct (_ && _) eqn:E; [|done].
  destruct c as [[] [] [] [] [] [] [] []]; try discriminate E; reflexivity.
Qed.

Lemma split_upper s : split (upper s) = map upper (split s).
Proof.
  induction s as [|c s IH]; [done|].
  simpl. rewrite is_space_upper. destruct (is_space c); [done|].
  assert (Hs : starts_with_space (upper s) = starts_with_space s).
  { destruct s; simpl; [done|apply is_space_upper]. }
  rewrite Hs, IH. destruct (starts_with_space s); [done|].
  by destruct (split s).
Qed.

Lemma int_acc_nonneg acc s : (0 ≤ acc)%Z -> all is_digit s = true -> (0 ≤ int_acc acc s)%Z.
Proof.
  revert acc. induction s as [|c s IH]; intros acc Hacc Hall; [done|].
  simpl in *. apply andb_true_iff in Hall as [Hc Hs].
  apply IH; [|done]. unfold digit_value, is_digit in *. lia.
Qed.

Lemma span_all p s a b : span p s = (a, b) -> all p a = true.
Proof.
  revert a b. induction s as [|c s IH]; intros a b; simpl.
  - by intros [= <- <-].
  - destruct (p c) eqn:Hc.
    + destruct (span p s) as [a' b']. intros [= <- <-]. simpl.
      rewrite Hc. by eapply IH.
    + by intros [= <- <-].
Qed.

(** What a match of the mutation pattern gives: two words of [n]
    characters of the class and a non-negative number. *)
Lemma match_mutation_Some p n tok wt r mut :
  match_mutation p n tok = Some (wt, r, mut) ->
  String.length wt = n /\ all p wt = true
  /\ String.length mut = n /\ all p mut = true /\ (0 ≤ r)%Z.
Proof.
  unfold match_mutation.
  destruct (span is_digit (drop n tok)) as [digits rest] eqn:Hspan.
  destruct (_ && _) eqn:E; [|discriminate].
  intros [= <- <- <-].
  repeat (apply andb_true_iff in E as [E ?]).
  repeat split; try done; try by apply Nat.eqb_eq.
  apply int_acc_nonneg; [done|]. by eapply span_all.
Qed.

End StrFacts.

(** ** The genetic code *)

Section GeneticFacts.

Import Genetic.

Lemma is_nt_cases c :
  is_nt c = true -> c = "A"%char \/ c = "C"%char \/ c = "G"%char \/ c = "T"%char.
Proof.
  destruct c as [[] [] [] [] [] [] [] []]; try discriminate; intros _; tauto.
Qed.

(** Every word of three nucleotides has a translation, one character
    that is not a space. *)
Lemma CODON_TO_AA_total codon :
  String.length codon = 3%nat -> Str.all is_nt codon = true ->
  exists aa, CODON_TO_AA codon = Ok (String aa EmptyString)
             /\ Str.is_space aa = false.
Proof.
  destruct codon as [|a [|b [|c [|d rest]]]]; try discriminate. intros _ H.
  simpl in H. rewrite andb_true_r in H.
  apply andb_true_iff in H as [Ha H]. apply andb_true_iff in H as [Hb Hc].
  destruct (is_nt_cases a Ha) as [-> | [-> | [-> | ->]]];
    destruct (is_nt_cases b Hb) as [-> | [-> | [-> | ->]]];
    destruct (is_nt_cases c Hc) as [-> | [-> | [-> | ->]]];
    eexists; split; reflexivity.
Qed.

End GeneticFacts.

(** ** Mutation strings *)

Section MutationFacts.

Import Str Genetic CodonVariantTable.

Lemma eqb_str_true a b : eqb_str a b = true ↔ a = b.
Proof. unfold eqb_str. by rewrite bool_decide_eq_true. Qed.

Lemma eqb_str_refl a : eqb_str a a = true.
Proof. by apply eqb_str_true. Qed.

Lemma eqb_str_false a b : eqb_str a b = false ↔ a ≠ b.
Proof. unfold eqb_str. by rewrite bool_decide_eq_false. Qed.

(** A slice of three characters at the place of codon [r >= 0] exists
    only for the sites of the gene. *)
Lemma slice_codon_in_sites geneseq r :
  (0 ≤ r)%Z ->
  String.length (Str.slice geneseq (3 * (r - 1)) (3 * r)) = 3%nat ->
  in_sites geneseq r = true.
Proof.
  intros Hr Hlen. apply (f_equal Z.of_nat) in Hlen.
  rewrite length_slice in Hlen. cbv zeta in Hlen.
  unfold in_sites, nsites. unfold Str.clip in Hlen.
  apply andb_true_iff. split; [apply Z.leb_le | apply Z.leb_le].
  - destruct (Z.ltb_spec (3 * (r - 1)) 0), (Z.ltb_spec (3 * r) 0); lia.
  - apply Z.div_le_lower_bound; [lia|].
    destruct (Z.ltb_spec (3 * (r - 1)) 0), (Z.ltb_spec (3 * r) 0); lia.
Qed.

(** One step of the loop of [_codonToAAMuts] on a valid mutation at a
    site not seen before. *)
Lemma codonToAAMuts_step_valid geneseq aa_muts tok wt r mut :
  Str.match_mutation is_nt 3 tok = Some (wt, r, mut) ->
  valid_codon_mutation geneseq (wt, r, mut) ->
  aa_muts !! r = None ->
  exists wt_aa mut_aa,
    CODON_TO_AA wt = Ok wt_aa /\ CODON_TO_AA mut = Ok mut_aa
    /\ _codonToAAMuts_step geneseq aa_muts tok
       = Ok (if decide (wt_aa = mut_aa) then aa_muts
             else <[r := wt_aa +:+ Str.of_int r +:+ mut_aa]> aa_muts).
Proof.
  intros Hm [Hwt Hne] Hnone.
  destruct (match_mutation_Some _ _ _ _ _ _ Hm) as (Lw & Aw & Lm & Am & Hr).
  destruct (CODON_TO_AA_total wt Lw Aw) as (a & Ha & _).
  destruct (CODON_TO_AA_total mut Lm Am) as (b & Hb & _).
  exists (String a EmptyString), (String b EmptyString).
  split; [done|]. split; [done|].
  unfold _codonToAAMuts_step. rewrite Hm.
  rewrite bool_decide_eq_false_2 by (rewrite Hnone; by intros [? ?]).
  rewrite Hwt, eqb_str_refl. simpl.
  rewrite (proj2 (eqb_str_false _ _) Hne).
  rewrite Ha, bind_ret. unfold aas, codons.
  rewrite slice_codon_in_sites by (done || by rewrite Hwt).
  rewrite bind_ret, Hwt, Ha, bind_ret, eqb_str_refl. simpl py_assert.
  rewrite bind_ret, Hb, bind_ret.
  destruct (decide _) as [E|E].
  - by rewrite (proj2 (eqb_str_true _ _) E).
  - by rewrite (proj2 (eqb_str_false _ _) E).
Qed.

(** The loop of [_codonToAAMuts] over a valid set: it ends, and the
    dictionary holds the amino-acid mutations of the non-synonymous
    codon mutations, by site. *)
Lemma codonToAAMuts_loop geneseq toks muts aa0 :
  Forall2 (fun tok m => Str.match_mutation is_nt 3 tok = Some m) toks muts ->
  Forall (valid_codon_mutation geneseq) muts ->
  NoDup (map site_of muts) ->
  (forall m, m ∈ muts -> aa0 !! site_of m = None) ->
  exists aa1,
    foldM (_codonToAAMuts_step geneseq) toks aa0 = Ok aa1
    /\ forall r a, aa1 !! r = Some a
                   ↔ aa0 !! r = Some a
                     \/ exists m, m ∈ muts /\ site_of m = r /\ aa_mutation m a.
Proof.
  intros Hmatch. revert aa0.
  induction Hmatch as [|tok [[wt r] mut] toks muts Hm Hrest IH];
    intros aa0 Hvalid Hnodup Hfresh.
  - exists aa0. split; [done|]. intros r a. split; [by left|].
    intros [?|(m & Hin & _)]; [done|]. by apply elem_of_nil in Hin.
  - apply Forall_cons in Hvalid as [Hv Hvalid].
    simpl in Hnodup. apply NoDup_cons in Hnodup as [Hr Hnodup].
    change (site_of (wt, r, mut)) with r in Hr.
    assert (Hsites : forall m, m ∈ muts -> site_of m ≠ r).
    { intros m Hin Heq. apply Hr. rewrite <- Heq.
      apply list_elem_of_In, in_map. by apply list_elem_of_In. }
    destruct (codonToAAMuts_step_valid geneseq aa0 tok wt r mut Hm Hv)
      as (wt_aa & mut_aa & Hwa & Hma & Hstep).
    { apply (Hfresh (wt, r, mut)). left. }
    simpl. rewrite Hstep, bind_ret.
    set (aa' := if decide (wt_aa = mut_aa) then aa0 else _).
    destruct (IH aa' Hvalid Hnodup) as (aa1 & Hfold & Hspec).
    { intros m Hin. unfold aa'.
      assert (aa0 !! site_of m = None) by (apply Hfresh; by right).
      destruct (decide _); [done|].
      rewrite lookup_insert_ne; [done|].
      intros Heq. by apply (Hsites m Hin). }
    exists aa1. split; [done|]. intros r' a. rewrite Hspec. unfold aa'.
    split.
    + intros [Hl|(m & Hin & Hs & Ha)].
      * destruct (decide (wt_aa = mut_aa)); [by left|].
        destruct (decide (r = r')) as [<-|Hrr].
        -- rewrite lookup_insert_eq in Hl. injection Hl as <-.
           right. exists (wt, r, mut). split; [left|]. split; [done|].
           by exists wt_aa, mut_aa.
        -- rewrite lookup_insert_ne in Hl by done. by left.
      * right. exists m. split; [by right|done].
    + intros [Hl|(m & Hin & Hs & Ha)].
      * left. destruct (decide _); [done|].
        rewrite lookup_insert_ne; [done|]. intros <-.
        assert (Hn : aa0 !! r = None) by (apply (Hfresh (wt, r, mut)); left).
        congruence.
      * apply elem_of_cons in Hin as [->|Hin].
        -- left. simpl in Hs. subst r'.
           destruct Ha as (wa & ma & Hwa' & Hma' & Hne & ->).
           rewrite Hwa in Hwa'. rewrite Hma in Hma'.
           injection Hwa' as <-. injection Hma' as <-.
           destruct (decide _); [done|]. by rewrite lookup_insert_eq.
        -- right. by exists m.
Qed.

End MutationFacts.

Section SortedItems.

Import CodonVariantTable.
Context {V : Type}.

Lemma elem_of_sorted_items (m : gmap Z V) r a :
  (r, a) ∈ sorted_items m ↔ m !! r = Some a.
Proof.
  unfold sorted_items. rewrite ssort_perm. apply elem_of_map_to_list.
Qed.

Lemma sorted_items_NoDup (m : gmap Z V) : NoDup (map fst (sorted_items m)).
Proof.
  unfold sorted_items. rewrite ssort_perm. apply NoDup_fst_map_to_list.
Qed.

Lemma sorted_items_ascending (m : gmap Z V) :
  StronglySorted Z.lt (map fst (sorted_items m)).
Proof.
  pose proof (sorted_items_NoDup m) as Hnd.
  assert (Hs : StronglySorted (le_of (fun a b : Z * V => (a.1 <=? b.1)%Z))
                              (sorted_items m)).
  { apply ssort_sorted; intros; lia. }
  induction Hs as [|x l Hl IH Hx]; simpl; constructor.
  - apply IH. simpl in Hnd. by apply NoDup_cons in Hnd as [_ ?].
  - simpl in Hnd. apply NoDup_cons in Hnd as [Hx' _].
    apply Forall_map. rewrite Forall_forall in Hx |- *.
    intros y Hy. specialize (Hx y Hy). unfold le_of in Hx.
    assert (x.1 ≠ y.1).
    { intros E. apply Hx'. rewrite E.
      apply list_elem_of_In, in_map. by apply list_elem_of_In. }
    simpl. lia.
Qed.

End SortedItems.

Section CodonToAA.

Import Str Genetic CodonVariantTable.

Lemma Forall2_elem_of_r {A B} (P : A -> B -> Prop) l k y :
  Forall2 P l k -> y ∈ k -> exists x, x ∈ l /\ P x y.
Proof.
  induction 1 as [|x y' l k Hxy H IH]; intros Hy.
  - by apply elem_of_nil in Hy.
  - apply elem_of_cons in Hy as [->|Hy].
    + exists x. split; [left|done].
    + destruct (IH Hy) as (x' & Hx' & HP). exists x'. split; [by right|done].
Qed.

Lemma all_impl (p q : ascii -> bool) s :
  (forall c, p c = true -> q c = true) -> Str.all p s = true -> Str.all q s = true.
Proof.
  intros Hpq. induction s as [|c s IH]; simpl; [done|].
  intros [Hc Hs]%andb_true_iff. by rewrite (Hpq c Hc), IH.
Qed.

Lemma digit_not_space c : Str.is_digit c = true -> negb (Str.is_space c) = true.
Proof. unfold Str.is_digit, Str.is_space. lia. Qed.

Lemma string_of_uint_digits u :
  Str.all Str.is_digit (DecimalString.NilEmpty.string_of_uint u) = true.
Proof. induction u; simpl; by rewrite ?IHu. Qed.

Lemma of_int_digits r : (0 ≤ r)%Z -> Str.all Str.is_digit (Str.of_int r) = true.
Proof.
  intros Hr. unfold Str.of_int. destruct r; try lia; apply string_of_uint_digits.
Qed.

(** The text of an amino-acid mutation is one token. *)
Lemma aa_mutation_token m a :
  (0 ≤ site_of m)%Z ->
  String.length m.1.1 = 3%nat -> Str.all is_nt m.1.1 = true ->
  String.length m.2 = 3%nat -> Str.all is_nt m.2 = true ->
  aa_mutation m a -> is_token a.
Proof.
  destruct m as [[wt r] mut]. simpl. intros Hr Lw Aw Lm Am.
  intros (wt_aa & mut_aa & Hw & Hm & _ & ->).
  destruct (CODON_TO_AA_total wt Lw Aw) as (x & Hx & Sx).
  destruct (CODON_TO_AA_total mut Lm Am) as (y & Hy & Sy).
  rewrite Hx in Hw. rewrite Hy in Hm. injection Hw as <-. injection Hm as <-.
  split; [done|].
  rewrite append_cons, append_nil. simpl. rewrite Sx. simpl.
  rewrite all_app. simpl. rewrite Sy. simpl. rewrite andb_true_r.
  eapply all_impl; [apply digit_not_space|]. by apply of_int_digits.
Qed.

(** C7.  On a valid set of codon mutations (every token a codon
    mutation whose wildtype is the codon of the gene at its site and
    whose mutant differs from it, no two at the same site),
    [_codonToAAMuts] returns the space-joined texts of a list [items] of
    amino-acid mutations that is in strictly ascending order of site and
    holds exactly the mutations of the sites where the translations of
    wildtype and mutant codon differ; so the number of amino-acid
    substitutions counted from the result is at most the number of codon
    substitutions. *)
Theorem C7_codonToAAMuts_keeps_the_nonsynonymous_sites_in_order
    (geneseq s : string) (muts : list codon_mutation) :
  codon_mutation_set geneseq s muts ->
  exists items : list (Z * string),
    _codonToAAMuts geneseq s = Ok (Str.join (map snd items))
    /\ StronglySorted Z.lt (map fst items)
    /\ (forall r a, (r, a) ∈ items
                    ↔ exists m, m ∈ muts /\ site_of m = r /\ aa_mutation m a)
    /\ n_tokens (Str.join (map snd items)) = Z.of_nat (length items)
    /\ (n_tokens (Str.join (map snd items)) ≤ n_tokens s)%Z.
Proof.
  intros (Hmatch & Hvalid & Hnodup).
  destruct (codonToAAMuts_loop geneseq _ muts ∅ Hmatch Hvalid Hnodup)
    as (aa1 & Hfold & Hspec); [intros; apply lookup_empty|].
  exists (sorted_items aa1).
  assert (Hitems : forall r a, (r, a) ∈ sorted_items aa1
            ↔ exists m, m ∈ muts /\ site_of m = r /\ aa_mutation m a).
  { intros r a. rewrite elem_of_sorted_items, Hspec, lookup_empty.
    split; [intros [?|?]; done | by right]. }
  assert (Hlen : (length (sorted_items aa1) ≤ length muts)%nat).
  { rewrite <- (length_map fst (sorted_items aa1)), <- (length_map site_of muts).
    apply submseteq_length, NoDup_submseteq.
    - apply sorted_items_NoDup.
    - intros r Hr. apply list_elem_of_In, in_map_iff in Hr as ([r' a] & <- & Hin).
      apply list_elem_of_In, Hitems in Hin as (m & Hm & <- & _).
      simpl. apply list_elem_of_In, in_map. by apply list_elem_of_In. }
  assert (Hn : n_tokens (Str.join (map snd (sorted_items aa1)))
               = Z.of_nat (length (sorted_items aa1))).
  { unfold n_tokens. rewrite split_join, length_map; [done|].
    apply Forall_map, Forall_forall. intros [r a] Hin.
    apply Hitems in Hin as (m & Hm & <- & Ha). simpl.
    destruct (Forall2_elem_of_r _ _ _ _ Hmatch Hm) as (tok & _ & Htok).
    destruct m as [[wt r] mut].
    destruct (match_mutation_Some _ _ _ _ _ _ Htok) as (Lw & Aw & Lm & Am & Hr).
    by apply (aa_mutation_token (wt, r, mut)). }
  split; [unfold _codonToAAMuts; by rewrite Hfold|].
  split; [apply sorted_items_ascending|].
  split; [exact Hitems|]. split; [exact Hn|].
  rewrite Hn. unfold n_tokens.
  rewrite <- (length_map Str.upper (Str.split s)), <- split_upper.
  rewrite (Forall2_length _ _ _ Hmatch). apply Nat2Z.inj_le, Hlen.
Qed.

End CodonToAA.

Section NtToCodon.

Import Str Genetic CodonVariantTable.

Lemma get_take k n s : (k < n)%nat -> String.get k (take n s) = String.get k s.
Proof.
  revert k s. induction n as [|n IH]; intros k s Hk; [lia|].
  destruct s as [|c s]; [done|]. destruct k as [|k]; [done|].
  simpl. apply IH. lia.
Qed.

Lemma get_drop k a s : String.get k (drop a s) = String.get (a + k) s.
Proof.
  revert s. induction a as [|a IH]; intros s; [done|].
  destruct s as [|c s]; simpl; [by destruct k|]. apply IH.
Qed.

Lemma get_in_range k s :
  (k < String.length s)%nat -> exists c, String.get k s = Some c.
Proof.
  revert k. induction s as [|c s IH]; intros k Hk; simpl in Hk; [lia|].
  destruct k as [|k]; [by exists c|]. simpl. apply IH. lia.
Qed.

Lemma int_in_pairs_false i s : int_in_pairs i s = false.
Proof. unfold int_in_pairs. by induction s. Qed.

Lemma slice_in_range s a b :
  (0 ≤ a ≤ b)%Z -> (b ≤ Z.of_nat (String.length s))%Z ->
  Str.slice s a b = take (Z.to_nat (b - a)) (drop (Z.to_nat a) s).
Proof.
  intros Ha Hb. unfold Str.slice, clip.
  destruct (Z.ltb_spec a 0), (Z.ltb_spec b 0); try lia.
  by rewrite !Z.max_r, !Z.min_r by lia.
Qed.

Lemma get_nonneg s i :
  (0 ≤ i)%Z ->
  Str.get s i = match String.get (Z.to_nat i) s with
                | Some c => Ok c
                | None => Raise IndexError
                end.
Proof.
  intros Hi. unfold Str.get.
  destruct (Z.ltb_spec i 0); [lia|]. destruct (Z.ltb_spec i 0); [lia|done].
Qed.

(** A nucleotide of the gene read through the codon that holds it. *)
Lemma get_through_codon geneseq i :
  (gene_length geneseq mod 3 = 0)%Z ->
  (1 ≤ i ≤ gene_length geneseq)%Z ->
  exists codon,
    codons geneseq ((i - 1) / 3 + 1) = Ok codon
    /\ Str.get codon ((i - 1) mod 3) = Str.get geneseq (i - 1).
Proof.
  unfold gene_length. intros Hmod Hi.
  set (len := Z.of_nat (String.length geneseq)) in *.
  pose proof (Z.div_mod (i - 1) 3 ltac:(lia)) as Hdm.
  pose proof (Z.mod_pos_bound (i - 1) 3 ltac:(lia)) as Hm.
  pose proof (Z.div_mod len 3 ltac:(lia)) as Hlen.
  set (q := ((i - 1) / 3)%Z) in *. set (j := ((i - 1) mod 3)%Z) in *.
  assert (Hq : (0 ≤ q)%Z) by (apply Z.div_pos; lia).
  assert (Hq3 : (3 * q + 3 ≤ len)%Z) by lia.
  unfold codons, in_sites, nsites. fold len.
  assert (Hn : (q + 1 ≤ len / 3)%Z) by (apply Z.div_le_lower_bound; lia).
  rewrite (proj2 (andb_true_iff _ _)) by (split; apply Z.leb_le; lia).
  eexists. split; [reflexivity|].
  rewrite slice_in_range by (fold len; lia).
  rewrite !get_nonneg by lia.
  rewrite get_take by lia. rewrite get_drop.
  replace (Z.to_nat (3 * (q + 1 - 1)) + Z.to_nat j)%nat with (Z.to_nat (i - 1))
    by lia.
  done.
Qed.

(** The step of the loop of [_ntToCodonMuts] on a token whose position
    is not 0: a [ValueError] when the mutation is misplaced, and never
    another exception. *)
Lemma ntToCodonMuts_step_cases geneseq mc tok :
  (gene_length geneseq mod 3 = 0)%Z ->
  (forall wt mut, match_mutation is_nt 1 tok ≠ Some (wt, 0%Z, mut)) ->
  (exists msg, _ntToCodonMuts_step geneseq mc tok = Raise (ValueError msg))
  \/ (exists mc', _ntToCodonMuts_step geneseq mc tok = Ok mc')
     /\ forall m, match_mutation is_nt 1 tok = Some m ->
                  ~ misplaced_nt_mutation geneseq m.
Proof.
  intros Hmod Hzero. unfold _ntToCodonMuts_step.
  destruct (match_mutation is_nt 1 tok) as [[[wt i] mut]|] eqn:Hm; [|eauto].
  destruct (match_mutation_Some _ _ _ _ _ _ Hm) as (_ & _ & _ & _ & Hi).
  assert (Hi1 : (1 ≤ i)%Z).
  { destruct (decide (i = 0%Z)) as [->|]; [by destruct (Hzero wt mut)|lia]. }
  destruct (eqb_str wt mut); [eauto|].
  fold (gene_length geneseq).
  destruct (Z.ltb_spec (gene_length geneseq) i) as [Hlt|Hle]; [eauto|].
  destruct (get_through_codon geneseq i Hmod ltac:(lia)) as (codon & Hc & Hg).
  destruct (get_in_range (Z.to_nat (i - 1)) geneseq) as (c & Hget).
  { unfold gene_length in Hle. clear -Hi1 Hle.
    apply Nat2Z.inj_lt. rewrite Z2Nat.id; lia. }
  pose proof (Z.mod_pos_bound (i - 1) 3 ltac:(lia)) as Hmod3.
  rewrite (get_nonneg geneseq (i - 1)) in Hg |- * by lia.
  rewrite Hget in Hg |- *.
  rewrite bind_ret.
  destruct (eqb_str (String c EmptyString) wt) eqn:Hcw; [|simpl; eauto].
  simpl negb. cbv iota. right.
  rewrite Hc, bind_ret, Hg, bind_ret, Hcw. simpl py_assert.
  rewrite bind_ret, int_in_pairs_false. split; [eauto|].
  intros m [= <-]. intros [?|[?|(c' & Hget' & Hne)]]; try lia.
  rewrite get_nonneg, Hget in Hget' by lia. injection Hget' as <-.
  apply eqb_str_true in Hcw. done.
Qed.

(** X14 (around C6). As long as no token has position 0, a misplaced mutation
    in the set makes [_ntToCodonMuts] fail with a [ValueError]. *)
Lemma ntToCodonMuts_rejects_misplaced geneseq s :
  (gene_length geneseq mod 3 = 0)%Z ->
  (forall tok wt mut, tok ∈ split (upper s) ->
                      match_mutation is_nt 1 tok ≠ Some (wt, 0%Z, mut)) ->
  (exists tok m, tok ∈ split (upper s)
                 /\ match_mutation is_nt 1 tok = Some m
                 /\ misplaced_nt_mutation geneseq m) ->
  is_value_error (_ntToCodonMuts geneseq s).
Proof.
  intros Hmod Hzero Hbad. unfold _ntToCodonMuts.
  generalize (∅ : gmap Z (list (Z * string))). revert Hzero Hbad.
  generalize (split (upper s)). intros toks.
  induction toks as [|tok toks IH]; intros Hzero Hbad mc.
  - destruct Hbad as (tok & m & Hin & _). by apply elem_of_nil in Hin.
  - simpl.
    destruct (ntToCodonMuts_step_cases geneseq mc tok Hmod)
      as [[msg ->]|[[mc' ->] Hok]].
    + intros wt mut. apply Hzero. left.
    + done.
    + rewrite bind_ret. apply IH.
      * intros t wt mut Hin. apply Hzero. by right.
      * destruct Hbad as (t & m & Hin & Hm & Hmis).
        apply elem_of_cons in Hin as [->|Hin]; [by destruct (Hok m Hm)|].
        by exists t, m.
Qed.

(** C6.  The position 0 passes the test [i > len(self.geneseq)]; the
    reference nucleotide is then read at index -1, the last one of the
    gene, and when it equals the stated wildtype the lookup of codon 0
    raises [KeyError] instead of the [ValueError] of an invalid
    mutation. *)
Theorem C6_position_zero_raises_KeyError :
  misplaced_nt_mutation example_geneseq ("A", 0%Z, "C")
  /\ _ntToCodonMuts example_geneseq "A0C" = Raise KeyError.
Proof. split; [left; lia | vm_compute; reflexivity]. Qed.

End NtToCodon.

(** ** Frames *)

Section FrameFacts.
Import Frame.
Context {A : Type} `{EqDecision A}.

Lemma elem_of_unique (l : list A) x : x ∈ unique l ↔ x ∈ l.
Proof.
  induction l as [|y l IH]; simpl; [done|].
  rewrite !elem_of_cons, list_elem_of_filter, IH.
  destruct (decide (x = y)); tauto.
Qed.

Lemma NoDup_unique (l : list A) : NoDup (unique l).
Proof.
  induction l as [|y l IH]; simpl; constructor.
  - rewrite list_elem_of_filter. tauto.
  - by apply NoDup_filter.
Qed.

Lemma filter_other_id (l : list A) x : x ∉ l -> filter (fun y => y ≠ x) l = l.
Proof.
  induction l as [|y l IH]; [done|].
  intros [Hxy Hx]%not_elem_of_cons.
  rewrite filter_cons.
  destruct (decide (y ≠ x)) as [|n]; [|exfalso; apply n; congruence].
  by rewrite IH.
Qed.

Lemma unique_of_NoDup (l : list A) : NoDup l -> unique l = l.
Proof.
  induction 1 as [|x l Hx Hl IH]; simpl; [done|].
  by rewrite IH, filter_other_id.
Qed.

Lemma absorb_singleton `{Countable B} (x : B) (l : list B) :
  x ∈ l -> ({[x]} ∪ list_to_set l : gset B) = list_to_set l.
Proof.
  intros Hx. apply set_eq. intros y.
  rewrite elem_of_union, elem_of_singleton, elem_of_list_to_set.
  split; [intros [->|]; done | by right].
Qed.

Lemma disjoint_singleton `{Countable B} (x : B) (l : list B) :
  x ∉ l -> ({[x]} : gset B) ## list_to_set l.
Proof.
  intros Hx. apply disjoint_singleton_l. by rewrite elem_of_list_to_set.
Qed.

Lemma size_list_to_set_NoDup `{Countable B} (l : list B) :
  length l = size (list_to_set l : gset B) -> NoDup l.
Proof.
  assert (Hle : forall l : list B, (size (list_to_set l : gset B) ≤ length l)%nat).
  { clear. intros l. induction l as [|x l IH]; simpl; [done|].
    destruct (decide (x ∈ l)) as [Hx|Hx].
    - rewrite absorb_singleton by done. lia.
    - rewrite size_union by by apply disjoint_singleton.
      rewrite size_singleton. lia. }
  induction l as [|x l IH]; simpl; [constructor|].
  intros Hlen. destruct (decide (x ∈ l)) as [Hx|Hx].
  - exfalso. specialize (Hle l).
    rewrite absorb_singleton in Hlen by done. lia.
  - constructor; [done|]. apply IH.
    rewrite size_union in Hlen by by apply disjoint_singleton.
    rewrite size_singleton in Hlen. lia.
Qed.

End FrameFacts.

Section TableFacts.
Import Frame Genetic CodonVariantTable.

Lemma in_list_true x l : in_list x l = true ↔ x ∈ l.
Proof. unfold in_list. by rewrite bool_decide_eq_true. Qed.

(** C8, amended.  On a frame that has a library named like the merged
    library, [addMergedLibraries] fails when the frame holds more than
    one library, and returns the frame as it is when that library is the
    only one (the test on the number of libraries comes first). *)
Theorem C8_merged_library_name_among_several_libraries
    {R : Type} `{Row R} (df : frame R) (all_lib : string) :
  all_lib ∈ map row_library (rows df) ->
  addMergedLibraries df all_lib
  = if decide (length (unique (map row_library (rows df))) ≤ 1)%nat
    then Ok df
    else Raise (ValueError "library already exists").
Proof.
  intros Hin. unfold addMergedLibraries.
  destruct (decide _) as [Hle|Hgt].
  - by rewrite (proj2 (Nat.leb_le _ _) Hle).
  - rewrite (proj2 (Nat.leb_gt _ _)) by lia.
    by rewrite (proj2 (in_list_true _ _)) by (by apply elem_of_unique).
Qed.

(** C1.  When [sample] is already among the samples recorded for
    [library], [addSampleCounts] raises and the table is the one before
    the call: [variant_count_df] has the same rows, and every other
    attribute is unchanged. *)
Theorem C1_second_addSampleCounts_is_rejected
    (self : table) (library sample : string) (present : list string)
    (barcodecounts : list (string * Z)) :
  library ∈ libraries self ->
  _samples self !! library = Some present ->
  sample ∈ present ->
  addSampleCounts self library sample barcodecounts
  = (self, Raise (ValueError "`library` already has `sample`")).
Proof.
  intros Hlib Hs Hin. unfold addSampleCounts, samples.
  rewrite (proj2 (in_list_true _ _) Hlib), Hs. simpl.
  by rewrite (proj2 (in_list_true _ _) Hin).
Qed.

(** A successful call records the sample for the library, and leaves
    the samples of the other libraries as they were. *)
Lemma addSampleCounts_records self library sample barcodecounts self' r :
  addSampleCounts self library sample barcodecounts = (self', r) ->
  r = Ok () ->
  libraries self' = libraries self
  /\ exists present : list string,
      _samples self !! library = Some present
      /\ (sample ∉ present)
      /\ _samples self' = <[library := present ++ [sample]]> (_samples self).
Proof.
  unfold addSampleCounts.
  destruct (in_list library (libraries self)); simpl; [|by intros [= <- <-]].
  unfold samples at 1. destruct (_samples self !! library) as [present|] eqn:Hs;
    [|by intros [= <- <-]].
  destruct (in_list sample present) eqn:Hin; [by intros [= <- <-]|].
  destruct (negb (_ =? _)%nat); [by intros [= <- <-]|].
  destruct (valid_barcodes self library) as [valid|e]; [|by intros [= <- <-]].
  destruct (negb (bool_decide _)); [by intros [= <- <-]|].
  match goal with |- context [match ?x with Ok _ => _ | Raise _ => _ end] =>
    destruct x as [[df us]|e] end; [|by intros [= <- <-]].
  intros [= <- <-] _. split; [done|].
  exists present. split; [done|]. split; [|done].
  intros Hp. apply in_list_true in Hp. congruence.
Qed.


(** C2.  For a known library, [addSampleCounts] raises and leaves the
    table as it was whenever the barcodes given are not, without
    repetition, exactly the valid barcodes of the library (one missing,
    an unknown one, or one given twice); a call that succeeds was given
    exactly those. *)
Theorem C2_barcodes_must_be_exactly_the_valid_ones
    (self : table) (library sample : string) (valid : gset string)
    (barcodecounts : list (string * Z)) :
  library ∈ libraries self ->
  _valid_barcodes self !! library = Some valid ->
  (~ exact_barcodes barcodecounts valid ->
   exists e, addSampleCounts self library sample barcodecounts = (self, Raise e))
  /\ (forall self', addSampleCounts self library sample barcodecounts = (self', Ok ())
                    -> exact_barcodes barcodecounts valid).
Proof.
  intros Hlib Hv.
  assert (Hcases :
    (exists e, addSampleCounts self library sample barcodecounts = (self, Raise e))
    \/ exact_barcodes barcodecounts valid
       /\ exists self' r, addSampleCounts self library sample barcodecounts = (self', r)).
  { unfold addSampleCounts, valid_barcodes.
    rewrite (proj2 (in_list_true _ _) Hlib), Hv. simpl.
    destruct (samples self library) as [present|e]; [|eauto].
    destruct (in_list sample present); [eauto|].
    destruct (length barcodecounts =? _)%nat eqn:Hlen; simpl; [|eauto].
    destruct (bool_decide _) eqn:Hset; simpl; [|eauto].
    right. split.
    2:{ match goal with |- context [match ?x with Ok _ => _ | Raise _ => _ end] =>
          destruct x as [[df us]|e] end; eauto. }
    apply Nat.eqb_eq in Hlen. apply bool_decide_eq_true in Hset.
    split; [|done]. apply size_list_to_set_NoDup. by rewrite length_map. }
  split.
  - intros Hne. destruct Hcases as [?|[? _]]; done.
  - intros self' Hok. destruct Hcases as [[e He]|[? _]]; [congruence|done].
Qed.

End TableFacts.

(** ** Counting mutations *)

Section MapM.
Context {A B : Type} (f : A -> result B).

Lemma mapM_result_Ok l ys :
  mapM_result f l = Ok ys -> Forall2 (fun x y => f x = Ok y) l ys.
Proof.
  revert ys. induction l as [|x l IH]; intros ys H; simpl in H.
  - injection H as <-. constructor.
  - bind_inv H y Hy. bind_inv H ys' Hys. injection H as <-.
    constructor; [done|by apply IH].
Qed.

End MapM.

Section MutCounts.

Import Frame Genetic CodonVariantTable.

Lemma elem_of_flat_map {A B} (f : A -> list B) l y :
  y ∈ flat_map f l ↔ exists x, x ∈ l /\ y ∈ f x.
Proof.
  rewrite list_elem_of_In, in_flat_map. setoid_rewrite list_elem_of_In. done.
Qed.

Lemma elem_of_map {A B} (f : A -> B) l y :
  y ∈ map f l ↔ exists x, f x = y /\ x ∈ l.
Proof.
  rewrite list_elem_of_In, in_map_iff. setoid_rewrite list_elem_of_In. done.
Qed.

(** Every row of the right frame is in the outer merge. *)
Lemma elem_of_merge_outer_right left right y :
  y ∈ right -> y ∈ merge_outer left right.
Proof.
  intros Hy. unfold merge_outer. apply elem_of_app.
  destruct (decide (y ∈ left)) as [Hl|Hl].
  - left. apply elem_of_flat_map. exists y. split; [done|].
    assert (Hf : y ∈ filter (fun z => z = y) right)
      by (by apply list_elem_of_filter).
    destruct (filter (fun z => z = y) right) as [|z zs]; [by apply elem_of_nil in Hf|].
    left.
  - right. by apply list_elem_of_filter.
Qed.

Lemma key_of_pair k n : key_of (k, n) = k.
Proof. by destruct k as [[l s] m]. Qed.

Lemma keys_groupby_sum df :
  map key_of (groupby_sum df) = ssort key_leb (unique (map key_of df)).
Proof.
  unfold groupby_sum. rewrite map_map.
  rewrite (map_ext _ id) by (intros; apply key_of_pair). apply map_id.
Qed.

Lemma filter_none {A} (P : A -> Prop) `{forall x, Decision (P x)} (l : list A) :
  (forall x, x ∈ l -> ~ P x) -> filter P l = [].
Proof.
  induction l as [|x l IH]; intros Hl; [done|].
  rewrite filter_cons_False by (apply Hl; left).
  apply IH. intros y Hy. apply Hl. by right.
Qed.

(** In a list whose keys are pairwise distinct, exactly one element has
    a key that occurs. *)
Lemma length_filter_unique_key {A K} (key : A -> K) (P : A -> Prop)
    `{forall x, Decision (P x)} (l : list A) (k : K) :
  (forall x, P x ↔ key x = k) ->
  NoDup (map key l) -> k ∈ map key l -> length (filter P l) = 1%nat.
Proof.
  intros HP. induction l as [|x l IH]; simpl; intros Hnd Hk;
    [by apply elem_of_nil in Hk|].
  apply NoDup_cons in Hnd as [Hx Hnd].
  destruct (decide (P x)) as [Hpx|Hpx].
  - rewrite filter_cons_True by done.
    rewrite filter_none; [done|]. intros y Hy Hpy.
    apply Hx. apply HP in Hpx, Hpy. rewrite Hpx, <- Hpy.
    apply list_elem_of_In, in_map. by apply list_elem_of_In.
  - rewrite filter_cons_False by done.
    apply elem_of_cons in Hk as [->|Hk]; [by destruct Hpx; apply HP|].
    by apply IH.
Qed.

Lemma map_combine_key {A B C K} (k : A -> K) (h : A * B * C -> K)
    (a : list A) (b : list B) (c : list C) :
  (forall x y z, h (x, y, z) = k x) ->
  length b = length a -> length c = length a ->
  map h (combine (combine a b) c) = map k a.
Proof.
  intros Hh. revert b c.
  induction a as [|x a IH]; intros [|y b] [|z c] Hb Hc; try done.
  simpl. rewrite Hh. f_equal. apply IH; [by injection Hb|by injection Hc].
Qed.

(** The zero-count rows cover the libraries, the samples and the
    mutations they are built from. *)
Lemma elem_of_all_muts muts librarylist samplelist lib smp m :
  lib ∈ librarylist -> smp ∈ samplelist -> m ∈ muts ->
  (lib, smp, m, 0%Z) ∈ all_muts muts librarylist samplelist.
Proof.
  intros Hl Hs Hm. unfold all_muts.
  apply list_elem_of_bind. exists lib. split; [|done].
  apply list_elem_of_bind. exists smp. split; [|done].
  apply elem_of_map. by exists m.
Qed.

Lemma elem_of_mut_list wts chars r wt mut :
  (r, wt) ∈ wts -> mut ∈ chars -> mut ≠ wt ->
  wt +:+ Str.of_int r +:+ mut ∈ mut_list wts chars.
Proof.
  intros Hw Hc Hne. unfold mut_list.
  apply list_elem_of_bind. exists (r, wt). split; [|done].
  apply list_elem_of_bind. exists mut. split; [|done].
  rewrite bool_decide_eq_true_2 by done. left.
Qed.

Lemma mapM_result_elem {A B} (f : A -> result B) l ys x y :
  mapM_result f l = Ok ys -> x ∈ l -> f x = Ok y -> y ∈ ys.
Proof.
  intros H%mapM_result_Ok. induction H as [|x' y' l ys Hxy H IH];
    intros Hx Hf; [by apply elem_of_nil in Hx|].
  apply elem_of_cons in Hx as [->|Hx].
  - rewrite Hf in Hxy. injection Hxy as <-. left.
  - right. by apply IH.
Qed.

Lemma mapM_result_length {A B} (f : A -> result B) l ys :
  mapM_result f l = Ok ys -> length ys = length l.
Proof. intros H%mapM_result_Ok. symmetry. by eapply Forall2_length. Qed.

(** C3, amended.  Whenever [mutCounts] returns a frame, the frame has
    exactly one row for every library and every sample of the data
    selected by [_getPlotData] and every possible mutation: the wildtype
    of a site followed by the site and by another character of the
    alphabet.  The rows of count 0 are among them, and so is the case
    [samples=None]. *)
Theorem C3_mutCounts_has_one_row_per_possible_mutation
    (self : table) (variant_type mut_type : string)
    (libs : libraries_arg) (smps : samples_arg) (min_support : Z)
    (df : frame count_row) (nlibraries nsamples : nat) (out : frame mut_row) :
  _getPlotData self libs smps min_support = Ok (df, nlibraries, nsamples) ->
  mutCounts self variant_type mut_type libs smps min_support = Ok out ->
  forall lib smp r wt mut,
    lib ∈ map (fun x => library (var x)) (rows df) ->
    smp ∈ map sample (rows df) ->
    r ∈ sites (geneseq self) ->
    wildtype (geneseq self) mut_type r = Ok wt ->
    mut ∈ alphabet mut_type -> mut ≠ wt ->
    length (rows_for out lib smp (wt +:+ Str.of_int r +:+ mut)) = 1%nat.
Proof.
  intros Hdata Hout lib smp r wt mut Hlib Hsmp Hr Hwt Hmut Hne.
  unfold mutCounts in Hout.
  bind_inv Hout data Hd. rewrite Hdata in Hd. injection Hd as <-.
  bind_inv Hout gran Hchoice. destruct gran as [[[wts chars] n_subs] subs].
  bind_inv Hout selected Hsel. cbv zeta in Hout.
  bind_inv Hout types Htypes. bind_inv Hout sts Hsites. injection Hout as <-.
  set (m := wt +:+ Str.of_int r +:+ mut).
  set (merged := merge_outer _ _) in *.
  (* the mutation is listed among the zero counts *)
  assert (Hm : m ∈ mut_list wts chars).
  { unfold wildtype, alphabet in *.
    destruct (eqb_str mut_type "codon"); cbv iota in Hwt, Hmut.
    - bind_inv Hchoice w Hw. injection Hchoice as <- <- _ _.
      apply elem_of_mut_list; [|done|done].
      eapply mapM_result_elem; [exact Hw|exact Hr|]. cbv beta. by rewrite Hwt.
    - destruct (eqb_str mut_type "aa"); [|discriminate].
      bind_inv Hchoice w Hw. injection Hchoice as <- <- _ _.
      apply elem_of_mut_list; [|done|done].
      eapply mapM_result_elem; [exact Hw|exact Hr|]. cbv beta. by rewrite Hwt. }
  assert (Hkey : (lib, smp, m) ∈ map key_of (groupby_sum merged)).
  { rewrite keys_groupby_sum, ssort_perm. apply elem_of_unique.
    apply elem_of_map. exists (lib, smp, m, 0%Z). split; [done|].
    apply elem_of_merge_outer_right, elem_of_all_muts; [| |done].
    - by apply elem_of_unique.
    - by apply elem_of_unique. }
  assert (Hnd : NoDup (map key_of (groupby_sum merged))).
  { rewrite keys_groupby_sum, ssort_perm. apply NoDup_unique. }
  unfold rows_for. simpl rows. rewrite ssort_perm.
  pose proof (mapM_result_length _ _ _ Htypes) as Lt.
  pose proof (mapM_result_length _ _ _ Hsites) as Ls.
  match goal with
  | |- context [map ?f (combine (combine (groupby_sum merged) types) sts)] =>
      set (built := map f (combine (combine (groupby_sum merged) types) sts))
  end.
  assert (Hkeys : map row_key built = map key_of (groupby_sum merged)).
  { unfold built. rewrite map_map. apply map_combine_key; [|done|done].
    intros [[[l s] mu] n] t st. reflexivity. }
  apply (length_filter_unique_key row_key _ _ (lib, smp, m));
    [|by rewrite Hkeys..].
  intros x. unfold row_key. split; [by intros (-> & -> & ->)|].
  by intros [= -> -> ->].
Qed.


End MutCounts.

Section TableExamples.

Import Frame Genetic CodonVariantTable.

Example init_doctest : init example_rows example_geneseq false = Ok example_table.
Proof. vm_compute. reflexivity. Qed.

Lemma C1_witness :
  "lib_1" ∈ libraries example_table_1
  /\ _samples example_table_1 !! "lib_1" = Some ["input"]
  /\ "input" ∈ ["input"]
  /\ addSampleCounts example_table_1 "lib_1" "input" counts_lib1_input
     = (example_table_1, Raise (ValueError "`library` already has `sample`")).
Proof.
  assert (H1 : "lib_1" ∈ libraries example_table_1)
    by (apply (bool_decide_unpack _); vm_compute; exact I).
  assert (H2 : _samples example_table_1 !! "lib_1" = Some ["input"])
    by (vm_compute; reflexivity).
  assert (H3 : "input" ∈ ["input"]) by left.
  split; [exact H1|]. split; [exact H2|]. split; [exact H3|].
  exact (C1_second_addSampleCounts_is_rejected example_table_1 "lib_1" "input"
           ["input"] counts_lib1_input H1 H2 H3).
Defined.


Lemma C2_witness :
  "lib_1" ∈ libraries example_table
  /\ _valid_barcodes example_table !! "lib_1" = Some {["AAC"; "GAT"]}
  /\ (~ exact_barcodes [("AAC", 253%Z)] {["AAC"; "GAT"]} ->
      exists e, addSampleCounts example_table "lib_1" "input" [("AAC", 253%Z)]
                = (example_table, Raise e))
  /\ (forall self',
        addSampleCounts example_table "lib_1" "input" [("AAC", 253%Z)]
        = (self', Ok ())
        -> exact_barcodes [("AAC", 253%Z)] {["AAC"; "GAT"]}).
Proof.
  assert (H1 : "lib_1" ∈ libraries example_table)
    by (apply (bool_decide_unpack _); vm_compute; exact I).
  assert (H2 : _valid_barcodes example_table !! "lib_1" = Some {["AAC"; "GAT"]})
    by (vm_compute; reflexivity).
  split; [exact H1|]. split; [exact H2|].
  exact (C2_barcodes_must_be_exactly_the_valid_ones example_table "lib_1" "input"
           {["AAC"; "GAT"]} [("AAC", 253%Z)] H1 H2).
Defined.

(** C8, as stated, fails: a frame whose only library bears the name of
    the merged library is returned as it is. *)
Lemma C8_counterexample :
  "all libraries" ∈ map row_library (rows sentinel_only)
  /\ addMergedLibraries sentinel_only "all libraries" = Ok sentinel_only.
Proof. split; [left | reflexivity]. Qed.

Lemma C8_witness :
  "all libraries" ∈ map row_library (rows sentinel_and_other)
  /\ addMergedLibraries sentinel_and_other "all libraries"
     = if decide (length (unique (map row_library (rows sentinel_and_other))) ≤ 1)%nat
       then Ok sentinel_and_other
       else Raise (ValueError "library already exists").
Proof.
  assert (H1 : "all libraries" ∈ map row_library (rows sentinel_and_other))
    by left.
  split; [exact H1|].
  exact (C8_merged_library_name_among_several_libraries sentinel_and_other
           "all libraries" H1).
Defined.

Example codonToAAMuts_doctest :
  _codonToAAMuts example_geneseq "ATG1GTG GGA2GGC TGA3AGA" = Ok "M1V *3R".
Proof. vm_compute. reflexivity. Qed.

Example ntToCodonMuts_doctest :
  _ntToCodonMuts example_geneseq "A1G G4C A6T" = Ok "ATG1GTG GGA2CGT".
Proof. vm_compute. reflexivity. Qed.

Lemma C7_witness :
  let s := "ATG1GTG GGA2GGC TGA3AGA" in
  let muts := [("ATG", 1%Z, "GTG"); ("GGA", 2%Z, "GGC"); ("TGA", 3%Z, "AGA")] in
  codon_mutation_set example_geneseq s muts
  /\ exists items : list (Z * string),
      _codonToAAMuts example_geneseq s = Ok (Str.join (map snd items))
      /\ StronglySorted Z.lt (map fst items)
      /\ (forall r a, (r, a) ∈ items
                      ↔ exists m, m ∈ muts /\ site_of m = r /\ aa_mutation m a)
      /\ n_tokens (Str.join (map snd items)) = Z.of_nat (length items)
      /\ (n_tokens (Str.join (map snd items)) ≤ n_tokens s)%Z.
Proof.
  intros s muts.
  assert (H : codon_mutation_set example_geneseq s muts).
  { split; [|split].
    - vm_compute. repeat constructor.
    - repeat constructor; discriminate.
    - apply (bool_decide_unpack _). vm_compute. exact I. }
  split; [exact H|].
  exact (C7_codonToAAMuts_keeps_the_nonsynonymous_sites_in_order
           example_geneseq s muts H).
Defined.

Example sentinel_init : init sentinel_rows "ATG" false = Ok sentinel_table.
Proof. vm_compute. reflexivity. Qed.

(** C3, as stated, fails: with a library named like the merged library
    among several, every call with [libraries='all'] raises. *)
Lemma C3_counterexample :
  _getPlotData sentinel_table (LibrariesStr "all") SamplesNone 1
  = Raise (ValueError "library already exists")
  /\ mutCounts sentinel_table "all" "aa" (LibrariesStr "all") SamplesNone 1
     = Raise (ValueError "library already exists").
Proof. split; vm_compute; reflexivity. Qed.

Example mutCounts_list_of_samples : mutCounts example_table_1 "all" "aa" (LibrariesStr "all") (SamplesList ["input"]) 1
 = Raise UnboundLocalError.
Proof. vm_compute. reflexivity. Qed.

Example small_init : init small_rows "ATGGGA" false = Ok small_table.
Proof. vm_compute. reflexivity. Qed.

Lemma C3_witness :
  exists df nl ns out,
    _getPlotData small_table (LibrariesStr "all") SamplesNone 1 = Ok (df, nl, ns)
    /\ mutCounts small_table "all" "aa" (LibrariesStr "all") SamplesNone 1 = Ok out
    /\ forall lib smp r wt mut,
        lib ∈ map (fun x => library (var x)) (rows df) ->
        smp ∈ map sample (rows df) ->
        r ∈ sites (geneseq small_table) ->
        wildtype (geneseq small_table) "aa" r = Ok wt ->
        mut ∈ alphabet "aa" -> mut ≠ wt ->
        length (rows_for out lib smp (wt +:+ Str.of_int r +:+ mut)) = 1%nat.
Proof.
  eexists _, _, _, _.
  assert (H1 : _getPlotData small_table (LibrariesStr "all") SamplesNone 1 = Ok (?[df], ?[nl], ?[ns])) by (vm_compute; reflexivity).
  assert (H2 : mutCounts small_table "all" "aa" (LibrariesStr "all") SamplesNone 1 = Ok ?[out]) by (vm_compute; reflexivity).
  split; [exact H1|]. split; [exact H2|].
  exact (C3_mutCounts_has_one_row_per_possible_mutation small_table "all" "aa"
           (LibrariesStr "all") SamplesNone 1 _ _ _ _ H1 H2).
Defined.

End TableExamples.

(** ** More on sorting *)

Lemma String_leb_trans s1 s2 s3 :
  String.leb s1 s2 = true -> String.leb s2 s3 = true -> String.leb s1 s3 = true.
Proof.
  unfold String.leb. revert s2 s3.
  induction s1 as [|a s1 IH]; intros [|b s2] [|c s3]; simpl; try done.
  unfold Ascii.compare.
  destruct (N.compare_spec (N_of_ascii a) (N_of_ascii b)) as [E1|E1|E1];
  destruct (N.compare_spec (N_of_ascii b) (N_of_ascii c)) as [E2|E2|E2];
  destruct (N.compare_spec (N_of_ascii a) (N_of_ascii c)) as [E3|E3|E3];
  try done; try lia; try apply IH.
Qed.

Section SortMore.
Import Frame Genetic CodonVariantTable.
Context {A : Type} (leb : A -> A -> bool).

Hypothesis leb_total : forall a b, leb a b = true \/ leb b a = true.
Hypothesis leb_trans : forall a b c, leb a b = true -> leb b c = true -> leb a c = true.

Lemma sinsert_least x l :
  (forall y, y ∈ l -> leb x y = true) -> sinsert leb x l = x :: l.
Proof.
  destruct l as [|y l]; [done|]. intros H. simpl.
  by rewrite (H y) by left.
Qed.

Lemma filter_sinsert (P : A -> Prop) `{forall x, Decision (P x)} x l :
  StronglySorted (le_of leb) l ->
  filter P (sinsert leb x l)
  = if decide (P x) then sinsert leb x (filter P l) else filter P l.
Proof.
  induction 1 as [|y l Hl IH Hy]; simpl.
  - rewrite filter_cons. by destruct (decide (P x)).
  - destruct (leb x y) eqn:E.
    + rewrite filter_cons. destruct (decide (P x)); [|done].
      rewrite sinsert_least; [done|].
      intros z Hz. apply list_elem_of_filter in Hz as [_ Hz].
      apply elem_of_cons in Hz as [->|Hz]; [done|].
      rewrite Forall_forall in Hy. eapply leb_trans; [exact E|by apply Hy].
    + rewrite !filter_cons, IH.
      destruct (decide (P y)), (decide (P x)); simpl; try done.
      by rewrite E.
Qed.

Lemma filter_ssort (P : A -> Prop) `{forall x, Decision (P x)} l :
  filter P (ssort leb l) = ssort leb (filter P l).
Proof.
  induction l as [|x l IH]; simpl; [done|].
  rewrite filter_sinsert by (by apply ssort_sorted).
  rewrite filter_cons, IH. by destruct (decide (P x)).
Qed.

Lemma sorted_perm_eq l1 l2 :
  StronglySorted (le_of leb) l1 -> StronglySorted (le_of leb) l2 ->
  l1 ≡ₚ l2 ->
  (forall a b, a ∈ l1 -> b ∈ l1 -> leb a b = true -> leb b a = true -> a = b) ->
  l1 = l2.
Proof.
  intros H1. revert l2. induction H1 as [|x l1 Hl1 IH Hx]; intros l2 H2 Hp Hanti.
  - by apply Permutation_nil_l in Hp.
  - destruct H2 as [|y l2 Hl2 Hy].
    { by apply Permutation_nil_r in Hp. }
    assert (x = y) as <-.
    { assert (Hxin : x ∈ y :: l2) by (rewrite <- Hp; left).
      assert (Hyin : y ∈ x :: l1) by (rewrite Hp; left).
      apply elem_of_cons in Hxin as [->|Hxin]; [done|].
      apply elem_of_cons in Hyin as [->|Hyin]; [done|].
      rewrite Forall_forall in Hx, Hy.
      apply Hanti; [left|by right|by apply Hx|by apply Hy]. }
    f_equal. apply IH; [done|by eapply Permutation_cons_inv|].
    intros a b Ha Hb. apply Hanti; by right.
Qed.

Lemma ssort_NoDup l : NoDup l -> NoDup (ssort leb l).
Proof. intros H. by rewrite ssort_perm. Qed.

Lemma elem_of_ssort l x : x ∈ ssort leb l ↔ x ∈ l.
Proof. by rewrite ssort_perm. Qed.

End SortMore.

Lemma StronglySorted_filter {A} (R : relation A) (P : A -> Prop)
    `{forall x, Decision (P x)} l :
  StronglySorted R l -> StronglySorted R (filter P l).
Proof.
  induction 1 as [|x l Hl IH Hx]; [constructor|].
  rewrite filter_cons. destruct (decide (P x)); [|done].
  constructor; [done|]. rewrite Forall_forall in *.
  intros y [_ Hy]%list_elem_of_filter. by apply Hx.
Qed.

Lemma StronglySorted_impl {A} (R S : relation A) (l : list A) :
  (forall a b, a ∈ l -> b ∈ l -> R a b -> S a b) ->
  StronglySorted R l -> StronglySorted S l.
Proof.
  intros H Hs. induction Hs as [|x l Hl IH Hx]; constructor.
  - apply IH. intros a b Ha Hb. apply H; by right.
  - rewrite Forall_forall in *. intros y Hy. apply H; [left|by right|by apply Hx].
Qed.

Lemma filter_all {A} (P : A -> Prop) `{forall x, Decision (P x)} (l : list A) :
  (forall x, x ∈ l -> P x) -> filter P l = l.
Proof.
  induction l as [|x l IH]; intros Hl; [done|].
  rewrite filter_cons, decide_True by (apply Hl; left).
  f_equal. apply IH. intros y Hy. apply Hl. by right.
Qed.

Lemma filter_ext_in {A} (P Q : A -> Prop) `{forall x, Decision (P x)}
    `{forall x, Decision (Q x)} (l : list A) :
  (forall x, x ∈ l -> P x ↔ Q x) -> filter P l = filter Q l.
Proof.
  induction l as [|x l IH]; intros Hl; [done|].
  rewrite !filter_cons, IH by (intros y Hy; apply Hl; by right).
  destruct (decide (P x)) as [HP|HP], (decide (Q x)) as [HQ|HQ]; try done.
  - destruct HQ. by apply (Hl x); [left|].
  - destruct HP. by apply (Hl x); [left|].
Qed.

(** A list sorted by a relation that keeps the elements of [P] before
    the others is those of [P] followed by the others. *)
Lemma sorted_split {A} (R : relation A) (P : A -> Prop)
    `{forall x, Decision (P x)} l :
  StronglySorted R l -> (forall a b, a ∈ l -> b ∈ l -> R a b -> P b -> P a) ->
  l = filter P l ++ filter (fun x => ~ P x) l.
Proof.
  induction 1 as [|x l Hl IH Hx]; intros HP; [done|].
  rewrite !filter_cons. destruct (decide (P x)) as [Hpx|Hpx].
  - rewrite decide_False by tauto. simpl. f_equal.
    apply IH. intros a b Ha Hb. apply HP; by right.
  - rewrite decide_True by done.
    rewrite (filter_none P l); [simpl; f_equal; symmetry; apply filter_all|].
    + intros y Hy Hpy. apply Hpx. rewrite Forall_forall in Hx.
      apply (HP x y); [left|by right|by apply Hx|done].
    + intros y Hy Hpy. apply Hpx. rewrite Forall_forall in Hx.
      apply (HP x y); [left|by right|by apply Hx|done].
Qed.

(** ** More on frames *)

Section FrameMore.
Import Frame Genetic CodonVariantTable.
Import Frame.

Lemma cat_code_lt cs x : x ∈ cs -> (cat_code cs x < length cs)%nat.
Proof.
  induction cs as [|c cs IH]; intros Hx; [by apply elem_of_nil in Hx|].
  simpl. destruct (decide (c = x)); [lia|].
  apply elem_of_cons in Hx as [->|Hx]; [done|]. specialize (IH Hx). lia.
Qed.

Lemma cat_code_inj cs x y :
  x ∈ cs -> y ∈ cs -> cat_code cs x = cat_code cs y -> x = y.
Proof.
  induction cs as [|c cs IH]; intros Hx Hy; [by apply elem_of_nil in Hx|].
  simpl. destruct (decide (c = x)) as [<-|Hcx], (decide (c = y)) as [<-|Hcy];
    try done.
  intros [=]. apply IH; [| |done].
  - apply elem_of_cons in Hx as [->|Hx]; done.
  - apply elem_of_cons in Hy as [->|Hy]; done.
Qed.

Lemma flat_map_ext_in {A B} (f g : A -> list B) (l : list A) :
  (forall x, x ∈ l -> f x = g x) -> flat_map f l = flat_map g l.
Proof.
  induction l as [|x l IH]; intros H; [done|]. simpl.
  rewrite (H x) by left. f_equal. apply IH. intros y Hy. apply H. by right.
Qed.

(** A list sorted by the category of a column is the concatenation of
    its rows of each category, in the order of the categories. *)
Lemma blocks_by_category {A} (class : A -> string) cls (l : list A) :
  NoDup cls -> (forall x, x ∈ l -> class x ∈ cls) ->
  StronglySorted
    (fun a b => (cat_code cls (class a) ≤ cat_code cls (class b))%nat) l ->
  l = flat_map (fun c => filter (fun x => class x = c) l) cls.
Proof.
  revert l. induction cls as [|c cls IH]; intros l Hnd Hin Hs.
  - destruct l as [|x l]; [done|].
    assert (Hx : class x ∈ []) by (apply Hin; left).
    by apply elem_of_nil in Hx.
  - apply NoDup_cons in Hnd as [Hc Hnd]. simpl.
    rewrite (sorted_split _ (fun x => class x = c) l Hs) at 1.
    2:{ intros a b _ _. simpl. intros Hle <-.
        destruct (decide (class b = class b)); [|done].
        destruct (decide (class b = class a)); [done|lia]. }
    f_equal.
    rewrite (IH (filter (fun x => class x ≠ c) l)) at 1; [|done| |].
    + apply flat_map_ext_in. intros c' Hc'.
      rewrite list_filter_filter. apply filter_ext_in.
      intros x _. split; [tauto|]. intros ->. split; [done|]. by intros ->.
    + intros x [Hne Hx]%list_elem_of_filter.
      specialize (Hin x Hx). apply elem_of_cons in Hin as [?|?]; done.
    + apply (StronglySorted_filter _ (fun x => class x ≠ c)) in Hs.
      eapply StronglySorted_impl; [|exact Hs].
      intros a b [Ha _]%list_elem_of_filter [Hb _]%list_elem_of_filter.
      simpl. rewrite !decide_False by congruence. lia.
Qed.

Context {A : Type} `{EqDecision A}.

Lemma unique_app (l1 l2 : list A) :
  unique (l1 ++ l2) = unique l1 ++ filter (fun x => x ∉ l1) (unique l2).
Proof.
  induction l1 as [|x l1 IH]; simpl.
  - symmetry. apply filter_all. intros y _. apply not_elem_of_nil.
  - f_equal. rewrite IH, filter_app. f_equal.
    rewrite list_filter_filter. apply filter_ext_in.
    intros y _. rewrite not_elem_of_cons. tauto.
Qed.

Lemma unique_app_absorb (l1 l2 : list A) :
  (forall x, x ∈ l2 -> x ∈ l1) -> unique (l1 ++ l2) = unique l1.
Proof.
  intros H. rewrite unique_app, filter_none, app_nil_r; [done|].
  intros x Hx Hn. rewrite elem_of_unique in Hx. by apply Hn, H.
Qed.

Lemma unique_const (l : list A) s :
  l ≠ [] -> (forall x, x ∈ l -> x = s) -> unique l = [s].
Proof.
  induction l as [|x l IH]; intros Hne Hl; [done|]. simpl.
  rewrite (Hl x) by left. f_equal. apply filter_none.
  intros y Hy Hn. rewrite elem_of_unique in Hy. apply Hn, Hl. by right.
Qed.

(** The distinct values of a column made of one block per value. *)
Lemma unique_blocks {R} (col : R -> A) (B : A -> list R) (L : list A) :
  NoDup L ->
  (forall s, s ∈ L -> B s ≠ [] /\ forall r, r ∈ B s -> col r = s) ->
  unique (map col (flat_map B L)) = L.
Proof.
  induction 1 as [|s L Hs HL IH]; intros HB; [done|]. simpl.
  destruct (HB s) as [Hne Hcol]; [left|].
  rewrite map_app, unique_app, IH by (intros s' Hs'; apply HB; by right).
  rewrite (unique_const (map col (B s)) s).
  - simpl. f_equal. apply filter_all.
    intros x Hx (r & E & Hr)%elem_of_map.
    pose proof (Hcol r Hr). assert (x = s) as -> by congruence. done.
  - by destruct (B s).
  - intros x (r & E & Hr)%elem_of_map. pose proof (Hcol r Hr). congruence.
Qed.

End FrameMore.

(** ** The constructor *)

Section InitFacts.
Import Frame Genetic CodonVariantTable.

Lemma foldM_collect df libs vb0 vb :
  foldM (collect_barcodes df) libs vb0 = Ok vb ->
  (forall lib, lib ∈ libs ->
     NoDup (map in_barcode (filter (fun x => in_library x = lib) df)))
  /\ forall lib,
       vb !! lib
       = if decide (lib ∈ libs)
         then Some (list_to_set
                      (map in_barcode (filter (fun x => in_library x = lib) df)))
         else vb0 !! lib.
Proof.
  revert vb0. induction libs as [|l libs IH]; intros vb0 H; simpl in H.
  - injection H as <-. split; [by intros lib ?%elem_of_nil|].
    intros lib. by destruct (decide (lib ∈ [])) as [?%elem_of_nil|].
  - bind_inv H vb1 H1. unfold collect_barcodes in H1.
    destruct (negb _) eqn:E in H1; [discriminate|]. injection H1 as <-.
    apply negb_false_iff, Nat.eqb_eq in E.
    destruct (IH _ H) as [Hnd Hvb]. split.
    + intros lib [->|Hin]%elem_of_cons; [|by apply Hnd].
      by apply size_list_to_set_NoDup.
    + intros lib. rewrite Hvb.
      destruct (decide (lib ∈ libs)) as [Hin|Hin].
      * rewrite decide_True; [done|by right].
      * destruct (decide (lib = l)) as [->|Hne].
        -- rewrite decide_True by left. by rewrite lookup_insert_eq.
        -- rewrite decide_False by (rewrite elem_of_cons; tauto).
           by rewrite lookup_insert_ne.
Qed.

Lemma lookup_empty_lists (libs : list string) lib :
  (list_to_map (map (fun lib => (lib, [])) libs) : gmap string (list string)) !! lib
  = if decide (lib ∈ libs) then Some [] else None.
Proof.
  induction libs as [|l libs IH].
  - by destruct (decide (lib ∈ [])) as [?%elem_of_nil|].
  - change (list_to_map (map (fun lib0 => (lib0, [])) (l :: libs)))
      with (<[l := []]> (list_to_map (map (fun lib0 => (lib0, [])) libs)
                         : gmap string (list string))).
    destruct (decide (lib = l)) as [->|Hne].
    + rewrite decide_True by left. by rewrite lookup_insert_eq.
    + rewrite lookup_insert_ne, IH by done.
      destruct (decide (lib ∈ libs)) as [Hin|Hin].
      * rewrite decide_True; [done|by right].
      * rewrite decide_False; [done|rewrite elem_of_cons; tauto].
Qed.

(** Barcodes that are distinct within each library make the pairs of
    library and barcode distinct. *)
Lemma NoDup_by_library {A} (lib bc : A -> string) (l : list A) :
  (forall c, NoDup (map bc (filter (fun x => lib x = c) l))) ->
  NoDup (map (fun x => (lib x, bc x)) l).
Proof.
  induction l as [|x l IH]; intros H; [constructor|].
  simpl. constructor.
  - intros (y & Hy & Hin)%elem_of_map. injection Hy as Hl Hb.
    specialize (H (lib x)). rewrite filter_cons, decide_True in H by done.
    simpl in H. apply NoDup_cons in H as [H _]. apply H.
    apply elem_of_map. exists y. split; [done|].
    apply list_elem_of_filter. done.
  - apply IH. intros c. specialize (H c). rewrite filter_cons in H.
    destruct (decide (lib x = c)); [|done].
    simpl in H. by apply NoDup_cons in H as [_ H].
Qed.

Lemma NoDup_library_of_keys {A} (lib bc : A -> string) (l : list A) c :
  NoDup (map (fun x => (lib x, bc x)) l) ->
  NoDup (map bc (filter (fun x => lib x = c) l)).
Proof.
  induction l as [|x l IH]; intros H; [constructor|].
  simpl in H. apply NoDup_cons in H as [Hx H].
  rewrite filter_cons. destruct (decide (lib x = c)) as [<-|]; [|by apply IH].
  simpl. constructor; [|by apply IH].
  intros (y & Hy & [Hl Hin]%list_elem_of_filter)%elem_of_map. apply Hx.
  apply elem_of_map. exists y. split; [|done]. by rewrite Hl, Hy.
Qed.

(** The rows [__init__] builds, before they are sorted. *)
Lemma init_rows df codon aa :
  length codon = length df -> length aa = length df ->
  Forall2 (fun r x => library r = in_library x /\ barcode r = in_barcode x
                      /\ variant_call_support r = in_variant_call_support x)
    (map (fun '(x, c, a) => variant_of x c a) (combine (combine df codon) aa))
    df.
Proof.
  revert codon aa.
  induction df as [|x df IH]; intros [|c codon] [|a aa] Hc Ha; try done.
  simpl. constructor; [done|]. apply IH; [by injection Hc|by injection Ha].
Qed.

Lemma init_rows_derived geneseq flag df codon aa :
  mapM_result (fun x => codonSubsFunc geneseq flag (in_substitutions x)) df
  = Ok codon ->
  mapM_result (_codonToAAMuts geneseq) codon = Ok aa ->
  Forall (fun r => derived geneseq r
                   /\ exists x, x ∈ df
                        /\ codonSubsFunc geneseq flag (in_substitutions x)
                           = Ok (codon_substitutions r))
    (map (fun '(x, c, a) => variant_of x c a) (combine (combine df codon) aa)).
Proof.
  intros H1%mapM_result_Ok H2%mapM_result_Ok. revert aa H2.
  induction H1 as [|x c df codon Hx H1 IH]; intros aa H2; [constructor|].
  inversion H2 as [|? a ? aa' Ha H2']; subst. simpl. constructor.
  - split; [done|]. exists x. split; [left|done].
  - eapply Forall_impl; [by apply IH|]. simpl.
    intros r [Hd (y & Hy & Hc)]. split; [done|]. exists y. split; [by right|done].
Qed.

Lemma filter_map_zip {A B V} (P : A -> Prop) (Q : B -> Prop)
    `{forall x, Decision (P x)} `{forall x, Decision (Q x)}
    (va : A -> V) (vb : B -> V) (la : list A) (lb : list B) :
  Forall2 (fun a b => (P a ↔ Q b) /\ va a = vb b) la lb ->
  map va (filter P la) = map vb (filter Q lb).
Proof.
  induction 1 as [|a b la lb [Hpq Hv] _ IH]; [done|].
  rewrite !filter_cons.
  destruct (decide (P a)) as [Hp|Hp], (decide (Q b)) as [Hq|Hq]; try tauto.
  simpl. by rewrite Hv, IH.
Qed.

End InitFacts.

(** ** The orders of the frames *)

Section Orders.
Import Frame Genetic CodonVariantTable.

Lemma variant_leb_total cats a b :
  variant_leb (Categorical cats) a b = true
  \/ variant_leb (Categorical cats) b a = true.
Proof.
  unfold variant_leb, col_eqb, col_leb.
  rewrite (Nat.eqb_sym (cat_code cats (library b))).
  destruct (_ =? _)%nat eqn:E; [apply String.leb_total|].
  apply Nat.eqb_neq in E.
  destruct (Nat.le_ge_cases (cat_code cats (library a)) (cat_code cats (library b)));
    [left|right]; by apply Nat.leb_le.
Qed.

Lemma variant_leb_trans cats a b c :
  variant_leb (Categorical cats) a b = true ->
  variant_leb (Categorical cats) b c = true ->
  variant_leb (Categorical cats) a c = true.
Proof.
  unfold variant_leb, col_eqb, col_leb.
  destruct (cat_code cats (library a) =? cat_code cats (library b))%nat eqn:E1;
  destruct (cat_code cats (library b) =? cat_code cats (library c))%nat eqn:E2;
  destruct (cat_code cats (library a) =? cat_code cats (library c))%nat eqn:E3;
  rewrite ?Nat.eqb_eq, ?Nat.eqb_neq, ?Nat.leb_le in *;
  try lia; try apply String_leb_trans.
Qed.

Lemma variant_leb_antisym cats a b :
  library a ∈ cats -> library b ∈ cats ->
  variant_leb (Categorical cats) a b = true ->
  variant_leb (Categorical cats) b a = true ->
  variant_key a = variant_key b.
Proof.
  intros Ha Hb. unfold variant_leb, col_eqb, col_leb.
  rewrite (Nat.eqb_sym (cat_code cats (library b))).
  destruct (_ =? _)%nat eqn:E.
  - apply Nat.eqb_eq in E. intros H1 H2. unfold variant_key.
    f_equal; [by eapply cat_code_inj|by apply String.leb_antisym].
  - rewrite Nat.eqb_neq in E. rewrite !Nat.leb_le. lia.
Qed.

Lemma count_leb_total dl ds a b :
  count_leb (Categorical dl) (Categorical ds) a b = true
  \/ count_leb (Categorical dl) (Categorical ds) b a = true.
Proof.
  unfold count_leb, col_eqb, col_leb.
  destruct (Nat.eqb_spec (cat_code dl (library (var a)))
                         (cat_code dl (library (var b))));
  destruct (Nat.eqb_spec (cat_code dl (library (var b)))
                         (cat_code dl (library (var a))));
  destruct (Nat.eqb_spec (cat_code ds (sample a)) (cat_code ds (sample b)));
  destruct (Nat.eqb_spec (cat_code ds (sample b)) (cat_code ds (sample a)));
  simpl; rewrite ?Nat.leb_le, ?Z.leb_le; lia.
Qed.

Lemma count_leb_trans dl ds a b c :
  count_leb (Categorical dl) (Categorical ds) a b = true ->
  count_leb (Categorical dl) (Categorical ds) b c = true ->
  count_leb (Categorical dl) (Categorical ds) a c = true.
Proof.
  unfold count_leb, col_eqb, col_leb.
  destruct (cat_code dl (library (var a)) =? cat_code dl (library (var b)))%nat eqn:E1;
  destruct (cat_code dl (library (var b)) =? cat_code dl (library (var c)))%nat eqn:E2;
  destruct (cat_code dl (library (var a)) =? cat_code dl (library (var c)))%nat eqn:E3;
  destruct (cat_code ds (sample a) =? cat_code ds (sample b))%nat eqn:E4;
  destruct (cat_code ds (sample b) =? cat_code ds (sample c))%nat eqn:E5;
  destruct (cat_code ds (sample a) =? cat_code ds (sample c))%nat eqn:E6;
  simpl;
  rewrite ?Nat.eqb_eq, ?Nat.eqb_neq, ?Nat.leb_le, ?Z.leb_le in *;
  lia.
Qed.

(** Within one library and one sample the order of the count frame is
    that of the counts, whatever the categories. *)
Lemma count_leb_same dl ds a b :
  library (var a) = library (var b) -> sample a = sample b ->
  count_leb (Categorical dl) (Categorical ds) a b = (count b <=? count a)%Z.
Proof.
  intros Hl Hs. unfold count_leb, col_eqb. by rewrite Hl, Hs, !Nat.eqb_refl.
Qed.

End Orders.

Section InitInv.
Import Frame Genetic CodonVariantTable.

(** [__init__] step by step. *)
Lemma init_steps df geneseq0 flag :
  init df geneseq0 flag
  = let geneseq := Str.upper geneseq0 in
    if negb (match_geneseq geneseq)
    then Raise (ValueError "invalid nucleotides")
    else if negb (Z.of_nat (String.length geneseq0) mod 3 =? 0)%Z
            || (String.length geneseq0 =? 0)%nat
    then Raise (ValueError "`geneseq` of invalid length")
    else
      _ ← mapM_result (aas geneseq) (sites geneseq);
      let libraries := ssort String.leb (unique (map in_library df)) in
      valid ← foldM (collect_barcodes df) libraries ∅;
      codon ← mapM_result
                (fun x => codonSubsFunc geneseq flag (in_substitutions x)) df;
      aa ← mapM_result (_codonToAAMuts geneseq) codon;
      let sorted :=
        ssort (variant_leb (Categorical libraries))
              (map (fun '(x, c, a) => variant_of x c a)
                   (combine (combine df codon) aa)) in
      _ ← mapM_result (check_codon_mutation geneseq)
            (flat_map (fun v => Str.split (codon_substitutions v)) sorted);
      Ok {| geneseq := geneseq; libraries := libraries;
            _valid_barcodes := valid;
            _samples := list_to_map (map (fun lib => (lib, [])) libraries);
            variant_count_df := None;
            barcode_variant_df := Frame sorted (Categorical libraries) Object |}.
Proof. by destruct flag. Qed.

Lemma Forall2_map_eq {A B C} (f : A -> C) (g : B -> C) la lb :
  Forall2 (fun a b => f a = g b) la lb -> map f la = map g lb.
Proof. induction 1 as [|a b la lb E _ IH]; simpl; [done|by rewrite E, IH]. Qed.

Lemma list_to_set_perm (l1 l2 : list string) :
  l1 ≡ₚ l2 -> (list_to_set l1 : gset string) = list_to_set l2.
Proof.
  intros H. apply set_eq. intros x. rewrite !elem_of_list_to_set. by rewrite H.
Qed.

Lemma barcodes_of_perm l1 l2 lib :
  l1 ≡ₚ l2 -> barcodes_of l1 lib ≡ₚ barcodes_of l2 lib.
Proof. intros H. unfold barcodes_of. by rewrite H. Qed.

(** The constructor establishes what holds of every table. *)
Lemma init_wf df geneseq0 flag t : init df geneseq0 flag = Ok t -> wf geneseq0 t.
Proof.
  rewrite init_steps. cbv zeta.
  destruct (negb (match_geneseq _)) eqn:E1; [discriminate|].
  destruct (_ || _) eqn:E2; [discriminate|].
  intros H. bind_inv H u0 Haas. bind_inv H valid Hv. bind_inv H codon Hc.
  bind_inv H aa Ha. bind_inv H u Hu. injection H as <-.
  set (g := Str.upper geneseq0) in *.
  set (libs := ssort String.leb (unique (map in_library df))) in *.
  set (rows0 := map (fun '(x, c, a) => variant_of x c a)
                    (combine (combine df codon) aa)) in *.
  assert (Hlc : length codon = length df) by (by eapply mapM_result_length).
  assert (Hla : length aa = length df).
  { rewrite <- Hlc. by eapply mapM_result_length. }
  pose proof (init_rows df codon aa Hlc Hla) as Hz. fold rows0 in Hz.
  destruct (foldM_collect _ _ _ _ Hv) as [Hnd Hvb].
  assert (Hperm : ssort (variant_leb (Categorical libs)) rows0 ≡ₚ rows0)
    by apply ssort_perm.
  assert (Hlibs : forall lib, lib ∈ libs ↔ lib ∈ map in_library df).
  { intros lib. unfold libs. by rewrite elem_of_ssort, elem_of_unique. }
  assert (Hmap : map library rows0 = map in_library df).
  { apply Forall2_map_eq. eapply Forall2_impl; [exact Hz|]. by intros ? ? (? & _). }
  assert (Hbc : forall lib,
             barcodes_of rows0 lib
             = map in_barcode (filter (fun x => in_library x = lib) df)).
  { intros lib. apply filter_map_zip.
    eapply Forall2_impl; [exact Hz|]. intros r x (-> & Hb & _). done. }
  constructor; simpl.
  - done.
  - by apply negb_false_iff in E1.
  - apply orb_false_iff in E2 as [E2 E3].
    apply negb_false_iff, Z.eqb_eq in E2. by apply Nat.eqb_neq in E3.
  - eauto.
  - apply ssort_sorted; [apply String.leb_total|apply String_leb_trans].
  - apply ssort_NoDup, NoDup_unique.
  - done.
  - apply ssort_sorted; [apply variant_leb_total|apply variant_leb_trans].
  - rewrite Hperm.
    replace (map variant_key rows0)
      with (map (fun x => (in_library x, in_barcode x)) df).
    2:{ symmetry. apply Forall2_map_eq. eapply Forall2_impl; [exact Hz|].
        intros r x (Hl & Hb & _). unfold variant_key. by rewrite Hl, Hb. }
    apply NoDup_by_library. intros c.
    destruct (decide (c ∈ libs)) as [Hin|Hin]; [by apply Hnd|].
    rewrite filter_none; [constructor|].
    intros x Hx Hc'. apply Hin, Hlibs. apply elem_of_map. by exists x.
  - intros lib. rewrite Hlibs. setoid_rewrite Hperm.
    rewrite <- Hmap, elem_of_map. split; intros (v & ? & ?); by exists v.
  - rewrite Hperm.
    eapply Forall_impl; [by eapply init_rows_derived|]. by intros r [? _].
  - eauto.
  - intros lib. rewrite Hvb, lookup_empty.
    destruct (decide (lib ∈ libs)); [|done]. f_equal.
    rewrite <- Hbc. apply list_to_set_perm. symmetry. by apply barcodes_of_perm.
  - intros lib. rewrite lookup_empty_lists.
    destruct (decide (lib ∈ libs)); split; try done.
  - intros lib. unfold samples_of. simpl. rewrite lookup_empty_lists.
    destruct (decide (lib ∈ libs)); constructor.
  - intros lib. unfold samples_of. simpl. rewrite lookup_empty_lists.
    by destruct (decide (lib ∈ libs)).
  - by intros [? [=]].
Qed.

End InitInv.

(** ** Adding counts to a table *)

Section AddFacts.
Import Frame Genetic CodonVariantTable.

Lemma filter_key_one (bv : list variant) v :
  NoDup (map variant_key bv) -> v ∈ bv ->
  filter (fun v' => library v' = library v /\ barcode v' = barcode v) bv = [v].
Proof.
  induction bv as [|x bv IH]; intros Hnd Hin; [by apply elem_of_nil in Hin|].
  simpl in Hnd. apply NoDup_cons in Hnd as [Hx Hnd].
  rewrite filter_cons. apply elem_of_cons in Hin as [->|Hin].
  - rewrite decide_True by done. f_equal. apply filter_none.
    intros y Hy [Hl Hb]. apply Hx. apply elem_of_map. exists y.
    split; [|done]. unfold variant_key. by rewrite Hl, Hb.
  - rewrite decide_False; [by apply IH|].
    intros [Hl Hb]. apply Hx. apply elem_of_map. exists v.
    split; [|done]. unfold variant_key. by rewrite Hl, Hb.
Qed.

Lemma elem_of_barcodes_of bv lib b :
  b ∈ barcodes_of bv lib ↔ exists v, v ∈ bv /\ library v = lib /\ barcode v = b.
Proof.
  unfold barcodes_of. rewrite elem_of_map. split.
  - intros (v & Hb & [Hl Hv]%list_elem_of_filter). by exists v.
  - intros (v & Hv & Hl & Hb). exists v. split; [done|].
    by apply list_elem_of_filter.
Qed.

Lemma mapM_samples (t : table) libs :
  (forall lib, lib ∈ libs -> is_Some (_samples t !! lib)) ->
  mapM_result (samples t) libs = Ok (map (samples_of t) libs).
Proof.
  induction libs as [|l libs IH]; intros H; [done|]. simpl.
  destruct (H l) as [s Hs]; [left|].
  assert (E : samples t l = Ok (samples_of t l)).
  { unfold samples, samples_of. by rewrite Hs. }
  rewrite E, bind_ret, IH by (intros; apply H; by right). done.
Qed.

Lemma samples_wf geneseq0 t lib :
  wf geneseq0 t ->
  samples t lib
  = if decide (lib ∈ libraries t) then Ok (samples_of t lib)
    else Raise (ValueError "invalid `library`").
Proof.
  intros Hwf. unfold samples, samples_of.
  pose proof (wf_samples_dom _ _ Hwf lib) as Hd.
  destruct (_samples t !! lib) as [l|] eqn:E.
  - rewrite decide_True; [done|]. apply Hd. by eexists.
  - rewrite decide_False; [done|]. intros Hin. apply Hd in Hin as [? [=]].
Qed.

Lemma valid_barcodes_wf geneseq0 t lib :
  wf geneseq0 t ->
  valid_barcodes t lib
  = if decide (lib ∈ libraries t)
    then Ok (list_to_set (barcodes_of (rows (barcode_variant_df t)) lib))
    else Raise (ValueError "invalid `library`").
Proof.
  intros Hwf. unfold valid_barcodes, in_list.
  rewrite (wf_valid _ _ Hwf lib).
  destruct (decide (lib ∈ libraries t)) as [Hin|Hin].
  - by rewrite bool_decide_eq_true_2.
  - by rewrite bool_decide_eq_false_2.
Qed.

Lemma NoDup_size (l : list string) :
  (length l =? size (list_to_set l : gset string))%nat = bool_decide (NoDup l).
Proof.
  destruct (decide (NoDup l)) as [H|H].
  - rewrite bool_decide_eq_true_2 by done. apply Nat.eqb_eq.
    symmetry. by apply size_list_to_set.
  - rewrite bool_decide_eq_false_2 by done. apply Nat.eqb_neq.
    intros E. by apply H, size_list_to_set_NoDup.
Qed.

(** The outcome of [addSampleCounts] on a table that satisfies [wf]. *)
Lemma addSampleCounts_wf geneseq0 t lib smp bc :
  wf geneseq0 t ->
  (accepts t lib smp bc ->
   addSampleCounts t lib smp bc = (added t lib smp bc, Ok ()))
  /\ (~ accepts t lib smp bc ->
      exists msg, addSampleCounts t lib smp bc = (t, Raise (ValueError msg))).
Proof.
  intros Hwf. unfold addSampleCounts, accepts.
  rewrite (samples_wf _ _ _ Hwf), (valid_barcodes_wf _ _ _ Hwf).
  unfold in_list.
  destruct (decide (lib ∈ libraries t)) as [Hlib|Hlib].
  2:{ rewrite bool_decide_eq_false_2 by done. simpl. split; [tauto|eauto]. }
  rewrite bool_decide_eq_true_2 by done. simpl.
  destruct (decide (smp ∈ samples_of t lib)) as [Hs|Hs].
  { rewrite bool_decide_eq_true_2 by done. split; [tauto|eauto]. }
  rewrite bool_decide_eq_false_2 by done.
  replace (length bc) with (length (map fst bc)) by apply length_map.
  rewrite NoDup_size.
  destruct (decide (NoDup (map fst bc))) as [Hnd|Hnd].
  2:{ rewrite bool_decide_eq_false_2 by done. simpl. split; [tauto|eauto]. }
  rewrite bool_decide_eq_true_2 by done. simpl.
  destruct (decide ((list_to_set (map fst bc) : gset string)
                    = list_to_set (barcodes_of (rows (barcode_variant_df t)) lib)))
    as [Hset|Hset].
  2:{ rewrite bool_decide_eq_false_2 by done. simpl. split; [tauto|eauto]. }
  rewrite bool_decide_eq_true_2 by done. simpl.
  split; [intros _|tauto].
  unfold merge_counts.
  rewrite bool_decide_eq_true_2 by done.
  rewrite bool_decide_eq_true_2 by apply (wf_bv_keys _ _ Hwf). simpl.
  rewrite mapM_samples.
  2:{ intros l Hl. simpl. destruct (decide (l = lib)) as [->|Hne].
      - rewrite lookup_insert_eq. by eexists.
      - rewrite lookup_insert_ne by done. by apply (wf_samples_dom _ _ Hwf). }
  simpl. unfold added, count_rows, new_rows, unique_samples. simpl.
  assert (Hp : _samples t !! lib = Some (samples_of t lib)).
  { unfold samples_of. destruct (wf_samples_dom _ _ Hwf lib) as [_ [s ->]]; done. }
  by destruct (variant_count_df t).
Qed.

End AddFacts.

Section AddedFacts.
Import Frame Genetic CodonVariantTable.

Lemma elem_of_new_rows t lib smp bc r :
  r ∈ new_rows t lib smp bc ->
  var r ∈ rows (barcode_variant_df t)
  /\ library (var r) = lib /\ sample r = smp
  /\ (barcode (var r), count r) ∈ bc.
Proof.
  unfold new_rows. rewrite elem_of_flat_map.
  intros ([b n] & Hbn & Hr). apply elem_of_map in Hr as (v & <- & Hv).
  apply list_elem_of_filter in Hv as [[Hl Hb] Hv]. simpl.
  rewrite Hb. done.
Qed.

Lemma new_rows_barcodes t lib smp bc :
  NoDup (map variant_key (rows (barcode_variant_df t))) ->
  (forall b, b ∈ map fst bc -> b ∈ barcodes_of (rows (barcode_variant_df t)) lib) ->
  map (fun r => (barcode (var r), count r)) (new_rows t lib smp bc) = bc.
Proof.
  intros Hnd. unfold new_rows.
  induction bc as [|[b n] bc IH]; intros H; [done|]. simpl.
  rewrite map_app, IH by (intros; apply H; by right). f_equal.
  destruct (proj1 (elem_of_barcodes_of _ _ _) (H b ltac:(left)))
    as (v & Hv & <- & <-).
  rewrite (filter_key_one _ v Hnd Hv). done.
Qed.

Lemma samples_of_added t lib smp bc l :
  samples_of (added t lib smp bc) l
  = if decide (l = lib) then samples_of t lib ++ [smp] else samples_of t l.
Proof.
  unfold samples_of at 1. simpl.
  destruct (decide (l = lib)) as [->|Hne].
  - by rewrite lookup_insert_eq.
  - by rewrite lookup_insert_ne.
Qed.

Lemma batch_app l1 l2 lib smp :
  batch (l1 ++ l2) lib smp = batch l1 lib smp ++ batch l2 lib smp.
Proof. apply filter_app. Qed.

Lemma batch_barcodes_perm l1 l2 lib smp :
  l1 ≡ₚ l2 -> batch_barcodes l1 lib smp ≡ₚ batch_barcodes l2 lib smp.
Proof. intros H. unfold batch_barcodes, batch. by rewrite H. Qed.

Lemma count_rows_spec geneseq0 t r :
  wf geneseq0 t -> r ∈ count_rows t ->
  var r ∈ rows (barcode_variant_df t)
  /\ sample r ∈ samples_of t (library (var r)).
Proof.
  intros Hwf. pose proof (wf_counts _ _ Hwf) as Hc. unfold count_rows.
  destruct (variant_count_df t) as [f|]; [|by intros ?%elem_of_nil].
  destruct Hc as (_ & _ & _ & Hr & _). apply Hr.
Qed.

Lemma count_rows_batch geneseq0 t lib smp :
  wf geneseq0 t -> smp ∈ samples_of t lib ->
  NoDup (batch_barcodes (count_rows t) lib smp)
  /\ (list_to_set (batch_barcodes (count_rows t) lib smp) : gset string)
     = list_to_set (barcodes_of (rows (barcode_variant_df t)) lib).
Proof.
  intros Hwf Hs. pose proof (wf_counts _ _ Hwf) as Hc. unfold count_rows.
  destruct (variant_count_df t) as [f|].
  - destruct Hc as (_ & _ & _ & _ & Hb). by apply Hb.
  - rewrite Hc in Hs. by apply elem_of_nil in Hs.
Qed.

(** [addSampleCounts] keeps what holds of every table. *)
Lemma added_wf geneseq0 t lib smp bc :
  wf geneseq0 t -> accepts t lib smp bc -> wf geneseq0 (added t lib smp bc).
Proof.
  intros Hwf (Hlib & Hsmp & Hnd & Hset).
  pose proof (fun r => count_rows_spec _ t r Hwf) as Hrows.
  pose proof (fun l s => count_rows_batch _ t l s Hwf) as Hbatch.
  pose proof (samples_of_added t lib smp bc) as Hso.
  assert (Hbcs : forall b, b ∈ map fst bc ->
                           b ∈ barcodes_of (rows (barcode_variant_df t)) lib).
  { intros b Hb. apply (elem_of_list_to_set (C:=gset string)).
    rewrite <- Hset. by apply elem_of_list_to_set. }
  pose proof (new_rows_barcodes t lib smp bc (wf_bv_keys _ _ Hwf) Hbcs) as Hnew.
  destruct Hwf. constructor; simpl; try assumption.
  - intros l. destruct (decide (l = lib)) as [->|Hne].
    + rewrite lookup_insert_eq. split; [done|by eexists].
    + by rewrite lookup_insert_ne.
  - intros l. rewrite Hso. destruct (decide (l = lib)); [|done].
    apply NoDup_app. split; [done|]. split; [|apply NoDup_singleton].
    intros x Hx ->%list_elem_of_singleton. done.
  - unfold counts_ok. simpl.
    split; [done|]. split; [done|]. split; [|split].
    + apply (ssort_sorted (count_leb _ _));
        [apply count_leb_total|apply count_leb_trans].
    + intros r. rewrite elem_of_ssort, elem_of_app. rewrite Hso.
      intros [Hr|Hr].
      * destruct (Hrows r Hr) as [Hv Hs]. split; [done|].
        destruct (decide (library (var r) = lib)) as [E|]; [|done].
        rewrite E in Hs. apply elem_of_app. by left.
      * destruct (elem_of_new_rows _ _ _ _ _ Hr) as (Hv & -> & -> & _).
        split; [done|]. rewrite decide_True by done.
        apply elem_of_app. right. left.
    + intros l s. rewrite Hso. intros Hs.
      assert (Hp : batch_barcodes
                     (ssort (count_leb (Categorical (libraries t))
                               (Categorical
                                  (unique_samples
                                     (set_samples t
                                        (<[lib:=samples_of t lib ++ [smp]]>
                                           (_samples t))))))
                        (count_rows t ++ new_rows t lib smp bc)) l s
                   ≡ₚ batch_barcodes (count_rows t) l s
                      ++ batch_barcodes (new_rows t lib smp bc) l s).
      { rewrite (batch_barcodes_perm _ _ _ _ (ssort_perm _ _)).
        unfold batch_barcodes. by rewrite batch_app, map_app. }
      rewrite Hp. clear Hp.
      destruct (decide (l = lib /\ s = smp)) as [[-> ->]|Hne].
      * assert (E1 : batch (count_rows t) lib smp = []).
        { apply filter_none. intros r Hr [Hl Hs']. apply Hsmp.
          destruct (Hrows r Hr) as [_ Hin]. by rewrite Hl, Hs' in Hin. }
        assert (E2 : batch (new_rows t lib smp bc) lib smp
                     = new_rows t lib smp bc).
        { apply filter_all. intros r Hr.
          by destruct (elem_of_new_rows _ _ _ _ _ Hr) as (_ & ? & ? & _). }
        unfold batch_barcodes. rewrite E1, E2. simpl.
        assert (E3 : map (fun r => barcode (var r)) (new_rows t lib smp bc)
                     = map fst bc).
        { rewrite <- Hnew at 2. by rewrite map_map. }
        rewrite E3. done.
      * assert (E2 : batch (new_rows t lib smp bc) l s = []).
        { apply filter_none. intros r Hr [Hl Hs'].
          destruct (elem_of_new_rows _ _ _ _ _ Hr) as (_ & ? & ? & _).
          apply Hne. split; congruence. }
        unfold batch_barcodes at 2 4. rewrite E2. simpl. rewrite !app_nil_r.
        apply Hbatch. destruct (decide (l = lib)) as [->|]; [|done].
        apply elem_of_app in Hs as [Hs|Hs%list_elem_of_singleton]; [done|].
        destruct Hne. done.
  - intros _. exists lib. split; [done|]. rewrite Hso, decide_True by done.
    by destruct (samples_of t lib).
Qed.

(** Every table a program can hold satisfies [wf]. *)
Lemma built_wf geneseq0 t : built geneseq0 t -> wf geneseq0 t.
Proof.
  induction 1 as [df flag t H|t lib smp bc _ IH]; [by eapply init_wf|].
  destruct (addSampleCounts_wf _ _ lib smp bc IH) as [Hok Hfail].
  destruct (decide (accepts t lib smp bc)) as [Ha|Ha].
  - rewrite (Hok Ha). simpl. by apply added_wf.
  - destruct (Hfail Ha) as [msg ->]. done.
Qed.

End AddedFacts.

(** ** Tables built by the constructor and [addSampleCounts] *)

Section BuiltFacts.
Import Frame Genetic CodonVariantTable.

(** X8. On a table built by the constructor and calls of
    [addSampleCounts], a call of [addSampleCounts] succeeds exactly when
    the library is one of the table, the sample is not yet recorded for
    it and the barcodes given are, without repetition, the barcodes of
    the variants of the library; it then leaves the table [added].
    Otherwise it raises [ValueError] and leaves the table as it was. *)
Theorem addSampleCounts_on_a_built_table geneseq0 t lib smp bc :
  built geneseq0 t ->
  (accepts t lib smp bc ->
   addSampleCounts t lib smp bc = (added t lib smp bc, Ok ()))
  /\ (~ accepts t lib smp bc ->
      exists msg, addSampleCounts t lib smp bc = (t, Raise (ValueError msg))).
Proof. intros H. by eapply addSampleCounts_wf, built_wf. Qed.

(** X9. On a built table [samples] and [valid_barcodes] return for the
    libraries of the table, the latter the set of the barcodes of the
    library in [barcode_variant_df], and raise [ValueError] for every
    other name. *)
Theorem samples_and_valid_barcodes_of_a_built_table geneseq0 t lib :
  built geneseq0 t ->
  samples t lib
  = (if decide (lib ∈ libraries t) then Ok (samples_of t lib)
     else Raise (ValueError "invalid `library`"))
  /\ valid_barcodes t lib
     = (if decide (lib ∈ libraries t)
        then Ok (list_to_set (barcodes_of (rows (barcode_variant_df t)) lib))
        else Raise (ValueError "invalid `library`")).
Proof.
  intros H%built_wf. split; [by eapply samples_wf|by eapply valid_barcodes_wf].
Qed.

(** X10. What the constructor returns: the libraries of the file in
    ascending order, each once; no two rows of the file with the same
    library and barcode; one row of [barcode_variant_df] for each row of
    the file, with its library, barcode and support, the rows being
    ordered by library and then by barcode; no counts and no sample. *)
Theorem init_returns_the_sorted_variants df geneseq0 flag t :
  init df geneseq0 flag = Ok t ->
  StronglySorted (fun a b => String.leb a b = true) (libraries t)
  /\ NoDup (libraries t)
  /\ (forall lib, lib ∈ libraries t ↔ lib ∈ map in_library df)
  /\ NoDup (map (fun x => (in_library x, in_barcode x)) df)
  /\ map (fun v => (library v, barcode v, variant_call_support v))
         (rows (barcode_variant_df t))
     ≡ₚ map (fun x => (in_library x, in_barcode x, in_variant_call_support x)) df
  /\ StronglySorted
       (fun a b => variant_leb (Categorical (libraries t)) a b = true)
       (rows (barcode_variant_df t))
  /\ variant_count_df t = None
  /\ forall lib, lib ∈ libraries t -> samples t lib = Ok [].
Proof.
  intros H. pose proof (init_wf _ _ _ _ H) as Hwf.
  split; [apply (wf_libs_sorted _ _ Hwf)|].
  split; [apply (wf_libs_nodup _ _ Hwf)|].
  split; [|split; [|split; [|split; [apply (wf_bv_sorted _ _ Hwf)|]]]].
  all: revert H; rewrite init_steps; cbv zeta.
  all: destruct (negb (match_geneseq _)); [discriminate|].
  all: destruct (_ || _); [discriminate|].
  all: intros H; bind_inv H u0 Haas; bind_inv H valid Hv; bind_inv H codon Hc.
  all: bind_inv H aa Ha; bind_inv H u Hu; injection H as <-; simpl.
  all: assert (Hlc : length codon = length df) by (by eapply mapM_result_length).
  all: assert (Hla : length aa = length df)
         by (rewrite <- Hlc; by eapply mapM_result_length).
  all: pose proof (init_rows df codon aa Hlc Hla) as Hz.
  all: destruct (foldM_collect _ _ _ _ Hv) as [Hnd Hvb].
  - intros lib. by rewrite elem_of_ssort, elem_of_unique.
  - apply NoDup_by_library. intros c.
    destruct (decide (c ∈ map in_library df)) as [Hin|Hin].
    + apply Hnd. by rewrite elem_of_ssort, elem_of_unique.
    + rewrite filter_none; [constructor|].
      intros x Hx Hc'. apply Hin. apply elem_of_map. by exists x.
  - rewrite ssort_perm.
    rewrite (Forall2_map_eq
               (fun v => (library v, barcode v, variant_call_support v))
               (fun x => (in_library x, in_barcode x, in_variant_call_support x))
               _ df); [done|].
    eapply Forall2_impl; [exact Hz|].
    intros r x (-> & -> & ->). done.
  - split; [done|]. intros lib Hlib. unfold samples. simpl.
    rewrite lookup_empty_lists. by rewrite decide_True.
Qed.

(** X11. The count frame of a built table.  Without it no sample is
    recorded.  With it some library has a sample, and the frame is
    ordered by library, by sample and by decreasing count; each of its
    rows carries a row of [barcode_variant_df] and a sample recorded for
    the library of that row; and for every sample recorded for a
    library its rows hold each barcode of the library once. *)
Theorem variant_count_df_of_a_built_table geneseq0 t :
  built geneseq0 t ->
  match variant_count_df t with
  | None => forall lib, samples_of t lib = []
  | Some f =>
      counts_ok t f
      /\ exists lib, lib ∈ libraries t /\ samples_of t lib ≠ []
  end.
Proof.
  intros Hwf%built_wf. pose proof (wf_counts _ _ Hwf) as Hc.
  pose proof (wf_counted _ _ Hwf) as Hs.
  destruct (variant_count_df t); [|done]. split; [done|]. by apply Hs.
Qed.

(** X12. [addSampleCounts] never touches the gene, the libraries, the
    valid barcodes or [barcode_variant_df], on any table and with any
    outcome. *)
Theorem addSampleCounts_keeps_the_variants t lib smp bc :
  let t' := (addSampleCounts t lib smp bc).1 in
  geneseq t' = geneseq t /\ libraries t' = libraries t
  /\ _valid_barcodes t' = _valid_barcodes t
  /\ barcode_variant_df t' = barcode_variant_df t.
Proof.
  unfold addSampleCounts.
  destruct (negb (in_list lib (libraries t))); [done|].
  destruct (samples t lib) as [present|e]; [|done].
  destruct (in_list smp present); [done|].
  destruct (negb (_ =? _)%nat); [done|].
  destruct (valid_barcodes t lib) as [valid|e]; [|done].
  destruct (negb (bool_decide _)); [done|].
  match goal with |- context [match ?x with Ok _ => _ | Raise _ => _ end] =>
    destruct x as [[df us]|e] end; done.
Qed.

(** X13. The columns of [barcode_variant_df] in a built table: its
    pairs of library and barcode are distinct, its libraries are those
    of the table, [aa_substitutions] is the translation of
    [codon_substitutions], and the two counts are the numbers of
    mutations of the two columns. *)
Theorem barcode_variant_df_of_a_built_table geneseq0 t :
  built geneseq0 t ->
  NoDup (map variant_key (rows (barcode_variant_df t)))
  /\ (forall lib, lib ∈ libraries t
                  ↔ exists v, v ∈ rows (barcode_variant_df t) /\ library v = lib)
  /\ forall v, v ∈ rows (barcode_variant_df t) ->
       _codonToAAMuts (geneseq t) (codon_substitutions v)
       = Ok (aa_substitutions v)
       /\ n_codon_substitutions v = n_tokens (codon_substitutions v)
       /\ n_aa_substitutions v = n_tokens (aa_substitutions v).
Proof.
  intros Hwf%built_wf.
  split; [apply (wf_bv_keys _ _ Hwf)|]. split; [apply (wf_bv_libs _ _ Hwf)|].
  intros v Hv. pose proof (wf_bv_derived _ _ Hwf) as Hd.
  rewrite Forall_forall in Hd. by apply Hd.
Qed.

End BuiltFacts.

Section BuiltExamples.
Import Frame Genetic CodonVariantTable.

Lemma addSampleCounts_on_a_built_table_witness :
  (accepts example_table "lib_1" "input" counts_lib1_input ->
   addSampleCounts example_table "lib_1" "input" counts_lib1_input
   = (added example_table "lib_1" "input" counts_lib1_input, Ok ()))
  /\ (~ accepts example_table "lib_1" "input" counts_lib1_input ->
      exists msg,
        addSampleCounts example_table "lib_1" "input" counts_lib1_input
        = (example_table, Raise (ValueError msg))).
Proof.
  apply (addSampleCounts_on_a_built_table example_geneseq example_table
           "lib_1" "input" counts_lib1_input).
  apply (built_init _ example_rows false). vm_compute. reflexivity.
Defined.

Lemma samples_and_valid_barcodes_witness :
  samples example_table "lib_3"
  = (if decide ("lib_3" ∈ libraries example_table)
     then Ok (samples_of example_table "lib_3")
     else Raise (ValueError "invalid `library`"))
  /\ valid_barcodes example_table "lib_3"
     = (if decide ("lib_3" ∈ libraries example_table)
        then Ok (list_to_set
                   (barcodes_of (rows (barcode_variant_df example_table)) "lib_3"))
        else Raise (ValueError "invalid `library`")).
Proof.
  apply (samples_and_valid_barcodes_of_a_built_table example_geneseq
           example_table "lib_3").
  apply (built_init _ example_rows false). vm_compute. reflexivity.
Defined.

Lemma init_returns_the_sorted_variants_witness :
  StronglySorted (fun a b => String.leb a b = true) (libraries example_table)
  /\ NoDup (libraries example_table)
  /\ (forall lib, lib ∈ libraries example_table ↔ lib ∈ map in_library example_rows)
  /\ NoDup (map (fun x => (in_library x, in_barcode x)) example_rows)
  /\ map (fun v => (library v, barcode v, variant_call_support v))
         (rows (barcode_variant_df example_table))
     ≡ₚ map (fun x => (in_library x, in_barcode x, in_variant_call_support x))
            example_rows
  /\ StronglySorted
       (fun a b => variant_leb (Categorical (libraries example_table)) a b = true)
       (rows (barcode_variant_df example_table))
  /\ variant_count_df example_table = None
  /\ forall lib, lib ∈ libraries example_table -> samples example_table lib = Ok [].
Proof.
  apply (init_returns_the_sorted_variants example_rows example_geneseq false
           example_table).
  vm_compute. reflexivity.
Defined.

Lemma variant_count_df_of_a_built_table_witness :
  match variant_count_df example_table_1 with
  | None => forall lib, samples_of example_table_1 lib = []
  | Some f =>
      counts_ok example_table_1 f
      /\ exists lib, lib ∈ libraries example_table_1
                     /\ samples_of example_table_1 lib ≠ []
  end.
Proof.
  apply (variant_count_df_of_a_built_table example_geneseq example_table_1).
  apply (built_add example_geneseq example_table "lib_1" "input" counts_lib1_input).
  apply (built_init _ example_rows false). vm_compute. reflexivity.
Defined.

Lemma barcode_variant_df_of_a_built_table_witness :
  NoDup (map variant_key (rows (barcode_variant_df example_table)))
  /\ (forall lib, lib ∈ libraries example_table
                  ↔ exists v, v ∈ rows (barcode_variant_df example_table)
                              /\ library v = lib)
  /\ forall v, v ∈ rows (barcode_variant_df example_table) ->
       _codonToAAMuts (geneseq example_table) (codon_substitutions v)
       = Ok (aa_substitutions v)
       /\ n_codon_substitutions v = n_tokens (codon_substitutions v)
       /\ n_aa_substitutions v = n_tokens (aa_substitutions v).
Proof.
  apply (barcode_variant_df_of_a_built_table example_geneseq example_table).
  apply (built_init _ example_rows false). vm_compute. reflexivity.
Defined.

End BuiltExamples.

Section MoreExamples.
Import Frame Genetic CodonVariantTable.

Lemma ntToCodonMuts_rejects_misplaced_witness :
  is_value_error (_ntToCodonMuts example_geneseq "A1G G4C G6T").
Proof.
  apply (ntToCodonMuts_rejects_misplaced example_geneseq "A1G G4C G6T").
  - reflexivity.
  - intros tok wt mut Hin.
    change (Str.split (Str.upper "A1G G4C G6T")) with ["A1G"; "G4C"; "G6T"] in Hin.
    apply elem_of_cons in Hin as [->|Hin]; [vm_compute; discriminate|].
    apply elem_of_cons in Hin as [->|Hin]; [vm_compute; discriminate|].
    apply elem_of_cons in Hin as [->|Hin]; [vm_compute; discriminate|].
    by apply elem_of_nil in Hin.
  - exists "G6T", ("G", 6%Z, "T"). split; [|split].
    + change (Str.split (Str.upper "A1G G4C G6T")) with ["A1G"; "G4C"; "G6T"].
      right. right. left.
    + vm_compute. reflexivity.
    + right. right. exists "A"%char. split; [vm_compute; reflexivity|discriminate].
Defined.

End MoreExamples.

(** ** Reading a table back from its counts *)

Section ReadBack.
Import Frame Genetic CodonVariantTable.

Lemma key_inj (bv : list variant) a b :
  NoDup (map variant_key bv) -> a ∈ bv -> b ∈ bv ->
  variant_key a = variant_key b -> a = b.
Proof.
  intros Hnd Ha Hb Hk.
  assert (H : [b] = [a]).
  { rewrite <- (filter_key_one bv b Hnd Hb).
    injection Hk as Hl Hbc. rewrite <- Hl, <- Hbc.
    by apply filter_key_one. }
  by injection H.
Qed.

Lemma NoDup_map_compose {A B C} (f : A -> B) (g : B -> C) (l : list A) :
  NoDup (map (fun x => g (f x)) l) -> NoDup (map f l).
Proof.
  induction l as [|x l IH]; simpl; intros H; [constructor|].
  apply NoDup_cons in H as [Hx H]. constructor; [|by apply IH].
  intros (y & Hy & Hin)%elem_of_map. apply Hx. apply elem_of_map.
  exists y. by rewrite Hy.
Qed.

Lemma Forall2_map_self {A B} (R : A -> B -> Prop) (f : A -> B) (l : list A) :
  (forall a, R a (f a)) -> Forall2 R l (map f l).
Proof. intros H. induction l; simpl; constructor; auto. Qed.

Lemma mapM_result_pure {A B} (h : A -> B) (l : list A) :
  mapM_result (fun x => Ok (h x)) l = Ok (map h l).
Proof. induction l as [|x l IH]; simpl; [done|]. by rewrite IH. Qed.

Lemma mapM_result_map {A B C} (f : B -> result C) (h : A -> B) (l : list A) :
  mapM_result f (map h l) = mapM_result (fun x => f (h x)) l.
Proof. induction l as [|x l IH]; simpl; [done|]. by rewrite IH. Qed.

Lemma mapM_result_defined {A B} (f : A -> result B) (d : B) (l : list A) :
  (forall x, x ∈ l -> exists y, f x = Ok y) ->
  mapM_result f l
  = Ok (map (fun x => match f x with Ok y => y | Raise _ => d end) l).
Proof.
  induction l as [|x l IH]; intros H; simpl; [done|].
  destruct (H x) as [y Hy]; [left|]. rewrite Hy, bind_ret.
  rewrite IH by (intros; apply H; by right). done.
Qed.

Lemma combine_map3 {A B C D} (h : A -> B) (k : A -> C) (m : A -> B -> C -> D)
    (l : list A) :
  map (fun '(x, c, a) => m x c a) (combine (combine l (map h l)) (map k l))
  = map (fun x => m x (h x) (k x)) l.
Proof. induction l as [|x l IH]; simpl; [done|]. by rewrite IH. Qed.

Lemma foldM_collect_defined df libs vb0 :
  (forall lib, lib ∈ libs ->
     NoDup (map in_barcode (filter (fun x => in_library x = lib) df))) ->
  exists vb, foldM (collect_barcodes df) libs vb0 = Ok vb.
Proof.
  revert vb0. induction libs as [|l libs IH]; intros vb0 H; [by exists vb0|].
  assert (E : exists vb1, collect_barcodes df vb0 l = Ok vb1).
  { unfold collect_barcodes.
    rewrite Nat.eqb_sym, NoDup_size, bool_decide_eq_true_2 by (apply H; left).
    simpl. eauto. }
  destruct E as [vb1 E].
  destruct (IH vb1) as [vb Hvb]; [intros lib Hlib; apply H; by right|].
  exists vb. simpl. by rewrite E, bind_ret.
Qed.

(** A variant written to the file and read back by the constructor is
    the variant. *)
Lemma row_of_input_of geneseq v :
  derived geneseq v -> row_of geneseq (input_of v) = v.
Proof.
  intros (Ha & Hc & Hn). unfold row_of, aa_of, variant_of. simpl.
  rewrite Ha. destruct v. simpl in *. by rewrite Hc, Hn.
Qed.

Section Table.
Import Frame Genetic CodonVariantTable.
Variables (geneseq0 : string) (t : table).
Hypothesis Hwf : wf geneseq0 t.

Let bv := rows (barcode_variant_df t).

Lemma variant_library v : v ∈ bv -> library v ∈ libraries t.
Proof. intros Hv. apply (wf_bv_libs _ _ Hwf). by exists v. Qed.

Lemma barcodes_of_nonempty lib : lib ∈ libraries t -> barcodes_of bv lib ≠ [].
Proof.
  intros (v & Hv & Hl)%(wf_bv_libs _ _ Hwf).
  intros E. assert (Hb : barcode v ∈ barcodes_of bv lib).
  { apply elem_of_barcodes_of. by exists v. }
  rewrite E in Hb. by apply elem_of_nil in Hb.
Qed.

(** The constructor on the variants of [t], in any order. *)
Lemma init_of_variants (variants : list input_row) :
  variants ≡ₚ map input_of bv ->
  init variants geneseq0 true = Ok (without_counts t).
Proof.
  intros Hp. rewrite init_steps. cbv zeta.
  rewrite (wf_gene_nt _ _ Hwf). simpl negb. cbv iota.
  destruct (wf_gene_len _ _ Hwf) as [Hmod Hlen].
  rewrite (proj2 (Z.eqb_eq _ _) Hmod), (proj2 (Nat.eqb_neq _ _) Hlen).
  simpl. destruct (wf_aas _ _ Hwf) as [u0 Hu0].
  rewrite (wf_geneseq _ _ Hwf) in Hu0. rewrite Hu0, bind_ret.
  assert (Hlibs : ssort String.leb (unique (map in_library variants))
                  = libraries t).
  { apply (sorted_perm_eq String.leb).
    - apply ssort_sorted; [apply String.leb_total|apply String_leb_trans].
    - apply (wf_libs_sorted _ _ Hwf).
    - apply NoDup_Permutation.
      + apply ssort_NoDup, NoDup_unique.
      + apply (wf_libs_nodup _ _ Hwf).
      + intros lib. rewrite elem_of_ssort, elem_of_unique, Hp, map_map.
        rewrite (wf_bv_libs _ _ Hwf lib), elem_of_map.
        split; intros (v & ? & ?); by exists v.
    - intros a b _ _. apply String.leb_antisym. }
  rewrite Hlibs.
  assert (Hkeys : NoDup (map (fun x => (in_library x, in_barcode x)) variants)).
  { rewrite Hp, map_map. apply (wf_bv_keys _ _ Hwf). }
  assert (Hbc : forall lib,
             map in_barcode (filter (fun x => in_library x = lib) variants)
             ≡ₚ barcodes_of bv lib).
  { intros lib. rewrite Hp. unfold barcodes_of.
    apply eq_subrelation; [apply _|].
    symmetry. apply filter_map_zip. by apply Forall2_map_self. }
  destruct (foldM_collect_defined variants (libraries t) ∅) as [vb Hvb].
  { intros lib _. by apply (NoDup_library_of_keys in_library in_barcode). }
  rewrite Hvb, bind_ret.
  assert (Evb : vb = _valid_barcodes t).
  { apply map_eq. intros lib.
    rewrite (proj2 (foldM_collect _ _ _ _ Hvb) lib), (wf_valid _ _ Hwf lib).
    rewrite lookup_empty. destruct (decide _); [|done]. f_equal.
    apply list_to_set_perm, Hbc. }
  unfold codonSubsFunc. rewrite mapM_result_pure, bind_ret.
  rewrite mapM_result_map.
  rewrite (mapM_result_defined _ "").
  2:{ intros x Hx. rewrite Hp in Hx. apply elem_of_map in Hx as (v & <- & Hv).
      pose proof (wf_bv_derived _ _ Hwf) as Hd. rewrite Forall_forall in Hd.
      destruct (Hd v Hv) as [Ha _]. rewrite (wf_geneseq _ _ Hwf) in Ha.
      simpl. eauto. }
  rewrite bind_ret.
  rewrite (combine_map3 in_substitutions (aa_of (Str.upper geneseq0)) variant_of).
  fold (row_of (Str.upper geneseq0)).
  assert (Hrows : map (row_of (Str.upper geneseq0)) variants ≡ₚ bv).
  { rewrite Hp, map_map. apply eq_subrelation; [apply _|].
    rewrite <- (map_id bv) at 2. apply map_ext_in. intros v Hv%list_elem_of_In.
    apply row_of_input_of. pose proof (wf_bv_derived _ _ Hwf) as Hd.
    rewrite Forall_forall, (wf_geneseq _ _ Hwf) in Hd. by apply Hd. }
  assert (Hsorted : ssort (variant_leb (Categorical (libraries t)))
                      (map (row_of (Str.upper geneseq0)) variants) = bv).
  { apply (sorted_perm_eq (variant_leb (Categorical (libraries t)))).
    - apply ssort_sorted; [apply variant_leb_total|apply variant_leb_trans].
    - apply (wf_bv_sorted _ _ Hwf).
    - by rewrite ssort_perm.
    - intros a b Ha Hb H1 H2.
      rewrite elem_of_ssort, Hrows in Ha. rewrite elem_of_ssort, Hrows in Hb.
      apply (key_inj bv); [apply (wf_bv_keys _ _ Hwf)|done..|].
      eapply variant_leb_antisym; eauto using variant_library. }
  rewrite Hsorted.
  destruct (wf_bv_checked _ _ Hwf) as [u Hu].
  rewrite (wf_geneseq _ _ Hwf) in Hu. fold bv in Hu. rewrite Hu, bind_ret.
  unfold without_counts. rewrite Evb, (wf_geneseq _ _ Hwf).
  destruct (wf_bv_dtypes _ _ Hwf) as [Hd1 Hd2].
  destruct (barcode_variant_df t) as [r d1 d2]. simpl in *.
  by rewrite Hd1, Hd2.
Qed.

End Table.

End ReadBack.

(** ** The rows of a count frame, by library and sample *)

Section CountBlocks.
Import Frame Genetic CodonVariantTable.

Lemma count_leb_library dl ds a b :
  count_leb (Categorical dl) (Categorical ds) a b = true ->
  (cat_code dl (library (var a)) ≤ cat_code dl (library (var b)))%nat.
Proof.
  unfold count_leb, col_eqb, col_leb.
  destruct (Nat.eqb_spec (cat_code dl (library (var a)))
                         (cat_code dl (library (var b)))) as [E|E];
    simpl; [lia|]. by rewrite Nat.leb_le.
Qed.

Lemma count_leb_sample dl ds a b :
  library (var a) = library (var b) ->
  count_leb (Categorical dl) (Categorical ds) a b = true ->
  (cat_code ds (sample a) ≤ cat_code ds (sample b))%nat.
Proof.
  intros Hl. unfold count_leb, col_eqb, col_leb. rewrite Hl, Nat.eqb_refl. simpl.
  destruct (Nat.eqb_spec (cat_code ds (sample a)) (cat_code ds (sample b)))
    as [E|E]; simpl; [lia|]. by rewrite Nat.leb_le.
Qed.

Lemma batch_filter (l : list count_row) lib smp :
  filter (fun r => sample r = smp) (filter (fun r => library (var r) = lib) l)
  = batch l lib smp.
Proof.
  rewrite list_filter_filter. apply filter_ext_in. intros r _. tauto.
Qed.

(** A count frame is the concatenation of its rows for each library and
    each sample, in the order of the categories. *)
Lemma count_blocks dl ds (l : list count_row) :
  NoDup dl -> NoDup ds ->
  StronglySorted
    (fun a b => count_leb (Categorical dl) (Categorical ds) a b = true) l ->
  (forall r, r ∈ l -> library (var r) ∈ dl /\ sample r ∈ ds) ->
  l = flat_map (fun lib => flat_map (fun smp => batch l lib smp) ds) dl.
Proof.
  intros Hdl Hds Hs Hin.
  rewrite (blocks_by_category (fun r => library (var r)) dl l) at 1;
    [|done|by intros r [? _]%Hin|].
  2:{ eapply StronglySorted_impl; [|exact Hs]. intros a b _ _.
      apply count_leb_library. }
  apply flat_map_ext_in. intros lib _.
  rewrite (blocks_by_category sample ds
             (filter (fun r => library (var r) = lib) l)) at 1; [|done| |].
  - apply flat_map_ext_in. intros smp _. apply batch_filter.
  - intros r [_ Hr]%list_elem_of_filter. by apply Hin.
  - apply (StronglySorted_filter _ (fun r => library (var r) = lib)) in Hs.
    eapply StronglySorted_impl; [|exact Hs].
    intros a b [Ha _]%list_elem_of_filter [Hb _]%list_elem_of_filter.
    apply count_leb_sample. congruence.
Qed.

Lemma count_blocks_eq dl ds (l1 l2 : list count_row) :
  NoDup dl -> NoDup ds ->
  StronglySorted
    (fun a b => count_leb (Categorical dl) (Categorical ds) a b = true) l1 ->
  StronglySorted
    (fun a b => count_leb (Categorical dl) (Categorical ds) a b = true) l2 ->
  (forall r, r ∈ l1 -> library (var r) ∈ dl /\ sample r ∈ ds) ->
  (forall r, r ∈ l2 -> library (var r) ∈ dl /\ sample r ∈ ds) ->
  (forall lib smp, batch l1 lib smp = batch l2 lib smp) ->
  l1 = l2.
Proof.
  intros Hdl Hds H1 H2 Hi1 Hi2 Hb.
  rewrite (count_blocks dl ds l1), (count_blocks dl ds l2) by done.
  apply flat_map_ext_in. intros lib _. apply flat_map_ext_in. intros smp _.
  apply Hb.
Qed.

(** The rows of one library and one sample are ordered by count alone:
    they are in order for any categories. *)
Lemma batch_sorted dl ds dl' ds' (l : list count_row) lib smp :
  StronglySorted
    (fun a b => count_leb (Categorical dl) (Categorical ds) a b = true) l ->
  StronglySorted
    (fun a b => count_leb (Categorical dl') (Categorical ds') a b = true)
    (batch l lib smp).
Proof.
  intros Hs.
  apply (StronglySorted_filter _
           (fun r => library (var r) = lib /\ sample r = smp)) in Hs.
  eapply StronglySorted_impl; [|exact Hs].
  intros a b [[Ha1 Ha2] _]%list_elem_of_filter [[Hb1 Hb2] _]%list_elem_of_filter.
  rewrite !count_leb_same by congruence. done.
Qed.

Lemma batch_batch (l : list count_row) lib smp lib' smp' :
  batch (batch l lib smp) lib' smp'
  = if decide (lib' = lib /\ smp' = smp) then batch l lib smp else [].
Proof.
  unfold batch. destruct (decide _) as [[-> ->]|Hne].
  - apply filter_all. by intros r [? _]%list_elem_of_filter.
  - apply filter_none. intros r [[? ?] _]%list_elem_of_filter [? ?].
    apply Hne. split; congruence.
Qed.

Lemma unique_concat_const (L : list string) {A} (libs : list A) :
  libs ≠ [] -> NoDup L -> unique (concat (map (fun _ => L) libs)) = L.
Proof.
  intros Hne HL. destruct libs as [|l libs]; [done|]. simpl.
  rewrite unique_app_absorb; [by apply unique_of_NoDup|].
  intros x Hx. apply list_elem_of_In, in_concat in Hx as (l' & Hl' & Hx).
  apply in_map_iff in Hl' as (? & <- & _). by apply list_elem_of_In.
Qed.

End CountBlocks.

Section RoundTripPrelude.
Import Frame Genetic CodonVariantTable.

Lemma table_eq (a b : table) :
  geneseq a = geneseq b -> libraries a = libraries b ->
  _valid_barcodes a = _valid_barcodes b -> _samples a = _samples b ->
  variant_count_df a = variant_count_df b ->
  barcode_variant_df a = barcode_variant_df b -> a = b.
Proof. destruct a, b. simpl. by intros -> -> -> -> -> ->. Qed.

Lemma frame_eq {R} (a b : frame R) :
  rows a = rows b -> library_dtype a = library_dtype b ->
  sample_dtype a = sample_dtype b -> a = b.
Proof. destruct a, b. simpl. by intros -> -> ->. Qed.

Lemma samples_lookup geneseq0 t lib :
  wf geneseq0 t ->
  _samples t !! lib
  = if decide (lib ∈ libraries t) then Some (samples_of t lib) else None.
Proof.
  intros Hwf. pose proof (wf_samples_dom _ _ Hwf lib) as Hd.
  unfold samples_of. destruct (_samples t !! lib) as [l|] eqn:E.
  - rewrite decide_True; [done|]. apply Hd. by eexists.
  - rewrite decide_False; [done|]. intros Hin. apply Hd in Hin as [? [=]].
Qed.

(** The rows [addSampleCounts] makes of the counts of rows that carry
    variants of the table are these rows. *)
Lemma new_rows_of_batch cvt lib smp (B : list count_row) :
  NoDup (map variant_key (rows (barcode_variant_df cvt))) ->
  (forall r, r ∈ B -> var r ∈ rows (barcode_variant_df cvt)
                      /\ library (var r) = lib /\ sample r = smp) ->
  new_rows cvt lib smp (map (fun r => (barcode (var r), count r)) B) = B.
Proof.
  intros Hnd. unfold new_rows.
  induction B as [|r B IH]; intros H; [done|]. simpl.
  rewrite IH by (intros; apply H; by right).
  destruct (H r) as (Hv & <- & <-); [left|].
  rewrite (filter_key_one _ (var r) Hnd Hv). simpl. by destruct r.
Qed.

Lemma loaded_ext geneseq0 t df S S' cvt :
  (forall lib, S lib = S' lib) ->
  loaded geneseq0 t df S cvt -> loaded geneseq0 t df S' cvt.
Proof.
  intros E (Hw & Hv & Hs & Hb). split; [done|]. split; [done|]. split.
  - intros lib. by rewrite <- E.
  - intros lib smp. rewrite <- E. apply Hb.
Qed.

Lemma nonempty_elem {A} (l : list A) : l ≠ [] -> exists x, x ∈ l.
Proof. destruct l as [|x l]; [done|]. intros _. exists x. left. Qed.

End RoundTripPrelude.

Section RoundTrip.
Import Frame Genetic CodonVariantTable.
Variables (geneseq0 : string) (t : table) (f : frame count_row) (L : list string).
Hypothesis Hwf : wf geneseq0 t.
Hypothesis Hf : variant_count_df t = Some f.
Hypothesis HL : forall lib, lib ∈ libraries t -> samples_of t lib = L.
Hypothesis Hsent : "all libraries" ∉ libraries t.

Lemma counts : counts_ok t f.
Proof. pose proof (wf_counts _ _ Hwf) as H. by rewrite Hf in H. Qed.

Lemma samples_nonempty : L ≠ [] /\ (libraries t) ≠ [] /\ NoDup L.
Proof.
  destruct (wf_counted _ _ Hwf) as (lib & Hlib & Hne); [by rewrite Hf|].
  rewrite (HL _ Hlib) in Hne. split; [done|]. split.
  - intros E. rewrite E in Hlib. by apply elem_of_nil in Hlib.
  - rewrite <- (HL _ Hlib). apply (wf_samples_nodup _ _ Hwf).
Qed.

Lemma samples_of_library lib :
  samples_of t lib = if decide (lib ∈ (libraries t)) then L else [].
Proof.
  destruct (decide (lib ∈ (libraries t))) as [Hin|Hin]; [by apply HL|].
  unfold samples_of. destruct (_samples t !! lib) eqn:E; [|done].
  destruct Hin. apply (wf_samples_dom _ _ Hwf). by eexists.
Qed.

Lemma unique_samples_eq : unique_samples t = L.
Proof.
  destruct samples_nonempty as (_ & Hne & Hnd). unfold unique_samples.
  rewrite (map_ext_in _ (fun _ => L)).
  - by apply unique_concat_const.
  - intros lib Hlib%list_elem_of_In. by apply HL.
Qed.

Lemma vc_sorted :
  StronglySorted
    (fun a b => count_leb (Categorical (libraries t)) (Categorical L) a b = true) (rows f).
Proof.
  destruct counts as (_ & _ & Hs & _). by rewrite unique_samples_eq in Hs.
Qed.

Lemma vc_rows r :
  r ∈ (rows f) -> var r ∈ (rows (barcode_variant_df t)) /\ library (var r) ∈ (libraries t) /\ sample r ∈ L.
Proof.
  intros Hr. destruct counts as (_ & _ & _ & Hrows & _).
  destruct (Hrows r Hr) as [Hv Hs]. split; [done|].
  assert (Hlib : library (var r) ∈ (libraries t)) by (by eapply variant_library).
  split; [done|]. by rewrite (HL _ Hlib) in Hs.
Qed.

Lemma vc_batch lib smp :
  lib ∈ (libraries t) -> smp ∈ L ->
  NoDup (batch_barcodes (rows f) lib smp)
  /\ (list_to_set (batch_barcodes (rows f) lib smp) : gset string)
     = list_to_set (barcodes_of (rows (barcode_variant_df t)) lib)
  /\ batch (rows f) lib smp ≠ [].
Proof.
  intros Hlib Hsmp. destruct counts as (_ & _ & _ & _ & Hb).
  destruct (Hb lib smp) as [Hnd Hset]; [by rewrite HL|].
  split; [done|]. split; [done|]. intros E.
  unfold batch_barcodes in Hset. rewrite E in Hset. simpl in Hset.
  destruct (barcodes_of (rows (barcode_variant_df t)) lib) as [|b l] eqn:Eb.
  - by eapply barcodes_of_nonempty.
  - assert (Hin : b ∈ (∅ : gset string)).
    { rewrite Hset. apply elem_of_list_to_set. left. }
    by apply not_elem_of_empty in Hin.
Qed.

(** The variants [from_variant_count_df] hands to the constructor. *)
Lemma variants_perm :
  unique (map (fun r => input_of (var r)) (rows f)) ≡ₚ map input_of (rows (barcode_variant_df t)).
Proof.
  destruct samples_nonempty as (HLne & _ & _).
  apply NoDup_Permutation.
  - apply NoDup_unique.
  - apply (NoDup_map_compose input_of (fun x => (in_library x, in_barcode x))).
    apply (wf_bv_keys _ _ Hwf).
  - intros x. rewrite elem_of_unique, !elem_of_map. split.
    + intros (r & <- & Hr). exists (var r). split; [done|]. by apply vc_rows.
    + intros (v & <- & Hv).
      destruct (nonempty_elem L HLne) as [s Hs].
      assert (Hlib : library v ∈ (libraries t)) by (by eapply variant_library).
      destruct (vc_batch (library v) s Hlib Hs) as (_ & Hset & _).
      assert (Hb : barcode v ∈ batch_barcodes (rows f) (library v) s).
      { apply (elem_of_list_to_set (C:=gset string)). rewrite Hset.
        apply elem_of_list_to_set, elem_of_barcodes_of. by exists v. }
      apply elem_of_map in Hb as (r & Hb & [[Hl _] Hr]%list_elem_of_filter).
      exists r. split; [|done]. f_equal.
      apply (key_inj (rows (barcode_variant_df t))); [apply (wf_bv_keys _ _ Hwf)| |done|].
      * by apply vc_rows.
      * unfold variant_key. by rewrite Hl, Hb.
Qed.

(** The samples of the file in order of first appearance. *)
Lemma samples_order : unique (map sample (rows f)) = L.
Proof.
  destruct samples_nonempty as (HLne & Hlibs & HLnd).
  pose proof (wf_libs_nodup _ _ Hwf) as Hnd.
  pose proof vc_sorted as Hs. pose proof vc_rows as Hr. pose proof vc_batch as Hb.
  destruct (libraries t) as [|l1 rest_libs]; [done|].
  assert (Hl1 : l1 ∈ l1 :: rest_libs) by left.
  rewrite (count_blocks (l1 :: rest_libs) L (rows f)) at 1; [|done..|].
  2:{ intros r Hin. by destruct (Hr r Hin) as (_ & H1 & H2). }
  simpl. rewrite map_app, unique_app_absorb.
  - apply unique_blocks; [done|]. intros s Hin. split.
    + by apply Hb.
    + by intros r [[_ ?] _]%list_elem_of_filter.
  - intros s (r & <- & Hin)%elem_of_map.
    apply elem_of_flat_map in Hin as (lib & _ & Hin).
    apply elem_of_flat_map in Hin as (s & Hs' & Hin).
    destruct (Hb l1 s Hl1 Hs') as (_ & _ & Hne).
    apply list_elem_of_filter in Hin as [[_ <-] _].
    destruct (batch (rows f) l1 (sample r)) as [|r' l'] eqn:E; [done|].
    apply elem_of_map. exists r'. split.
    + assert (Hr' : r' ∈ batch (rows f) l1 (sample r)) by (rewrite E; left).
      by apply list_elem_of_filter in Hr' as [[_ ?] _].
    + apply elem_of_flat_map. exists (sample r). split; [done|].
      rewrite E. left.
Qed.

(** [from_variant_count_df] on the file of [t]: the constructor, then
    the loops over the samples and the libraries. *)
Lemma from_variant_count_df_steps :
  from_variant_count_df (to_csv f) geneseq0 true
  = foldM (fun cvt smp => foldM (add_from_file (rows f) smp) (libraries cvt) cvt)
          L (without_counts t).
Proof.
  unfold from_variant_count_df, to_csv.
  assert (E : in_list "all libraries"
                (unique (map (fun r => library (var r)) (rows f))) = false).
  { apply not_true_is_false. intros H%in_list_true.
    apply elem_of_unique, elem_of_map in H as (r & Hl & Hr).
    apply Hsent. rewrite <- Hl. by apply vc_rows. }
  rewrite E. simpl andb. cbv iota.
  change (fun r => {| in_library := library (var r);
                      in_barcode := barcode (var r);
                      in_substitutions := codon_substitutions (var r);
                      in_variant_call_support := variant_call_support (var r) |})
    with (fun r => input_of (var r)).
  rewrite (init_of_variants geneseq0 t Hwf _ variants_perm), bind_ret.
  by rewrite samples_order.
Qed.

(** One call of [addSampleCounts] in the loops. *)
Lemma add_from_file_loaded S cvt lib smp :
  loaded geneseq0 t (rows f) S cvt ->
  lib ∈ libraries t -> smp ∈ L -> smp ∉ S lib ->
  exists cvt',
    add_from_file (rows f) smp cvt lib = Ok cvt'
    /\ loaded geneseq0 t (rows f)
         (fun l => if decide (l = lib) then S lib ++ [smp] else S l) cvt'.
Proof.
  intros (Hw & (Hg & Hl & Hv & Hb) & Hs & Hbt) Hlib Hsmp Hnew.
  destruct (vc_batch lib smp Hlib Hsmp) as (Hnd & Hset & Hne).
  unfold add_from_file. cbv zeta.
  assert (Eidf : filter (fun r => sample r = smp /\ library (var r) = lib) (rows f)
                 = batch (rows f) lib smp).
  { apply filter_ext_in. intros r _. tauto. }
  rewrite Eidf.
  assert (Elen : (length (batch (rows f) lib smp) =? 0)%nat = false).
  { apply Nat.eqb_neq. by destruct (batch (rows f) lib smp). }
  rewrite Elen. simpl negb. cbv iota.
  set (bc := map (fun r => (barcode (var r), count r)) (batch (rows f) lib smp)).
  assert (Efst : map fst bc = batch_barcodes (rows f) lib smp).
  { unfold bc, batch_barcodes. by rewrite map_map. }
  assert (Hacc : accepts cvt lib smp bc).
  { split; [by rewrite Hl|]. split; [by rewrite Hs|].
    rewrite Efst, Hb. done. }
  rewrite (proj1 (addSampleCounts_wf _ _ lib smp bc Hw) Hacc).
  exists (added cvt lib smp bc). split; [done|].
  split; [by apply added_wf|]. split; [done|]. split.
  - intros l. by rewrite samples_of_added, !Hs.
  - intros l s Hin.
    assert (Enew : new_rows cvt lib smp bc = batch (rows f) lib smp).
    { apply new_rows_of_batch; [apply (wf_bv_keys _ _ Hw)|].
      intros r [[? ?] Hr]%list_elem_of_filter. rewrite Hb.
      split; [by apply vc_rows|done]. }
    assert (Ecr : count_rows (added cvt lib smp bc)
                  = ssort (count_leb
                             (Categorical (libraries cvt))
                             (Categorical
                                (unique_samples
                                   (set_samples cvt
                                      (<[lib := samples_of cvt lib ++ [smp]]>
                                         (_samples cvt))))))
                          (count_rows cvt ++ new_rows cvt lib smp bc))
      by reflexivity.
    rewrite Ecr, Enew. unfold batch at 1.
    rewrite (filter_ssort _ (count_leb_total _ _) (count_leb_trans _ _)).
    rewrite filter_app. fold (batch (count_rows cvt) l s).
    fold (batch (batch (rows f) lib smp) l s). rewrite batch_batch.
    destruct (decide (l = lib /\ s = smp)) as [[-> ->]|Hne'].
    + assert (E0 : batch (count_rows cvt) lib smp = []).
      { apply filter_none. intros r Hr [Hrl Hrs]. apply Hnew.
        destruct (count_rows_spec _ _ _ Hw Hr) as [_ Hin'].
        by rewrite Hs, Hrl, Hrs in Hin'. }
      rewrite E0. simpl.
      apply ssort_of_sorted. apply (batch_sorted _ _ _ _ _ _ _ vc_sorted).
    + rewrite app_nil_r, Hbt.
      * apply ssort_of_sorted. apply (batch_sorted _ _ _ _ _ _ _ vc_sorted).
      * destruct (decide (l = lib)) as [->|]; [|done].
        apply elem_of_app in Hin as [?|Hin%list_elem_of_singleton]; [done|].
        destruct Hne'. done.
Qed.

(** The loop over the libraries for one sample, after the samples [P]. *)
Lemma inner_loop smp P todo :
  forall done cvt,
    libraries t = done ++ todo -> smp ∈ L -> smp ∉ P ->
    loaded geneseq0 t (rows f)
      (fun l => if decide (l ∈ libraries t)
                then (if decide (l ∈ done) then P ++ [smp] else P) else [])
      cvt ->
    exists cvt',
      foldM (add_from_file (rows f) smp) todo cvt = Ok cvt'
      /\ loaded geneseq0 t (rows f)
           (fun l => if decide (l ∈ libraries t) then P ++ [smp] else []) cvt'.
Proof.
  pose proof (wf_libs_nodup _ _ Hwf) as Hnd.
  induction todo as [|l0 todo IH]; intros done cvt Hlibs Hsmp HP Hload.
  - exists cvt. split; [done|]. eapply loaded_ext; [|exact Hload].
    intros l. simpl. rewrite app_nil_r in Hlibs.
    destruct (decide (l ∈ libraries t)) as [Hin|]; [|done].
    rewrite decide_True; [done|by rewrite <- Hlibs].
  - assert (Hl0 : l0 ∈ libraries t).
    { rewrite Hlibs. apply elem_of_app. right. left. }
    assert (Hl0' : l0 ∉ done).
    { rewrite Hlibs in Hnd. apply NoDup_app in Hnd as (_ & Hnd & _).
      intros Hin. apply (Hnd l0 Hin). left. }
    destruct (add_from_file_loaded _ cvt l0 smp Hload Hl0 Hsmp)
      as (cvt1 & Hstep & Hload1).
    { rewrite decide_True, decide_False by done. done. }
    destruct (IH (done ++ [l0]) cvt1) as (cvt' & Hfold & Hload');
      [by rewrite <- app_assoc|done|done| |].
    + eapply loaded_ext; [|exact Hload1]. intros l. simpl.
      destruct (decide (l = l0)) as [->|Hne].
      * destruct (decide (l0 ∈ libraries t)); [|done].
        destruct (decide (l0 ∈ done)); [done|].
        destruct (decide (l0 ∈ done ++ [l0])) as [|Hn]; [done|].
        destruct Hn. apply elem_of_app. right. left.
      * destruct (decide (l ∈ libraries t)); [|done].
        destruct (decide (l ∈ done)) as [Hin|Hin].
        -- rewrite decide_True; [done|apply elem_of_app; by left].
        -- rewrite decide_False; [done|].
           intros [?|?%list_elem_of_singleton]%elem_of_app; done.
    + exists cvt'. split; [|done]. simpl. by rewrite Hstep, bind_ret.
Qed.

(** The loop over the samples, after the samples [P]. *)
Lemma outer_loop rest :
  forall P cvt,
    L = P ++ rest ->
    loaded geneseq0 t (rows f)
      (fun l => if decide (l ∈ libraries t) then P else []) cvt ->
    exists cvt',
      foldM (fun cvt smp =>
               foldM (add_from_file (rows f) smp) (libraries cvt) cvt)
            rest cvt = Ok cvt'
      /\ loaded geneseq0 t (rows f)
           (fun l => if decide (l ∈ libraries t) then L else []) cvt'.
Proof.
  destruct samples_nonempty as (_ & _ & HLnd).
  induction rest as [|smp rest IH]; intros P cvt HP Hload.
  - exists cvt. split; [done|]. rewrite app_nil_r in HP. by rewrite HP.
  - assert (Hsmp : smp ∈ L).
    { rewrite HP. apply elem_of_app. right. left. }
    assert (HsP : smp ∉ P).
    { rewrite HP in HLnd. apply NoDup_app in HLnd as (_ & Hd & _).
      intros Hin. apply (Hd smp Hin). left. }
    destruct (inner_loop smp P (libraries t) [] cvt) as (cvt1 & Hin1 & Hload1);
      [done..| |].
    { eapply loaded_ext; [|exact Hload]. intros l. simpl.
      destruct (decide (l ∈ libraries t)); [|done].
      by destruct (decide (l ∈ [])) as [?%elem_of_nil|]. }
    destruct (IH (P ++ [smp]) cvt1) as (cvt' & Hfold & Hload');
      [by rewrite <- app_assoc|done|].
    exists cvt'. split; [|done]. simpl.
    destruct Hload as (_ & (_ & -> & _) & _). by rewrite Hin1, bind_ret.
Qed.

(** The table the constructor returns has the variants of [t] and no
    sample. *)
Lemma without_counts_loaded :
  loaded geneseq0 t (rows f) (fun l => if decide (l ∈ libraries t) then [] else [])
         (without_counts t).
Proof.
  split; [|split; [done|split]].
  - eapply init_wf. apply (init_of_variants geneseq0 t Hwf _ variants_perm).
  - intros lib. unfold samples_of. simpl. rewrite lookup_empty_lists.
    by destruct (decide (lib ∈ libraries t)).
  - intros lib smp. by destruct (decide (lib ∈ libraries t)); intros ?%elem_of_nil.
Qed.

(** A table with the variants of [t], its samples and its counts is
    [t]. *)
Lemma loaded_all cvt :
  loaded geneseq0 t (rows f)
    (fun l => if decide (l ∈ libraries t) then L else []) cvt ->
  cvt = t.
Proof.
  intros (Hw & (Hg & Hl & Hv & Hb) & Hs & Hbt).
  destruct samples_nonempty as (HLne & Hlibs & HLnd).
  assert (Hus : unique_samples cvt = L).
  { rewrite <- unique_samples_eq. unfold unique_samples. rewrite Hl. f_equal.
    f_equal. apply map_ext_in. intros l Hin%list_elem_of_In.
    by rewrite Hs, decide_True, HL. }
  apply table_eq; try done.
  - apply map_eq. intros l.
    rewrite (samples_lookup _ _ _ Hw), (samples_lookup _ _ _ Hwf), Hl, Hs.
    by rewrite samples_of_library.
  - rewrite Hf. pose proof (wf_counts _ _ Hw) as Hc.
    destruct (variant_count_df cvt) as [f'|] eqn:E.
    + destruct Hc as (Hd1 & Hd2 & Hsorted & Hrows & _).
      destruct counts as (Hd1' & Hd2' & _).
      f_equal. apply frame_eq.
      * rewrite Hl, Hus in Hsorted.
        assert (Hcr : count_rows cvt = rows f') by (unfold count_rows; by rewrite E).
        apply (count_blocks_eq (libraries t) L);
          [apply (wf_libs_nodup _ _ Hwf)|done|done|apply vc_sorted| | |].
        -- intros r Hr. destruct (Hrows r Hr) as [Hvr Hsr].
           rewrite Hb in Hvr. pose proof (variant_library _ _ Hwf _ Hvr) as Hlr.
           split; [done|]. by rewrite Hs, decide_True in Hsr.
        -- intros r Hr. by destruct (vc_rows r Hr) as (_ & ? & ?).
        -- intros lib smp.
           destruct (decide (lib ∈ libraries t /\ smp ∈ L)) as [[H1 H2]|Hne].
           ++ rewrite <- Hcr. apply Hbt. by rewrite decide_True.
           ++ assert (E1 : batch (rows f') lib smp = []).
              { apply filter_none. intros r Hr [<- <-]. apply Hne.
                destruct (Hrows r Hr) as [Hvr Hsr].
                rewrite Hb in Hvr.
                pose proof (variant_library _ _ Hwf _ Hvr) as Hlr.
                split; [done|]. by rewrite Hs, decide_True in Hsr. }
              assert (E2 : batch (rows f) lib smp = []).
              { apply filter_none. intros r Hr [<- <-]. apply Hne.
                by destruct (vc_rows r Hr) as (_ & ? & ?). }
              by rewrite E1, E2.
      * by rewrite Hd1, Hd1', Hl.
      * by rewrite Hd2, Hd2', Hus, unique_samples_eq.
    + destruct (nonempty_elem _ Hlibs) as [l Hin].
      specialize (Hc l). rewrite Hs, decide_True in Hc by done. done.
Qed.

(** Reading the table back from the file of its counts gives the
    table. *)
Lemma read_back : from_variant_count_df (to_csv f) geneseq0 true = Ok t.
Proof.
  rewrite from_variant_count_df_steps.
  destruct (outer_loop L [] (without_counts t) eq_refl) as (cvt & -> & Hload).
  { eapply loaded_ext; [|exact without_counts_loaded].
    intros l. simpl. by destruct (decide (l ∈ libraries t)). }
  f_equal. by apply loaded_all.
Qed.

End RoundTrip.

(** ** Writing the counts and reading the table back *)

Section RoundTripFacts.
Import Frame Genetic CodonVariantTable.

Lemma eq_refl_table t : __eq__ t t = Ok true.
Proof.
  unfold __eq__, variant_count_df_differ.
  destruct (variant_count_df t); rewrite ?bool_decide_eq_true_2 by done; done.
Qed.


(** X17. On two tables built by the constructor and [addSampleCounts],
    [==] returns, and returns [True] exactly when the tables have the
    same attributes: the comparison of [None] with a frame, which
    raises, is never reached. *)
Theorem eq_of_built_tables g1 g2 a b :
  built g1 a -> built g2 b ->
  exists r, __eq__ a b = Ok r /\ (r = true <-> a = b).
Proof.
  intros Ha%built_wf Hb%built_wf. unfold __eq__.
  destruct (decide (geneseq a = geneseq b)) as [E1|E1].
  2:{ rewrite (bool_decide_eq_false_2 (geneseq a = geneseq b)) by done. simpl.
      exists false. split; [done|]. split; [done|]. by intros ->. }
  rewrite (bool_decide_eq_true_2 (geneseq a = geneseq b)) by done. simpl.
  destruct (decide (libraries a = libraries b)) as [E2|E2].
  2:{ rewrite (bool_decide_eq_false_2 (libraries a = libraries b)) by done. simpl.
      exists false. split; [done|]. split; [done|]. by intros ->. }
  rewrite (bool_decide_eq_true_2 (libraries a = libraries b)) by done. simpl.
  destruct (decide (_valid_barcodes a = _valid_barcodes b)) as [E3|E3].
  2:{ rewrite (bool_decide_eq_false_2 (_valid_barcodes a = _valid_barcodes b))
        by done. simpl.
      exists false. split; [done|]. split; [done|]. by intros ->. }
  rewrite (bool_decide_eq_true_2 (_valid_barcodes a = _valid_barcodes b)) by done.
  simpl.
  destruct (decide (_samples a = _samples b)) as [E4|E4].
  2:{ rewrite (bool_decide_eq_false_2 (_samples a = _samples b)) by done. simpl.
      exists false. split; [done|]. split; [done|]. by intros ->. }
  rewrite (bool_decide_eq_true_2 (_samples a = _samples b)) by done. simpl.
  pose proof (wf_counts _ _ Ha) as Hca. pose proof (wf_counted _ _ Hb) as Hcb.
  pose proof (wf_counts _ _ Hb) as Hcb'. pose proof (wf_counted _ _ Ha) as Hca'.
  destruct (variant_count_df a) as [fa|] eqn:Efa,
           (variant_count_df b) as [fb|] eqn:Efb; simpl.
  - destruct (decide (fa = fb)) as [->|Hne].
    + rewrite (bool_decide_eq_true_2 (fb = fb)) by done. simpl.
      eexists. split; [done|]. rewrite bool_decide_eq_true. split.
      * intros E6. by apply table_eq; [..|rewrite Efa, Efb|].
      * by intros ->.
    + rewrite (bool_decide_eq_false_2 (fa = fb)) by done. simpl.
      exists false. split; [done|]. split; [done|]. intros ->. congruence.
  - exfalso. destruct Hca' as (lib & Hlib & Hne); [by eexists|].
    apply Hne. unfold samples_of. rewrite E4. apply Hcb'.
  - exfalso. destruct Hcb as (lib & Hlib & Hne); [by eexists|].
    apply Hne. unfold samples_of. rewrite <- E4. apply Hca.
  - eexists. split; [done|]. rewrite bool_decide_eq_true. split.
    + intros E6. by apply table_eq; [..|rewrite Efa, Efb|].
    + by intros ->.
Qed.

End RoundTripFacts.

Section RoundTripExamples.
Import Frame Genetic CodonVariantTable.


Lemma eq_of_built_tables_witness :
  exists r, __eq__ example_table example_counted = Ok r
            /\ (r = true <-> example_table = example_counted).
Proof.
  apply (eq_of_built_tables example_geneseq example_geneseq).
  - apply (built_init _ example_rows false). vm_compute. reflexivity.
  - do 4 apply built_add.
    apply (built_init _ example_rows false). vm_compute. reflexivity.
Defined.

(** The samples of the second library added in the other order: the
    table read back has them in the order of the first library, and is
    not equal to the table written. *)
Example read_back_orders_the_samples_of_all_libraries_alike :
  _samples example_reordered !! "lib_2" = Some ["selected"; "input"]
  /\ exists t',
       from_variant_count_df (to_csv (counts_frame example_reordered))
                             example_geneseq true = Ok t'
       /\ _samples t' !! "lib_2" = Some ["input"; "selected"]
       /\ __eq__ example_reordered t' = Ok false.
Proof.
  split; [vm_compute; reflexivity|].
  eexists. split; [vm_compute; reflexivity|].
  split; vm_compute; reflexivity.
Qed.

End RoundTripExamples.

(** ** Tables read from a file of counts *)

Section FromFile.
Import Frame Genetic CodonVariantTable.

Lemma foldM_invariant {A B} (P : A -> Prop) (f : A -> B -> result A) l a b :
  (forall a x b, P a -> f a x = Ok b -> P b) ->
  P a -> foldM f l a = Ok b -> P b.
Proof.
  intros Hstep. revert a. induction l as [|x l IH]; simpl; intros a Ha H.
  - by injection H as <-.
  - bind_inv H a' Ha'. eapply IH; [|exact H]. by eapply Hstep.
Qed.

Lemma init_libraries df geneseq0 flag t :
  init df geneseq0 flag = Ok t ->
  libraries t = ssort String.leb (unique (map in_library df)).
Proof.
  rewrite init_steps. cbv zeta.
  destruct (negb (match_geneseq _)); [discriminate|].
  destruct (_ || _); [discriminate|].
  intros H. bind_inv H u0 Haas. bind_inv H valid Hv. bind_inv H codon Hc.
  bind_inv H aa Ha. bind_inv H u Hu. by injection H as <-.
Qed.

Lemma addSampleCounts_libraries t lib smp bc :
  libraries (addSampleCounts t lib smp bc).1 = libraries t.
Proof.
  unfold addSampleCounts.
  destruct (negb (in_list lib (libraries t))); [done|].
  destruct (samples t lib) as [present|e]; [|done].
  destruct (in_list smp present); [done|].
  destruct (negb (_ =? _)%nat); [done|].
  destruct (valid_barcodes t lib) as [valid|e]; [|done].
  destruct (negb (bool_decide _)); [done|].
  match goal with |- context [match ?x with Ok _ => _ | Raise _ => _ end] =>
    destruct x as [[df us]|e] end; done.
Qed.

(** X18. A table returned by [from_variant_count_df] is a table built
    by the constructor and [addSampleCounts], for the gene given.  Its
    libraries are those of the file, without "all libraries" when
    [drop_all_libs] is set. *)
Theorem from_variant_count_df_returns_a_built_table csv geneseq0 drop t :
  from_variant_count_df csv geneseq0 drop = Ok t ->
  built geneseq0 t
  /\ forall lib,
       lib ∈ libraries t
       ↔ (exists r, r ∈ csv /\ library (var r) = lib)
         /\ (drop = true -> lib ≠ "all libraries").
Proof.
  unfold from_variant_count_df.
  cbv zeta.
  match goal with |- context [unique (map sample ?d)] => set (df := d) end.
  intros H. bind_inv H cvt Hinit.
  pose proof (init_libraries _ _ _ _ Hinit) as Hlibs.
  set (L0 := libraries cvt) in *.
  assert (HP : built geneseq0 t /\ libraries t = L0).
  { revert H.
    apply (foldM_invariant (fun c => built geneseq0 c /\ libraries c = L0)).
    - intros a smp b Ha. fold L0.
      apply (foldM_invariant (fun c => built geneseq0 c /\ libraries c = L0));
        [|done].
      intros a' lib b' [Hb Hl].
      destruct (negb _); [|by intros [= <-]].
      destruct (addSampleCounts a' lib smp _) as [c' [u|e]] eqn:E; [|discriminate].
      intros [= <-]. replace c' with (addSampleCounts a' lib smp
        (map (fun r => (barcode (var r), count r))
             (filter (fun r => sample r = smp ∧ library (var r) = lib) df))).1
        by (by rewrite E).
      split; [by apply built_add|]. by rewrite addSampleCounts_libraries.
    - split; [by eapply built_init|done]. }
  destruct HP as [Hb Hl]. split; [done|].
  intros lib. rewrite Hl, Hlibs, elem_of_ssort, elem_of_unique.
  rewrite elem_of_map. setoid_rewrite elem_of_unique.
  setoid_rewrite elem_of_map.
  assert (Hdf : forall r, r ∈ df ↔ r ∈ csv /\ (drop = true ->
                                               library (var r) ≠ "all libraries")).
  { intros r. subst df. destruct drop; simpl.
    - destruct (in_list _ _) eqn:E.
      + rewrite list_elem_of_filter. tauto.
      + apply not_true_iff_false in E. rewrite in_list_true, elem_of_unique in E.
        split; [|tauto]. intros Hr. split; [done|]. intros _ Hn. apply E.
        apply elem_of_map. by exists r.
    - split; [done|tauto]. }
  split.
  - intros (x & Hx & (r & <- & Hr)). simpl in Hx. subst lib.
    apply Hdf in Hr as [Hr Hd]. split; [by exists r|done].
  - intros [(r & Hr & <-) Hd]. eexists. split; [|exists r; split; [done|]].
    + done.
    + apply Hdf. done.
Qed.

End FromFile.

Section FromFileExamples.
Import Frame Genetic CodonVariantTable.

Lemma from_variant_count_df_returns_a_built_table_witness :
  built example_geneseq example_counted
  /\ forall lib,
       lib ∈ libraries example_counted
       ↔ (exists r, r ∈ to_csv (counts_frame example_counted)
                    /\ library (var r) = lib)
         /\ (true = true -> lib ≠ "all libraries").
Proof.
  apply (from_variant_count_df_returns_a_built_table
           (to_csv (counts_frame example_counted)) example_geneseq true).
  vm_compute. reflexivity.
Defined.

End FromFileExamples.

(** ** The exceptions of the constructor *)

Section Raises.
Import Frame Genetic CodonVariantTable.

Lemma bind_Raise {A B} (m : result A) (k : A -> result B) e :
  (m ≫= k) = Raise e -> m = Raise e \/ exists a, m = Ok a /\ k a = Raise e.
Proof. destruct m as [a|e']; simpl; [eauto|]. intros [= ->]. by left. Qed.

Lemma foldM_Raise {A B} (f : A -> B -> result A) l a e :
  foldM f l a = Raise e -> exists a' x, x ∈ l /\ f a' x = Raise e.
Proof.
  revert a. induction l as [|x l IH]; simpl; intros a H; [discriminate|].
  apply bind_Raise in H as [H|(a' & _ & H)].
  - exists a, x. split; [left|done].
  - destruct (IH _ H) as (a'' & y & Hy & Hf). exists a'', y. split; [by right|done].
Qed.

Lemma foldM_Ok_each {A B} (f : A -> B -> result A) l a b x :
  foldM f l a = Ok b -> x ∈ l -> exists a' b', f a' x = Ok b'.
Proof.
  revert a. induction l as [|y l IH]; simpl; intros a H Hx.
  - by apply elem_of_nil in Hx.
  - bind_inv H a' Ha'. apply elem_of_cons in Hx as [->|Hx]; [eauto|].
    by eapply IH.
Qed.

Lemma mapM_result_Raise {A B} (f : A -> result B) l e :
  mapM_result f l = Raise e -> exists x, x ∈ l /\ f x = Raise e.
Proof.
  induction l as [|x l IH]; simpl; intros H; [discriminate|].
  apply bind_Raise in H as [H|(y & _ & H)].
  - exists x. split; [left|done].
  - apply bind_Raise in H as [H|(ys & _ & H)]; [|discriminate].
    destruct (IH H) as (z & Hz & Hf). exists z. split; [by right|done].
Qed.

(** *** Strings *)

Lemma length_upper s : String.length (Str.upper s) = String.length s.
Proof. induction s; simpl; congruence. Qed.

Lemma take_drop n s : Str.take n s +:+ Str.drop n s = s.
Proof.
  revert s. induction n as [|n IH]; intros [|c s]; try done.
  change (String c (Str.take n s +:+ Str.drop n s) = String c s).
  by rewrite IH.
Qed.

Lemma span_app p s a b : Str.span p s = (a, b) -> s = a +:+ b.
Proof.
  revert a b. induction s as [|c s IH]; simpl; intros a b.
  - by intros [= <- <-].
  - destruct (p c).
    + destruct (Str.span p s) as [a' b']. intros [= <- <-].
      change (String c s = String c (a' +:+ b')).
      by rewrite <- (IH a' b').
    + by intros [= <- <-].
Qed.

Lemma all_take p n s : Str.all p s = true -> Str.all p (Str.take n s) = true.
Proof.
  revert s. induction n as [|n IH]; intros [|c s]; simpl; try done.
  intros [? ?]%andb_true_iff. apply andb_true_iff. auto.
Qed.

Lemma all_drop p n s : Str.all p s = true -> Str.all p (Str.drop n s) = true.
Proof.
  revert s. induction n as [|n IH]; intros [|c s]; simpl; try done.
  intros [? ?]%andb_true_iff. auto.
Qed.

Lemma upper_fixed (q : ascii -> bool) s :
  (forall c, q c = true -> Str.upper_char c = c) ->
  Str.all q s = true -> Str.upper s = s.
Proof.
  intros Hq. induction s as [|c s IH]; simpl; [done|].
  intros [Hc Hs]%andb_true_iff. by rewrite (Hq c Hc), IH.
Qed.

Lemma upper_char_nt_or_digit c :
  is_nt c || Str.is_digit c = true -> Str.upper_char c = c.
Proof.
  destruct c as [[] [] [] [] [] [] [] []]; try discriminate; reflexivity.
Qed.

(** A token the pattern of a codon mutation matches has no lower-case
    letter. *)
Lemma match_mutation_upper n tok m :
  Str.match_mutation is_nt n tok = Some m -> Str.upper tok = tok.
Proof.
  unfold Str.match_mutation.
  destruct (Str.span Str.is_digit (Str.drop n tok)) as [digits rest] eqn:Hspan.
  destruct (_ && _) eqn:E; [|discriminate]. intros _.
  repeat (apply andb_true_iff in E as [E ?]).
  apply (upper_fixed (fun c => is_nt c || Str.is_digit c));
    [apply upper_char_nt_or_digit|].
  rewrite <- (take_drop n tok), (span_app _ _ _ _ Hspan), !all_app.
  repeat (apply andb_true_iff; split).
  - eapply all_impl; [|eassumption]. intros c ->. done.
  - eapply all_impl; [|by eapply span_all]. intros c ->. apply orb_true_r.
  - eapply all_impl; [|eassumption]. intros c ->. done.
Qed.

(** *** The codons of the gene *)

Lemma elem_of_sites geneseq r : r ∈ sites geneseq -> in_sites geneseq r = true.
Proof.
  unfold sites, in_sites. intros (k & <- & Hk)%elem_of_map.
  apply list_elem_of_In, in_seq in Hk.
  apply andb_true_iff. split; apply Z.leb_le; lia.
Qed.

Lemma codons_in_sites geneseq r :
  in_sites geneseq r = true ->
  exists codon, codons geneseq r = Ok codon /\ String.length codon = 3%nat
                /\ (Str.all is_nt geneseq = true -> Str.all is_nt codon = true).
Proof.
  intros Hin. unfold codons. rewrite Hin. eexists. split; [done|].
  apply andb_true_iff in Hin as [H1 H2]. apply Z.leb_le in H1, H2.
  unfold nsites in H2.
  assert (H3 : (3 * r ≤ Z.of_nat (String.length geneseq))%Z).
  { pose proof (Z.mul_div_le (Z.of_nat (String.length geneseq)) 3 ltac:(lia)).
    lia. }
  split.
  - apply Nat2Z.inj. rewrite length_slice. cbv zeta. unfold Str.clip.
    destruct (Z.ltb_spec (3 * (r - 1)) 0), (Z.ltb_spec (3 * r) 0); lia.
  - intros Hall. rewrite slice_in_range by lia. by apply all_take, all_drop.
Qed.

Lemma aas_defined geneseq r :
  Str.all is_nt geneseq = true -> in_sites geneseq r = true ->
  exists a, aas geneseq r = Ok a.
Proof.
  intros Hall Hin. destruct (codons_in_sites _ _ Hin) as (codon & Hc & Hl & Ha).
  destruct (CODON_TO_AA_total codon Hl (Ha Hall)) as (a & Haa & _).
  unfold aas. rewrite Hc, bind_ret, Haa. eauto.
Qed.

Lemma CODON_TO_AA_Raise codon e : CODON_TO_AA codon = Raise e -> e = KeyError.
Proof.
  unfold CODON_TO_AA. repeat case_match; congruence.
Qed.

Lemma aas_Raise geneseq r e : aas geneseq r = Raise e -> e = KeyError.
Proof.
  unfold aas, codons. destruct (in_sites geneseq r); simpl.
  - apply CODON_TO_AA_Raise.
  - congruence.
Qed.

(** *** [_codonToAAMuts] *)

Lemma codonToAAMuts_step_Raise geneseq m tok e :
  _codonToAAMuts_step geneseq m tok = Raise e -> exists msg, e = ValueError msg.
Proof.
  unfold _codonToAAMuts_step.
  destruct (Str.match_mutation is_nt 3 tok) as [[[wt r] mut]|] eqn:Hm;
    [|intros [= <-]; eauto].
  destruct (match_mutation_Some _ _ _ _ _ _ Hm) as (Lw & Aw & Lm & Am & Hr).
  destruct (bool_decide _); [intros [= <-]; eauto|].
  destruct (negb _) eqn:E; [intros [= <-]; eauto|].
  apply negb_false_iff, eqb_str_true in E.
  destruct (eqb_str wt mut); [intros [= <-]; eauto|].
  destruct (CODON_TO_AA_total wt Lw Aw) as (a & Ha & _).
  destruct (CODON_TO_AA_total mut Lm Am) as (b & Hb & _).
  rewrite Ha, bind_ret. unfold aas, codons.
  rewrite slice_codon_in_sites by (done || by rewrite E).
  rewrite bind_ret, E, Ha, bind_ret, eqb_str_refl. simpl py_assert.
  rewrite bind_ret, Hb, bind_ret. by destruct (negb _).
Qed.

Lemma codonToAAMuts_step_Ok geneseq m tok m' :
  _codonToAAMuts_step geneseq m tok = Ok m' ->
  exists wt r mut,
    Str.match_mutation is_nt 3 tok = Some (wt, r, mut)
    /\ Str.slice geneseq (3 * (r - 1)) (3 * r) = wt.
Proof.
  unfold _codonToAAMuts_step.
  destruct (Str.match_mutation is_nt 3 tok) as [[[wt r] mut]|]; [|discriminate].
  destruct (bool_decide _); [discriminate|].
  destruct (negb _) eqn:E; [discriminate|].
  apply negb_false_iff, eqb_str_true in E. eauto.
Qed.

Lemma codonToAAMuts_Raise geneseq c e :
  _codonToAAMuts geneseq c = Raise e -> exists msg, e = ValueError msg.
Proof.
  unfold _codonToAAMuts. intros [H|(m & _ & H)]%bind_Raise; [|discriminate].
  apply foldM_Raise in H as (m & tok & _ & H). by eapply codonToAAMuts_step_Raise.
Qed.

(** The checks at the end of [__init__] on a token of a string that
    [_codonToAAMuts] has accepted: the wildtype codon is right, so the
    branch that raises [NameError] is not taken. *)
Lemma check_codon_mutation_Raise geneseq c a tok e :
  _codonToAAMuts geneseq c = Ok a -> tok ∈ Str.split c ->
  check_codon_mutation geneseq tok = Raise e -> exists msg, e = ValueError msg.
Proof.
  intros Hc Htok. unfold check_codon_mutation.
  destruct (Str.match_mutation is_nt 3 tok) as [[[wt r] mut]|] eqn:Hm;
    [|intros [= <-]; eauto].
  destruct (negb (in_sites geneseq r)) eqn:Hin; [intros [= <-]; eauto|].
  apply negb_false_iff in Hin. unfold codons. rewrite Hin, bind_ret.
  destruct (negb (eqb_str _ wt)) eqn:E.
  - exfalso. apply negb_true_iff, eqb_str_false in E. apply E.
    unfold _codonToAAMuts in Hc. bind_inv Hc m Hm'.
    assert (Hup : Str.upper tok ∈ Str.split (Str.upper c)).
    { rewrite split_upper. apply elem_of_map. by exists tok. }
    destruct (foldM_Ok_each _ _ _ _ _ Hm' Hup) as (m1 & m2 & Hstep).
    apply codonToAAMuts_step_Ok in Hstep as (wt' & r' & mut' & Hm2 & Hs).
    rewrite (match_mutation_upper _ _ _ Hm), Hm in Hm2. by injection Hm2 as <- <- <-.
  - destruct (eqb_str wt mut); [intros [= <-]; eauto|discriminate].
Qed.

(** *** [_ntToCodonMuts] *)

Lemma get_minus_one s : s ≠ EmptyString -> exists c, Str.get s (0 - 1) = Ok c.
Proof.
  intros Hne. assert (Hlen : (0 < String.length s)%nat).
  { destruct s; [done|simpl; lia]. }
  destruct (get_in_range (String.length s - 1) s ltac:(lia)) as (c & Hget).
  exists c. unfold Str.get. replace (0 - 1 <? 0)%Z with true by done.
  destruct (Z.ltb_spec (0 - 1 + Z.of_nat (String.length s)) 0); [lia|].
  replace (Z.to_nat (0 - 1 + Z.of_nat (String.length s)))
    with (String.length s - 1)%nat by lia.
  by rewrite Hget.
Qed.

Lemma ntToCodonMuts_step_Raise geneseq mc tok e :
  (gene_length geneseq mod 3 = 0)%Z -> geneseq ≠ EmptyString ->
  _ntToCodonMuts_step geneseq mc tok = Raise e -> ValueError_or_KeyError e.
Proof.
  intros Hmod Hne.
  destruct (Str.match_mutation is_nt 1 tok) as [[[wt i] mut]|] eqn:Hm.
  2:{ unfold _ntToCodonMuts_step. rewrite Hm. intros [= <-]. left. eauto. }
  destruct (decide (i = 0%Z)) as [->|Hi].
  - unfold _ntToCodonMuts_step. rewrite Hm.
    destruct (eqb_str wt mut); [intros [= <-]; left; eauto|].
    destruct (_ <? _)%Z; [intros [= <-]; left; eauto|].
    destruct (get_minus_one geneseq Hne) as (c & Hget).
    rewrite Hget, bind_ret.
    destruct (negb _); [intros [= <-]; left; eauto|].
    unfold codons. simpl ((0 - 1) / 3 + 1)%Z.
    replace (in_sites geneseq 0) with false by done.
    intros [= <-]. by right.
  - destruct (ntToCodonMuts_step_cases geneseq mc tok Hmod)
      as [[msg ->]|[[mc' ->] _]].
    + intros wt' mut'. rewrite Hm. congruence.
    + intros [= <-]. left. eauto.
    + discriminate.
Qed.

Lemma ntToCodonMuts_step_offsets geneseq mc tok mc' :
  _ntToCodonMuts_step geneseq mc tok = Ok mc' ->
  offsets_ok geneseq mc -> offsets_ok geneseq mc'.
Proof.
  unfold _ntToCodonMuts_step.
  destruct (Str.match_mutation is_nt 1 tok) as [[[wt i] mut]|] eqn:Hm;
    [|discriminate].
  destruct (match_mutation_Some _ _ _ _ _ _ Hm) as (_ & _ & Lm & _ & _).
  destruct (eqb_str wt mut); [discriminate|].
  destruct (_ <? _)%Z; [discriminate|].
  intros H. bind_inv H c Hget. destruct (negb _); [discriminate|].
  bind_inv H codon Hcod. bind_inv H c' Hget'. bind_inv H u Hassert.
  destruct (int_in_pairs _ _); [discriminate|]. injection H as <-.
  intros Hinv r l. destruct (decide (r = ((i - 1) / 3 + 1)%Z)) as [->|Hr].
  - rewrite lookup_insert_eq. intros [= <-]. split.
    + unfold codons in Hcod. by destruct (in_sites _ _).
    + assert (Hold : Forall offset_ok
                       (default [] (mc !! ((i - 1) / 3 + 1)%Z))).
      { destruct (mc !! _) as [l|] eqn:El; simpl; [|constructor].
        by destruct (Hinv _ _ El). }
      unfold set_add. destruct (bool_decide _); [done|].
      apply Forall_app. split; [done|]. constructor; [|constructor].
      split; simpl; [|done]. apply Z.mod_pos_bound. lia.
  - rewrite lookup_insert_ne by done. apply Hinv.
Qed.

Lemma length_set_char s i c :
  String.length c = 1%nat -> String.length (set_char s i c) = String.length s.
Proof.
  intros Hc. revert i. induction s as [|a s IH]; intros [|i]; simpl; try done.
  - destruct c as [|c0 [|? ?]]; try discriminate. done.
  - by rewrite IH.
Qed.

Lemma assign_offsets l codon :
  Forall offset_ok l -> String.length codon = 3%nat ->
  exists codon',
    foldM (fun cod '(i, mut_nt) => assign_char cod i mut_nt) l codon = Ok codon'.
Proof.
  intros Hl. revert codon. induction Hl as [|[i c] l [Hi Hc] _ IH];
    intros codon Hlen; [by exists codon|].
  simpl in Hi, Hc. cbn [foldM].
  assert (E : assign_char codon i c = Ok (set_char codon (Z.to_nat i) c)).
  { unfold assign_char. rewrite Hlen.
    destruct (Z.leb_spec 0 i); [|lia].
    by destruct (Z.ltb_spec i (Z.of_nat 3)); [|lia]. }
  rewrite E, bind_ret. apply IH. by rewrite length_set_char.
Qed.

Lemma ntToCodonMuts_Raise geneseq s e :
  (gene_length geneseq mod 3 = 0)%Z -> geneseq ≠ EmptyString ->
  _ntToCodonMuts geneseq s = Raise e -> ValueError_or_KeyError e.
Proof.
  intros Hmod Hne. unfold _ntToCodonMuts.
  intros [H|(mc & Hmc & H)]%bind_Raise.
  { apply foldM_Raise in H as (m & tok & _ & H).
    by eapply ntToCodonMuts_step_Raise. }
  apply bind_Raise in H as [H|(l & _ & H)]; [|discriminate].
  exfalso. apply mapM_result_Raise in H as ([r l] & Hin & H).
  apply elem_of_sorted_items in Hin.
  assert (Hinv : offsets_ok geneseq mc).
  { revert Hmc. apply (foldM_invariant (offsets_ok geneseq)).
    - intros a x b Ha Hb. by eapply ntToCodonMuts_step_offsets.
    - intros r' l'. by rewrite lookup_empty. }
  destruct (Hinv _ _ Hin) as [Hsite Hl].
  destruct (codons_in_sites _ _ Hsite) as (codon & Hc & Hlen & _).
  destruct (assign_offsets l codon Hl Hlen) as [codon' Hcodon'].
  unfold render_codon_mut in H. rewrite Hc, bind_ret, Hcodon' in H. discriminate.
Qed.

Lemma collect_barcodes_Raise df vb lib e :
  collect_barcodes df vb lib = Raise e -> exists msg, e = ValueError msg.
Proof.
  unfold collect_barcodes. destruct (negb _); [|discriminate].
  intros [= <-]. eauto.
Qed.

Lemma match_geneseq_nonempty s : match_geneseq s = true -> s ≠ EmptyString.
Proof. by destruct s. Qed.


End Raises.

Section RaisesExamples.
Import Frame Genetic CodonVariantTable.


(** A gene that ends with a line break passes the test of its
    nucleotides; the translation of its last codon raises. *)
Example init_with_a_final_line_break :
  init [] ("AT" +:+ String "010"%char EmptyString) true = Raise KeyError.
Proof. vm_compute. reflexivity. Qed.

End RaisesExamples.

(** ** Duplicated barcodes, and the merged library alone *)

Section Rejections.
Import Frame Genetic CodonVariantTable.

Lemma all_nt_match_geneseq s :
  Str.all is_nt s = true -> s ≠ EmptyString -> match_geneseq s = true.
Proof.
  induction s as [|c s IH]; [done|]. intros [Hc Hs]%andb_true_iff _.
  simpl. rewrite Hc. simpl. destruct s as [|c' s']; [done|].
  rewrite IH by done. by destruct c' as [[] [] [] [] [] [] [] []], s'.
Qed.

(** X20. For a gene of nucleotides whose length is a positive multiple
    of three, [__init__] raises [ValueError] whenever two rows of the
    file have the same library and barcode, whatever their
    substitutions are. *)
Theorem init_rejects_duplicated_barcodes df geneseq0 flag :
  Str.all is_nt (Str.upper geneseq0) = true ->
  geneseq0 ≠ EmptyString ->
  (Z.of_nat (String.length geneseq0) mod 3 = 0)%Z ->
  ~ NoDup (map (fun x => (in_library x, in_barcode x)) df) ->
  init df geneseq0 flag = Raise (ValueError "duplicated barcodes").
Proof.
  intros Hall Hne Hmod Hdup. rewrite init_steps. cbv zeta.
  assert (Hne' : Str.upper geneseq0 ≠ EmptyString) by (by destruct geneseq0).
  rewrite (all_nt_match_geneseq _ Hall Hne'). simpl negb. cbv iota.
  rewrite (proj2 (Z.eqb_eq _ _) Hmod).
  assert (Hlen : (String.length geneseq0 =? 0)%nat = false).
  { apply Nat.eqb_neq. by destruct geneseq0. }
  rewrite Hlen. simpl.
  rewrite (mapM_result_defined (aas (Str.upper geneseq0)) "").
  2:{ intros r Hr. apply aas_defined; [done|by apply elem_of_sites]. }
  rewrite bind_ret.
  destruct (foldM _ _ _) as [vb|e] eqn:Hv.
  - exfalso. apply Hdup. destruct (foldM_collect _ _ _ _ Hv) as [Hnd _].
    apply NoDup_by_library. intros c.
    destruct (decide (c ∈ map in_library df)) as [Hin|Hin].
    + apply Hnd. by rewrite elem_of_ssort, elem_of_unique.
    + rewrite filter_none; [constructor|].
      intros x Hx Hc'. apply Hin. apply elem_of_map. by exists x.
  - apply foldM_Raise in Hv as (vb & lib & _ & Hv). simpl.
    unfold collect_barcodes in Hv. destruct (negb _); [|discriminate].
    by injection Hv as <-.
Qed.

Lemma unique_length_le_1 {A} `{EqDecision A} (l : list A) s :
  (forall x, x ∈ l -> x = s) -> (length (unique l) ≤ 1)%nat.
Proof.
  intros H. destruct l as [|a l]; [simpl; lia|].
  rewrite (unique_const (a :: l) s); [simpl; lia|done|done].
Qed.

(** With at most one library in the frame, none of them the merged
    one, keeping the rows of the merged library leaves nothing. *)
Lemma all_only_alone (f : frame count_row) lib :
  lib ≠ "all libraries" ->
  (forall r, r ∈ rows f -> library (var r) = lib) ->
  exists f',
    addMergedLibraries f "all libraries" = Ok f'
    /\ filter (fun r => library (var r) = "all libraries") (rows f') = [].
Proof.
  intros Hne Hlib. exists f. split.
  - unfold addMergedLibraries.
    rewrite (proj2 (Nat.leb_le _ _)); [done|].
    apply (unique_length_le_1 _ lib). intros x (r & <- & Hr)%elem_of_map.
    by apply Hlib.
  - apply filter_none. intros r Hr E. apply Hne. by rewrite <- (Hlib r Hr).
Qed.

Lemma getPlotData_all_only (self : table) (f : frame count_row) lib ms :
  lib ≠ "all libraries" ->
  (forall r, r ∈ rows f -> library (var r) = lib) ->
  is_value_error
    (let df :=
       Frame (filter (fun r => (ms ≤ variant_call_support (var r))%Z) (rows f))
             (library_dtype f) (sample_dtype f) in
     if (length (rows df) =? 0)%nat then Raise (ValueError "no samples")
     else
       let nsamples := length (unique (map sample (rows df))) in
       df ← (df' ← addMergedLibraries df "all libraries";
             Ok (Frame (filter (fun r => library (var r) = "all libraries")
                               (rows df'))
                       (library_dtype df') (sample_dtype df')));
       if (length (rows df) =? 0)%nat then Raise (ValueError "no libraries")
       else Ok (df, length (unique (map (fun r => library (var r)) (rows df))),
                nsamples)).
Proof.
  intros Hne Hlib. cbv zeta.
  destruct (length _ =? 0)%nat; [done|].
  match goal with |- context [addMergedLibraries ?d _] =>
    destruct (all_only_alone d lib Hne) as (f' & -> & E) end.
  { intros r [_ Hr]%list_elem_of_filter. by apply Hlib. }
  rewrite !bind_ret. simpl rows. by rewrite E.
Qed.

(** X21. On a built table with a single library, not named
    "all libraries", [_getPlotData] with [libraries='all_only'] raises
    [ValueError], for the barcoded variants as for all samples:
    [addMergedLibraries] adds no merged library to a frame of one
    library, and no row is left. *)
Theorem getPlotData_all_only_with_one_library geneseq0 t lib smps ms :
  built geneseq0 t ->
  libraries t = [lib] -> lib ≠ "all libraries" ->
  smps = SamplesNone \/ smps = SamplesStr "all" ->
  is_value_error (_getPlotData t (LibrariesStr "all_only") smps ms).
Proof.
  intros Hwf%built_wf Hlibs Hne Hs.
  assert (Hbv : forall v, v ∈ rows (barcode_variant_df t) -> library v = lib).
  { intros v Hv. assert (H : library v ∈ libraries t).
    { apply (wf_bv_libs _ _ Hwf). by exists v. }
    rewrite Hlibs in H. by apply list_elem_of_singleton in H. }
  unfold _getPlotData. destruct Hs as [-> | ->].
  - rewrite bind_ret. apply (getPlotData_all_only t _ lib); [done|].
    simpl. intros r (v & <- & Hv)%elem_of_map. simpl. by apply Hbv.
  - pose proof (wf_counts _ _ Hwf) as Hc.
    destruct (variant_count_df t) as [f|]; [|done].
    rewrite bind_ret. apply (getPlotData_all_only t _ lib); [done|].
    intros r Hr. apply Hbv. destruct Hc as (_ & _ & _ & Hrows & _).
    by apply Hrows.
Qed.

End Rejections.

Section RejectionsExamples.
Import Frame Genetic CodonVariantTable.

Lemma init_rejects_duplicated_barcodes_witness :
  init [{| in_library := "lib_1"; in_barcode := "AAC";
           in_substitutions := ""; in_variant_call_support := 2 |};
        {| in_library := "lib_1"; in_barcode := "AAC";
           in_substitutions := "not a mutation"; in_variant_call_support := 1 |}]
       example_geneseq false
  = Raise (ValueError "duplicated barcodes").
Proof.
  apply init_rejects_duplicated_barcodes.
  - vm_compute. reflexivity.
  - discriminate.
  - vm_compute. reflexivity.
  - intros H. apply NoDup_cons in H as [H _]. apply H. left.
Defined.

Lemma getPlotData_all_only_with_one_library_witness :
  is_value_error
    (_getPlotData small_table (LibrariesStr "all_only") SamplesNone 1).
Proof.
  apply (getPlotData_all_only_with_one_library "ATGGGA" small_table "lib_1").
  - apply (built_init _ small_rows false). vm_compute. reflexivity.
  - vm_compute. reflexivity.
  - discriminate.
  - by left.
Defined.

End RejectionsExamples.
